(** * Taiwan stock tracker: a shallow embedding of [src/main.py]

    The program is a Tkinter desktop application, [StockTrackerApp].  Its
    state is the insertion-ordered dictionary [self.stocks], the persisted
    code list [~/.stock_tracker_config.json], a handful of widget variables,
    the daemon threads it starts (one [fetch_stock] per code) and the
    [root.after] callbacks it arms.

    The embedding keeps that shape:
    - Python text is a [string]; the character classes used by [str.strip],
      [str.upper], [str.isdigit], [int] and [float] are the ASCII ones
      (bytes above 127 belong to no class and have no case mapping), which
      are Python's on ASCII text: what is stated about the validation of
      typed text is stated for ASCII text ([is_ascii]);
    - a Python [float] is an exact binary64 value ([pyfloat]), parsed and
      formatted with correct rounding;
    - [self.stocks] is an association list in insertion order;
    - a started thread is an entry of [threads]; running it is one
      transition, [fetch_stock], applied to the provider's [response]: the
      HTTP request is represented by its answer, and what another thread
      could do between two statements of [fetch_stock] is not represented;
    - a [root.after] callback is an entry of [timers]; it may fire at any
      later moment;
    - calls into Tk (the tree, the message boxes, the dialogs) always
      return; what they show is recorded in [tree] and [dialogs];
    - the interval spinbox is Tk's: a step of it limits the value to the
      bounds given in [init_ui] and then runs [update_refresh_interval]
      (module [Tk], after the script [ttk/spinbox.tcl] of Tk 8.6);
    - the file system is the text of the config file, the list of exported
      files, and a flag per write that tells whether it succeeds.
*)

From Stdlib Require Import ZArith NArith List String Ascii Bool Lia.
From Stdlib Require Import Permutation DecimalString DecimalPos ZifyNat.
Import ListNotations.
Local Open Scope string_scope.
Local Open Scope Z_scope.

(** ** Python text primitives *)

Module PyStr.

Definition code_of (c : ascii) : N := N_of_ascii c.

(** [str.isspace] on ASCII: TAB..CR, FS..US and the blank.  (Python's
    also holds of characters beyond ASCII; see [is_ascii].) *)
Definition isspace (c : ascii) : bool :=
  let n := code_of c in
  ((9 <=? n) && (n <=? 13) || (28 <=? n) && (n <=? 32))%N.

(** [str.isdigit] on ASCII.  (Python's also holds of digits beyond ASCII;
    see [is_ascii].) *)
Definition isdigit (c : ascii) : bool :=
  let n := code_of c in ((48 <=? n) && (n <=? 57))%N.

Definition digit_val (c : ascii) : N := (code_of c - 48)%N.

Definition upper_char (c : ascii) : ascii :=
  let n := code_of c in
  if ((97 <=? n) && (n <=? 122))%N then ascii_of_N (n - 32) else c.

Definition lower_char (c : ascii) : ascii :=
  let n := code_of c in
  if ((65 <=? n) && (n <=? 90))%N then ascii_of_N (n + 32) else c.

Fixpoint map_chars (f : ascii -> ascii) (s : string) : string :=
  match s with
  | EmptyString => EmptyString
  | String c r => String (f c) (map_chars f r)
  end.

(** [s.upper()] and [s.lower()] *)
Definition upper (s : string) : string := map_chars upper_char s.
Definition lower (s : string) : string := map_chars lower_char s.

Fixpoint forallb_chars (p : ascii -> bool) (s : string) : bool :=
  match s with
  | EmptyString => true
  | String c r => p c && forallb_chars p r
  end.

Fixpoint existsb_chars (p : ascii -> bool) (s : string) : bool :=
  match s with
  | EmptyString => false
  | String c r => p c || existsb_chars p r
  end.

(** [s.isdigit()]: false on the empty string. *)
Definition str_isdigit (s : string) : bool :=
  match s with
  | EmptyString => false
  | _ => forallb_chars isdigit s
  end.

(** The white space that [int] and [float] accept around a literal. *)
Definition isspace_num (c : ascii) : bool :=
  let n := code_of c in ((9 <=? n) && (n <=? 13) || (n =? 32))%N.

Fixpoint lstrip_by (sp : ascii -> bool) (s : string) : string :=
  match s with
  | String c r => if sp c then lstrip_by sp r else s
  | EmptyString => EmptyString
  end.

(** Drops trailing white space; the characters are visited right to left. *)
Fixpoint rstrip_by (sp : ascii -> bool) (s : string) : string :=
  match s with
  | EmptyString => EmptyString
  | String c r =>
      match rstrip_by sp r with
      | EmptyString => if sp c then EmptyString else String c EmptyString
      | r' => String c r'
      end
  end.

Definition strip_by (sp : ascii -> bool) (s : string) : string :=
  rstrip_by sp (lstrip_by sp s).

(** [s.strip()] *)
Definition strip (s : string) : string := strip_by isspace s.

(** [s.replace(',', '')] *)
Fixpoint remove_commas (s : string) : string :=
  match s with
  | EmptyString => EmptyString
  | String c r =>
      if Ascii.eqb c "," then remove_commas r else String c (remove_commas r)
  end.

Definition has_comma (s : string) : bool :=
  existsb_chars (fun c => Ascii.eqb c ",") s.

(** [sep.join(parts)] *)
Fixpoint join (sep : string) (parts : list string) : string :=
  match parts with
  | [] => EmptyString
  | [p] => p
  | p :: rest => p ++ sep ++ join sep rest
  end.

(** [s.split(',')] *)
Fixpoint split_commas_aux (cur : string) (s : string) : list string :=
  match s with
  | EmptyString => [cur]
  | String c r =>
      if Ascii.eqb c "," then cur :: split_commas_aux EmptyString r
      else split_commas_aux (cur ++ String c EmptyString) r
  end.

Definition split_commas (s : string) : list string :=
  split_commas_aux EmptyString s.

(** Decimal text of a natural number, as [str(n)] prints it. *)
Definition dec_of_N (n : N) : string :=
  NilEmpty.string_of_uint (N.to_uint n).

(** Text made of ASCII characters only.  On such text [isspace], [isdigit]
    and [upper_char] are Python's.  Beyond ASCII Python knows further white
    space (the no-break and the ideographic space), further digits (the
    superscript and the full-width ones) and further letters, which these
    definitions do not: what is stated about text that the user types is
    stated for ASCII text. *)
Definition is_ascii (s : string) : bool :=
  forallb_chars (fun c => (code_of c <? 128)%N) s.

End PyStr.

(** ** Python numbers: [int], [float] and their format specifications *)

Module PyNum.
Import PyStr.

(** A binary64 value.  [FFin neg m e] is [(-1)^neg * m * 2^e]; the sign of
    a zero is kept, as [float] keeps it. *)
Inductive pyfloat : Type :=
| FNan
| FInf (neg : bool)
| FFin (neg : bool) (m : N) (e : Z).

Definition is_finite (x : pyfloat) : bool :=
  match x with FFin _ _ _ => true | _ => false end.

(** Scans a [digitpart]: digits, with single underscores allowed between
    two digits.  Returns the digits read and the unread rest. *)
Fixpoint scan_digits (s : string) : string * string :=
  match s with
  | String c r =>
      if isdigit c then
        match r with
        | String u r2 =>
            if Ascii.eqb u "_" then
              match r2 with
              | String d _ =>
                  if isdigit d
                  then let (ds, rest) := scan_digits r2 in (String c ds, rest)
                  else (String c EmptyString, r)
              | EmptyString => (String c EmptyString, r)
              end
            else let (ds, rest) := scan_digits r in (String c ds, rest)
        | EmptyString => (String c EmptyString, EmptyString)
        end
      else (EmptyString, s)
  | EmptyString => (EmptyString, EmptyString)
  end.

Fixpoint N_of_digits_acc (acc : N) (ds : string) : N :=
  match ds with
  | EmptyString => acc
  | String c r => N_of_digits_acc (10 * acc + digit_val c)%N r
  end.

Definition N_of_digits (ds : string) : N := N_of_digits_acc 0%N ds.

(** Splits an optional sign off; [true] stands for a minus. *)
Definition take_sign (s : string) : bool * string :=
  match s with
  | String c r =>
      if Ascii.eqb c "-" then (true, r)
      else if Ascii.eqb c "+" then (false, r)
      else (false, s)
  | EmptyString => (false, s)
  end.

(** [int(s)] on text, base ten; [None] is [ValueError].  (The
    interpreter's cap on the number of digits, 4300 by default, is not
    represented.) *)
Definition py_int (s : string) : option Z :=
  let (neg, body) := take_sign (strip_by isspace_num s) in
  match scan_digits body with
  | (String d ds, EmptyString) =>
      let n := Z.of_N (N_of_digits (String d ds)) in
      Some (if neg then - n else n)
  | _ => None
  end.

(** Round to nearest, ties to even, of [num / den] for [0 <= num], [0 < den]. *)
Definition round_half_even (num den : Z) : Z :=
  let q := num / den in
  let r := num mod den in
  if 2 * r <? den then q
  else if den <? 2 * r then q + 1
  else if Z.even q then q else q + 1.

(** The binary64 nearest to [num / den] ([0 <= num], [0 < den]):
    53 bits of precision, least exponent -1074, overflow to infinity. *)
Definition binary64_of_ratio (neg : bool) (num den : Z) : pyfloat :=
  if num =? 0 then FFin neg 0 0
  else
    let k := Z.log2 num - Z.log2 den in
    let ge := if 0 <=? k then den * 2 ^ k <=? num
              else den <=? num * 2 ^ (- k) in
    let fl := if ge then k else k - 1 in
    let e := Z.max (fl - 52) (-1074) in
    let m := if 0 <=? e then round_half_even num (den * 2 ^ e)
             else round_half_even (num * 2 ^ (- e)) den in
    let e' := if m =? 2 ^ 53 then e + 1 else e in
    let m' := if m =? 2 ^ 53 then 2 ^ 52 else m in
    if 971 <? e' then FInf neg else FFin neg (Z.to_N m') e'.

(** The value [m * 10^e10] as a binary64. *)
Definition binary64_of_decimal (neg : bool) (m : N) (e10 : Z) : pyfloat :=
  if 0 <=? e10 then binary64_of_ratio neg (Z.of_N m * 10 ^ e10) 1
  else binary64_of_ratio neg (Z.of_N m) (10 ^ (- e10)).

(** The exponent part of a float literal: empty, or [e], an optional sign
    and a [digitpart], up to the end of the text. *)
Definition scan_exponent (s : string) : option Z :=
  match s with
  | EmptyString => Some 0
  | String c r =>
      if Ascii.eqb (lower_char c) "e" then
        let (neg, body) := take_sign r in
        match scan_digits body with
        | (String d ds, EmptyString) =>
            let n := Z.of_N (N_of_digits (String d ds)) in
            Some (if neg then - n else n)
        | _ => None
        end
      else None
  end.

(** The end of a decimal literal: [ds] are its digits, [shift] of them
    behind the point, and [rest] is what follows them. *)
Definition finish_float (neg : bool) (ds : string) (shift : nat)
           (rest : string) : option pyfloat :=
  match ds with
  | EmptyString => None
  | _ =>
      match scan_exponent rest with
      | Some ex =>
          Some (binary64_of_decimal neg (N_of_digits ds) (ex - Z.of_nat shift))
      | None => None
      end
  end.

(** [float(s)] on text; [None] is [ValueError]. *)
Definition py_float (s : string) : option pyfloat :=
  let (neg, body) := take_sign (strip_by isspace_num s) in
  let low := lower body in
  if String.eqb low "inf" || String.eqb low "infinity" then Some (FInf neg)
  else if String.eqb low "nan" then Some FNan
  else
    let (ip, r1) := scan_digits body in
    match r1 with
    | String c r2 =>
        if Ascii.eqb c "." then
          let (fp, r3) := scan_digits r2 in
          finish_float neg (ip ++ fp) (String.length fp) r3
        else finish_float neg ip 0 r1
    | EmptyString => finish_float neg ip 0 r1
    end.

(** [x > 0] and [x < 0] on floats (false on NaN and on both zeros). *)
Definition float_pos (x : pyfloat) : bool :=
  match x with
  | FNan => false
  | FInf neg => negb neg
  | FFin neg m _ => negb neg && negb (N.eqb m 0)
  end.

Definition float_neg (x : pyfloat) : bool :=
  match x with
  | FNan => false
  | FInf neg => neg
  | FFin neg m _ => neg && negb (N.eqb m 0)
  end.

(** [m * 2^e * 100] rounded to an integer, ties to even. *)
Definition scaled_cents (m : N) (e : Z) : Z :=
  if 0 <=? e then Z.of_N m * 2 ^ e * 100
  else round_half_even (Z.of_N m * 100) (2 ^ (- e)).

Definition digit_char (d : Z) : ascii := ascii_of_N (48 + Z.to_N d).

(** A number of hundredths printed with two decimals. *)
Definition fixed2 (c : Z) : string :=
  (dec_of_N (Z.to_N (c / 100)) ++ "."
     ++ String (digit_char (c mod 100 / 10))
          (String (digit_char (c mod 10)) EmptyString))%string.

Definition sign_text (plus neg : bool) : string :=
  if neg then "-" else if plus then "+" else "".

(** [format(x, '.2f')] when [plus] is false, [format(x, '+.2f')] when it is
    true. *)
Definition format_f2 (plus : bool) (x : pyfloat) : string :=
  match x with
  | FNan => (sign_text plus false ++ "nan")%string
  | FInf neg => (sign_text plus neg ++ "inf")%string
  | FFin neg m e => (sign_text plus neg ++ fixed2 (scaled_cents m e))%string
  end.

(** Inserts a comma before every group of three trailing digits. *)
Fixpoint group3 (ds : string) : string :=
  match ds with
  | EmptyString => EmptyString
  | String c r =>
      let k := String.length r in
      String c (if (Nat.ltb 0 k && Nat.eqb (Nat.modulo k 3) 0)%bool
                then ("," ++ group3 r)%string else group3 r)
  end.

(** [format(v, ',')] on an [int]. *)
Definition format_grouped (v : Z) : string :=
  ((if Z.ltb v 0 then "-" else "") ++ group3 (dec_of_N (Z.abs_N v)))%string.

End PyNum.

(** ** The [json] module, as far as the program uses it *)

Module Json.
Import PyStr.

#[local] Unset Elimination Schemes.
Inductive json : Type :=
| JNull
| JBool (b : bool)
| JNumber (literal : string)
| JString (s : string)
| JArray (items : list json)
| JObject (members : list (string * json)).
#[local] Set Elimination Schemes.

Definition dquote : ascii := ascii_of_N 34.
Definition backslash : ascii := ascii_of_N 92.

Definition hex_char (d : N) : ascii :=
  if (d <? 10)%N then ascii_of_N (48 + d) else ascii_of_N (87 + d).

(** One character of [json.dumps] output with [ensure_ascii=True]. *)
Definition encode_char (c : ascii) : string :=
  let n := code_of c in
  if Ascii.eqb c dquote then String backslash (String dquote EmptyString)
  else if Ascii.eqb c backslash then String backslash (String backslash EmptyString)
  else if (n =? 10)%N then String backslash "n"
  else if (n =? 13)%N then String backslash "r"
  else if (n =? 9)%N then String backslash "t"
  else if (n =? 8)%N then String backslash "b"
  else if (n =? 12)%N then String backslash "f"
  else if ((32 <=? n) && (n <=? 126))%N then String c EmptyString
  else String backslash
         ("u00" ++ String (hex_char (n / 16)) (String (hex_char (n mod 16)) EmptyString)).

Fixpoint encode_chars (s : string) : string :=
  match s with
  | EmptyString => EmptyString
  | String c r => encode_char c ++ encode_chars r
  end.

Definition encode_string (s : string) : string :=
  String dquote (encode_chars s ++ String dquote EmptyString).

(** [json.dumps(codes)] for a list of [str]. *)
Definition dumps_codes (codes : list string) : string :=
  "[" ++ join ", " (map encode_string codes) ++ "]".

Definition is_ws (c : ascii) : bool :=
  let n := code_of c in ((n =? 32) || (n =? 9) || (n =? 10) || (n =? 13))%N.

Fixpoint skip_ws (s : string) : string :=
  match s with
  | String c r => if is_ws c then skip_ws r else s
  | EmptyString => EmptyString
  end.

Definition hex_val (c : ascii) : option N :=
  let n := code_of c in
  if ((48 <=? n) && (n <=? 57))%N then Some (n - 48)%N
  else if ((65 <=? n) && (n <=? 70))%N then Some (n - 55)%N
  else if ((97 <=? n) && (n <=? 102))%N then Some (n - 87)%N
  else None.

Definition hex4 (a b c d : ascii) : option N :=
  match hex_val a, hex_val b, hex_val c, hex_val d with
  | Some x, Some y, Some z, Some w => Some (((x * 16 + y) * 16 + z) * 16 + w)%N
  | _, _, _, _ => None
  end.

Definition unescape (e : ascii) : option ascii :=
  if Ascii.eqb e dquote then Some dquote
  else if Ascii.eqb e backslash then Some backslash
  else if Ascii.eqb e "/" then Some "/"%char
  else if Ascii.eqb e "b" then Some (ascii_of_N 8)
  else if Ascii.eqb e "f" then Some (ascii_of_N 12)
  else if Ascii.eqb e "n" then Some (ascii_of_N 10)
  else if Ascii.eqb e "r" then Some (ascii_of_N 13)
  else if Ascii.eqb e "t" then Some (ascii_of_N 9)
  else None.

Definition cons_char (c : ascii) (p : option (string * string))
  : option (string * string) :=
  match p with
  | Some (t, rest) => Some (String c t, rest)
  | None => None
  end.

(** The body of a string literal, after its opening quote.  An escape
    [\uXXXX] is decoded when it names a code point below 256.  Larger ones
    have no counterpart in [string] and are answered with [None], which is
    then not Python's answer: a text that holds one is recognised by
    [wide_escape] below, and [load_stocks] leaves it out of the embedding
    instead of reporting a failure. *)
Fixpoint scan_string (s : string) : option (string * string) :=
  match s with
  | EmptyString => None
  | String c r =>
      if Ascii.eqb c dquote then Some (EmptyString, r)
      else if Ascii.eqb c backslash then
        match r with
        | String e r1 =>
            if Ascii.eqb e "u" then
              match r1 with
              | String h1 (String h2 (String h3 (String h4 r2))) =>
                  match hex4 h1 h2 h3 h4 with
                  | Some n =>
                      if (n <? 256)%N
                      then cons_char (ascii_of_N n) (scan_string r2)
                      else None
                  | None => None
                  end
              | _ => None
              end
            else
              match unescape e with
              | Some c' => cons_char c' (scan_string r1)
              | None => None
              end
        | EmptyString => None
        end
      else if (code_of c <? 32)%N then None
      else cons_char c (scan_string r)
  end.

(** Whether a text holds, inside a string literal, an escape [\uXXXX]
    that names a code point of 256 or more.  [in_string] tells whether the
    text starts inside a literal. *)
Fixpoint wide_escape (in_string : bool) (s : string) : bool :=
  match s with
  | EmptyString => false
  | String c r =>
      if in_string then
        if Ascii.eqb c dquote then wide_escape false r
        else if Ascii.eqb c backslash then
          match r with
          | String e r1 =>
              if Ascii.eqb e "u" then
                match r1 with
                | String h1 (String h2 (String h3 (String h4 r2))) =>
                    match hex4 h1 h2 h3 h4 with
                    | Some n => if (n <? 256)%N then wide_escape true r2 else true
                    | None => false
                    end
                | _ => false
                end
              else wide_escape true r1
          | EmptyString => false
          end
        else wide_escape true r
      else if Ascii.eqb c dquote then wide_escape true r
      else wide_escape false r
  end.

Fixpoint span_digits (s : string) : string * string :=
  match s with
  | String c r =>
      if isdigit c then let (ds, rest) := span_digits r in (String c ds, rest)
      else (EmptyString, s)
  | EmptyString => (EmptyString, EmptyString)
  end.

(** [s] without its prefix [p], when it starts with [p]. *)
Fixpoint strip_prefix (p s : string) : option string :=
  match p with
  | EmptyString => Some s
  | String a p' =>
      match s with
      | String b s' => if Ascii.eqb a b then strip_prefix p' s' else None
      | EmptyString => None
      end
  end.

(** The integer part of a number: an optional minus, then a lone zero or
    a digit string that does not start with zero. *)
Definition scan_int (s : string) : option (string * string) :=
  let (sg, r0) := match strip_prefix "-" s with
                  | Some r => ("-", r)
                  | None => (EmptyString, s)
                  end in
  match r0 with
  | String d r1 =>
      if Ascii.eqb d "0" then Some (sg ++ "0", r1)
      else if isdigit d then
        let (ds, rest) := span_digits r0 in Some (sg ++ ds, rest)
      else None
  | EmptyString => None
  end.

(** The optional fraction: a point and at least one digit. *)
Definition scan_frac (s : string) : string * string :=
  match s with
  | String c r =>
      if Ascii.eqb c "." then
        match span_digits r with
        | (String d ds, rest) => (String c (String d ds), rest)
        | _ => (EmptyString, s)
        end
      else (EmptyString, s)
  | EmptyString => (EmptyString, s)
  end.

(** The optional exponent: [e] or [E], an optional sign, at least one
    digit. *)
Definition scan_exp (s : string) : string * string :=
  match s with
  | String c r =>
      if Ascii.eqb (lower_char c) "e" then
        let (sg, r1) :=
          match r with
          | String g r' =>
              if (Ascii.eqb g "-" || Ascii.eqb g "+")%bool
              then (String g EmptyString, r') else (EmptyString, r)
          | EmptyString => (EmptyString, r)
          end in
        match span_digits r1 with
        | (String d ds, rest) => (String c (sg ++ String d ds), rest)
        | _ => (EmptyString, s)
        end
      else (EmptyString, s)
  | EmptyString => (EmptyString, s)
  end.

Definition scan_number (s : string) : option (string * string) :=
  match scan_int s with
  | Some (ip, r1) =>
      let (fp, r2) := scan_frac r1 in
      let (ep, r3) := scan_exp r2 in
      Some (ip ++ fp ++ ep, r3)
  | None => None
  end.

(** The constants and numbers of the scanner, tried in its order. *)
Definition scan_atom (s : string) : option (json * string) :=
  match strip_prefix "null" s with
  | Some r => Some (JNull, r)
  | None =>
  match strip_prefix "true" s with
  | Some r => Some (JBool true, r)
  | None =>
  match strip_prefix "false" s with
  | Some r => Some (JBool false, r)
  | None =>
  match scan_number s with
  | Some (lit, r) => Some (JNumber lit, r)
  | None =>
  match strip_prefix "NaN" s with
  | Some r => Some (JNumber "NaN", r)
  | None =>
  match strip_prefix "Infinity" s with
  | Some r => Some (JNumber "Infinity", r)
  | None =>
  match strip_prefix "-Infinity" s with
  | Some r => Some (JNumber "-Infinity", r)
  | None => None
  end end end end end end end.

(** The recursive scanner.  [fuel] bounds the nesting plus the number of
    items in a row; [loads] supplies more than any text can use. *)
Fixpoint parse_value (fuel : nat) (s : string) {struct fuel}
  : option (json * string) :=
  match fuel with
  | O => None
  | S f =>
      match s with
      | EmptyString => None
      | String c r =>
          if Ascii.eqb c dquote then
            match scan_string r with
            | Some (t, r') => Some (JString t, r')
            | None => None
            end
          else if Ascii.eqb c "[" then
            match skip_ws r with
            | String c2 r2 =>
                if Ascii.eqb c2 "]" then Some (JArray [], r2)
                else parse_items f (String c2 r2) []
            | EmptyString => None
            end
          else if Ascii.eqb c "{" then
            match skip_ws r with
            | String c2 r2 =>
                if Ascii.eqb c2 "}" then Some (JObject [], r2)
                else parse_members f (String c2 r2) []
            | EmptyString => None
            end
          else scan_atom s
      end
  end
with parse_items (fuel : nat) (s : string) (acc : list json) {struct fuel}
  : option (json * string) :=
  match fuel with
  | O => None
  | S f =>
      match parse_value f s with
      | Some (v, r) =>
          match skip_ws r with
          | String c r' =>
              if Ascii.eqb c "," then parse_items f (skip_ws r') (v :: acc)
              else if Ascii.eqb c "]" then Some (JArray (rev (v :: acc)), r')
              else None
          | EmptyString => None
          end
      | None => None
      end
  end
with parse_members (fuel : nat) (s : string) (acc : list (string * json))
       {struct fuel} : option (json * string) :=
  match fuel with
  | O => None
  | S f =>
      match s with
      | String q r =>
          if Ascii.eqb q dquote then
            match scan_string r with
            | Some (k, r1) =>
                match skip_ws r1 with
                | String c r2 =>
                    if Ascii.eqb c ":" then
                      match parse_value f (skip_ws r2) with
                      | Some (v, r3) =>
                          match skip_ws r3 with
                          | String c' r4 =>
                              if Ascii.eqb c' ","
                              then parse_members f (skip_ws r4) ((k, v) :: acc)
                              else if Ascii.eqb c' "}"
                              then Some (JObject (rev ((k, v) :: acc)), r4)
                              else None
                          | EmptyString => None
                          end
                      | None => None
                      end
                    else None
                | EmptyString => None
                end
            | None => None
            end
          else None
      | EmptyString => None
      end
  end.

(** [json.loads(s)]; [None] is [JSONDecodeError], except that of a text
    with a [wide_escape] it says nothing (see [scan_string]). *)
Definition loads (s : string) : option json :=
  match parse_value (S (String.length s)) (skip_ws s) with
  | Some (v, r) =>
      match skip_ws r with
      | EmptyString => Some v
      | _ => None
      end
  | None => None
  end.

End Json.

(** ** The interval spinbox of Tk

    [update_refresh_interval] is the [command] of the [ttk.Spinbox] built in
    [init_ui], and nothing else calls it.  Tk runs the command of a spinbox
    from one place, the procedure [ttk::spinbox::Spin] of its script
    [ttk/spinbox.tcl], which handles the events [<<Increment>>] and
    [<<Decrement>>]: the arrows, the Up and Down keys and the mouse wheel.
    Typing in the box runs no command.  This module follows that script,
    for a spinbox without [-values], [-format] and [-wrap] and with the
    increment 1, as the program's is. *)

Module Tk.
Import PyStr PyNum Json.

Inductive direction : Type := Increment | Decrement.

(** [+1] and [-1], the [dir] that the bindings hand to [Spin]. *)
Definition dir_of (d : direction) : Z :=
  match d with Increment => 1 | Decrement => -1 end.

(** The white space that [scan] skips before a field. *)
Definition is_space (c : ascii) : bool :=
  let n := code_of c in
  ((9 <=? n) && (n <=? 13) || (n =? 32) || (n =? 133) || (n =? 160))%N.

(** Whether a text starts with [inf], in either case. *)
Definition starts_inf (s : string) : bool :=
  match s with
  | String a (String b (String c _)) =>
      Ascii.eqb (lower_char a) "i" && Ascii.eqb (lower_char b) "n"
      && Ascii.eqb (lower_char c) "f"
  | _ => false
  end.

(** The exponent at the head of [s]: [e] or [E], an optional sign and at
    least one digit.  [None] when [s] does not start with one. *)
Definition exponent_of (s : string) : option Z :=
  match s with
  | String c r =>
      if Ascii.eqb (lower_char c) "e" then
        let (neg, body) := take_sign r in
        match span_digits body with
        | (String d ds, _) =>
            let n := Z.of_N (N_of_digits (String d ds)) in
            Some (if neg then - n else n)
        | _ => None
        end
      else None
  | EmptyString => None
  end.

(** [scan text %f]: white space is skipped, then the longest decimal number
    at the head of the text is read -- a sign, digits with an optional
    point, an optional exponent, or [inf] -- and what follows it is ignored.
    [None] stands for the results that are no number (nothing read, or
    [nan]).  A literal without point and exponent is an integer, so that a
    zero of that form has no sign. *)
Definition scan_f (text : string) : option pyfloat :=
  let (neg, body) := take_sign (lstrip_by is_space text) in
  if starts_inf body then Some (FInf neg)
  else
    let (ip, r1) := span_digits body in
    let '(point, fp, r2) :=
      match r1 with
      | String c r =>
          if Ascii.eqb c "."
          then let (fp, r2) := span_digits r in (true, fp, r2)
          else (false, EmptyString, r1)
      | EmptyString => (false, EmptyString, r1)
      end in
    match (ip ++ fp)%string with
    | EmptyString => None
    | ds =>
        let m := N_of_digits ds in
        match exponent_of r2 with
        | Some ex =>
            Some (binary64_of_decimal neg m (ex - Z.of_nat (String.length fp)))
        | None =>
            if negb point && (m =? 0)%N then Some (FFin false 0 0)
            else Some (binary64_of_decimal neg m (- Z.of_nat (String.length fp)))
        end
    end.

(** An integer as a binary64. *)
Definition double_of_Z (k : Z) : pyfloat :=
  binary64_of_ratio (k <? 0) (Z.abs k) 1.

(** [expr {$x + $k}] for an integer [k] that binary64 holds: the exact sum,
    rounded; a sum that is zero is the positive zero. *)
Definition add_Z (x : pyfloat) (k : Z) : pyfloat :=
  match x with
  | FNan => FNan
  | FInf neg => FInf neg
  | FFin neg m e =>
      let s := if neg then - Z.of_N m else Z.of_N m in
      if 0 <=? e then
        let n := s * 2 ^ e + k in binary64_of_ratio (n <? 0) (Z.abs n) 1
      else
        let d := 2 ^ (- e) in
        let n := s + k * d in binary64_of_ratio (n <? 0) (Z.abs n) d
  end.

(** The order of a binary64 and an integer; a NaN has none. *)
Definition compare_Z (x : pyfloat) (k : Z) : option comparison :=
  match x with
  | FNan => None
  | FInf neg => Some (if neg then Lt else Gt)
  | FFin neg m e =>
      let s := if neg then - Z.of_N m else Z.of_N m in
      Some (if 0 <=? e then Z.compare (s * 2 ^ e) k
            else Z.compare s (k * 2 ^ (- e)))
  end.

(** [ttk::spinbox::Limit]: [v] limited to lie between [min] and [max]. *)
Definition Limit (v : pyfloat) (min max : Z) : pyfloat :=
  match compare_Z v min with
  | Some Lt => double_of_Z min
  | _ =>
      match compare_Z v max with
      | Some Gt => double_of_Z max
      | _ => v
      end
  end.

(** [ttk::spinbox::FormatValue] for the increment 1: [format %.0f], which
    rounds to the nearest integer, ties to even.  [None] is the error that
    [format] raises on a NaN. *)
Definition FormatValue (val : pyfloat) : option string :=
  match val with
  | FNan => None
  | FInf neg => Some ((if neg then "-" else "") ++ "inf")%string
  | FFin neg m e =>
      let n := if 0 <=? e then Z.of_N m * 2 ^ e
               else round_half_even (Z.of_N m) (2 ^ (- e)) in
      Some ((if neg then "-" else "") ++ dec_of_N (Z.to_N n))%string
  end.

(** [ttk::spinbox::Spin], up to the point where it runs the command: the
    text that it puts in the box, given the text that is there.  The number
    read from the box is stepped by one; when the box holds no number the
    value is [-from]; the result is limited to [-from] and [-to]. *)
Definition Spin (from to : Z) (dir : direction) (text : string)
  : option string :=
  let v := match scan_f text with
           | Some x => add_Z x (dir_of dir)
           | None => double_of_Z from
           end in
  FormatValue (Limit v from to).

End Tk.

(** ** The provider's answer and the quote record *)

Module Quote.
Import PyStr PyNum.

(** The dictionary [stock_info] built by [fetch_stock]. *)
Record stock_info : Type := mk_info {
  code : string;
  name : string;
  price : pyfloat;
  change : pyfloat;
  volume : Z;
  open : pyfloat;
  high : pyfloat;
  low : pyfloat;
  timestamp : string
}.

(** What [requests.get], [raise_for_status] and [response.json()] give.
    A decoded body is kept as the two keys the program reads: [data], a
    list of rows of text cells when present, and [name]. *)
Inductive response : Type :=
| Timeout
| ConnectionError
| Raised (msg : string)
| Body (data : option (list (list string))) (name : option string).

(** Exceptions raised while the record is built. *)
Inductive exn : Type :=
| IndexError
| FloatValueError (text : string)
| IntValueError (text : string).

Inductive result (A : Type) : Type :=
| Ok (a : A)
| Raise (e : exn).
Arguments Ok {A} a.
Arguments Raise {A} e.

Definition bind {A B : Type} (r : result A) (k : A -> result B) : result B :=
  match r with
  | Ok a => k a
  | Raise e => Raise e
  end.

Notation "x <- r ;; k" := (bind r (fun x => k))
  (at level 61, r at next level, right associativity).

(** [latest[i]] *)
Definition cell (latest : list string) (i : nat) : result string :=
  match nth_error latest i with
  | Some s => Ok s
  | None => Raise IndexError
  end.

(** [float(text)] *)
Definition to_float (text : string) : result pyfloat :=
  match py_float text with
  | Some x => Ok x
  | None => Raise (FloatValueError text)
  end.

(** [int(text)] *)
Definition to_int (text : string) : result Z :=
  match py_int text with
  | Some n => Ok n
  | None => Raise (IntValueError text)
  end.

(** The dictionary display of [fetch_stock], its values evaluated in the
    order they are written. *)
Definition build_info (code : string) (name : option string)
           (latest : list string) (now : string) : result stock_info :=
  let name := match name with Some n => n | None => code end in
  c6 <- cell latest 6 ;; price <- to_float c6 ;;
  c7 <- cell latest 7 ;; change <- to_float c7 ;;
  c1 <- cell latest 1 ;; volume <- to_int (remove_commas c1) ;;
  c3 <- cell latest 3 ;; open <- to_float c3 ;;
  c4 <- cell latest 4 ;; high <- to_float c4 ;;
  c5 <- cell latest 5 ;; low <- to_float c5 ;;
  Ok (mk_info code name price change volume open high low now).

(** The outcome of the [try] block of [fetch_stock], before any state is
    touched. *)
Inductive fetched : Type :=
| Quote (info : stock_info)
| NotFound
| TimedOut
| NoConnection
| Failed (msg : string)
| Malformed (e : exn).

Definition fetch_outcome (code : string) (r : response) (now : string)
  : fetched :=
  match r with
  | Timeout => TimedOut
  | ConnectionError => NoConnection
  | Raised msg => Failed msg
  | Body data name =>
      match data with
      | Some (row :: rows) =>
          match build_info code name (last rows row) now with
          | Ok info => Quote info
          | Raise e => Malformed e
          end
      | _ => NotFound
      end
  end.

Definition is_quote (f : fetched) : bool :=
  match f with Quote _ => true | _ => false end.

(** The row that [update_table] and [export_data] print. *)
Definition fields (code : string) (stock : stock_info) : list string :=
  [ code;
    Quote.name stock;
    format_f2 false (price stock);
    format_f2 true (change stock);
    format_f2 false (open stock);
    format_f2 false (high stock);
    format_f2 false (low stock);
    format_grouped (volume stock);
    timestamp stock ].

End Quote.

(** ** [self.stocks]: a dictionary in insertion order *)

Module Dict.

Section Dict.
Context {V : Type}.

Definition dict : Type := list (string * V).

Definition keys (d : dict) : list string := map fst d.

Fixpoint get (k : string) (d : dict) : option V :=
  match d with
  | [] => None
  | (k', v) :: rest => if String.eqb k k' then Some v else get k rest
  end.

(** [k in d] *)
Definition contains (k : string) (d : dict) : bool :=
  match get k d with Some _ => true | None => false end.

(** [d[k] = v]: replaces in place, or appends a new key. *)
Fixpoint set (k : string) (v : V) (d : dict) : dict :=
  match d with
  | [] => [(k, v)]
  | (k', v') :: rest =>
      if String.eqb k k' then (k', v) :: rest else (k', v') :: set k v rest
  end.

(** [del d[k]], guarded by [k in d] at the call site. *)
Fixpoint del (k : string) (d : dict) : dict :=
  match d with
  | [] => []
  | (k', v') :: rest =>
      if String.eqb k k' then rest else (k', v') :: del k rest
  end.

(** [dict(pairs)]: a repeated key keeps its first position and takes
    the last value. *)
Definition of_pairs (pairs : list (string * V)) : dict :=
  fold_left (fun d kv => set (fst kv) (snd kv) d) pairs [].

End Dict.
Arguments dict V : clear implicits.

End Dict.

(** ** [StockTrackerApp] *)

Module App.
Import PyStr PyNum Json Tk Quote.

(** What the user is shown: [messagebox] calls and [print]ed lines. *)
Inductive dialog : Type :=
| WarnNoCode
| WarnBadCode
| WarnDuplicate (code : string)
| WarnNoSelection
| WarnNothingToExport
| ErrorNotFound (code : string)
| ErrorTimeout (code : string)
| ErrorConnection
| ErrorMessage (msg : string)
| ErrorRaised (e : exn)
| ErrorExport
| InfoExported (file_path : string)
| PrintSaveFailed
| PrintLoadFailed.

Inductive tag : Type := Up | Down.

(** One line of the [Treeview]. *)
Record item : Type := mk_item {
  values : list string;
  tags : option tag
}.

Record app : Type := mk_app {
  stocks : Dict.dict stock_info;
  config_file : option string;     (* text of the config file, if it exists *)
  auto_refresh_active : bool;
  refresh_interval : Z;            (* milliseconds *)
  stock_input : string;            (* text of the code entry *)
  auto_refresh_var : bool;
  interval_var : string;           (* text of the interval spinbox *)
  tree : list item;
  threads : list string;           (* started [fetch_stock] threads, by code *)
  timers : list Z;                 (* armed [root.after] callbacks, by delay *)
  exported : list (string * string); (* files written by [export_data] *)
  dialogs : list dialog            (* oldest first *)
}.

Definition with_stocks (v : Dict.dict stock_info) (a : app) : app :=
  mk_app v (config_file a) (auto_refresh_active a) (refresh_interval a)
    (stock_input a) (auto_refresh_var a) (interval_var a) (tree a)
    (threads a) (timers a) (exported a) (dialogs a).

Definition with_config_file (v : option string) (a : app) : app :=
  mk_app (stocks a) v (auto_refresh_active a) (refresh_interval a)
    (stock_input a) (auto_refresh_var a) (interval_var a) (tree a)
    (threads a) (timers a) (exported a) (dialogs a).

Definition with_auto_refresh_active (v : bool) (a : app) : app :=
  mk_app (stocks a) (config_file a) v (refresh_interval a)
    (stock_input a) (auto_refresh_var a) (interval_var a) (tree a)
    (threads a) (timers a) (exported a) (dialogs a).

Definition with_refresh_interval (v : Z) (a : app) : app :=
  mk_app (stocks a) (config_file a) (auto_refresh_active a) v
    (stock_input a) (auto_refresh_var a) (interval_var a) (tree a)
    (threads a) (timers a) (exported a) (dialogs a).

Definition with_stock_input (v : string) (a : app) : app :=
  mk_app (stocks a) (config_file a) (auto_refresh_active a) (refresh_interval a)
    v (auto_refresh_var a) (interval_var a) (tree a)
    (threads a) (timers a) (exported a) (dialogs a).

Definition with_auto_refresh_var (v : bool) (a : app) : app :=
  mk_app (stocks a) (config_file a) (auto_refresh_active a) (refresh_interval a)
    (stock_input a) v (interval_var a) (tree a)
    (threads a) (timers a) (exported a) (dialogs a).

Definition with_interval_var (v : string) (a : app) : app :=
  mk_app (stocks a) (config_file a) (auto_refresh_active a) (refresh_interval a)
    (stock_input a) (auto_refresh_var a) v (tree a)
    (threads a) (timers a) (exported a) (dialogs a).

Definition with_tree (v : list item) (a : app) : app :=
  mk_app (stocks a) (config_file a) (auto_refresh_active a) (refresh_interval a)
    (stock_input a) (auto_refresh_var a) (interval_var a) v
    (threads a) (timers a) (exported a) (dialogs a).

Definition with_threads (v : list string) (a : app) : app :=
  mk_app (stocks a) (config_file a) (auto_refresh_active a) (refresh_interval a)
    (stock_input a) (auto_refresh_var a) (interval_var a) (tree a)
    v (timers a) (exported a) (dialogs a).

Definition with_timers (v : list Z) (a : app) : app :=
  mk_app (stocks a) (config_file a) (auto_refresh_active a) (refresh_interval a)
    (stock_input a) (auto_refresh_var a) (interval_var a) (tree a)
    (threads a) v (exported a) (dialogs a).

Definition with_exported (v : list (string * string)) (a : app) : app :=
  mk_app (stocks a) (config_file a) (auto_refresh_active a) (refresh_interval a)
    (stock_input a) (auto_refresh_var a) (interval_var a) (tree a)
    (threads a) (timers a) v (dialogs a).

Definition with_dialogs (v : list dialog) (a : app) : app :=
  mk_app (stocks a) (config_file a) (auto_refresh_active a) (refresh_interval a)
    (stock_input a) (auto_refresh_var a) (interval_var a) (tree a)
    (threads a) (timers a) (exported a) v.

(** [messagebox.show...(...)] and [print(...)] *)
Definition show (d : dialog) (a : app) : app :=
  with_dialogs (dialogs a ++ [d]) a.

(** [threading.Thread(target=self.fetch_stock, args=(code,)).start()] *)
Definition start_fetch (code : string) (a : app) : app :=
  with_threads (threads a ++ [code]) a.

(** [self.root.after(ms, self.schedule_refresh)] *)
Definition after (ms : Z) (a : app) : app :=
  with_timers (timers a ++ [ms]) a.

(** [save_stocks]; [writable] tells whether the file can be opened for
    writing. *)
Definition save_stocks (writable : bool) (a : app) : app :=
  if writable
  then with_config_file (Some (dumps_codes (Dict.keys (stocks a)))) a
  else show PrintSaveFailed a.

Definition item_of (entry : string * stock_info) : item :=
  let (code, stock) := entry in
  let change := Quote.change stock in
  mk_item (fields code stock)
    (if float_pos change then Some Up
     else if float_neg change then Some Down
     else None).

(** [update_table]: the tree is emptied and filled again from
    [self.stocks.items()].  The redraw is taken as a whole: that another
    thread redraws between two of its calls into Tk is not represented. *)
Definition update_table (a : app) : app :=
  with_tree (map item_of (stocks a)) a.

(** [fetch_stock(code)], run to completion against the provider's answer
    [r] at local time [now]. *)
Definition fetch_stock (code : string) (r : response) (now : string)
           (writable : bool) (a : app) : app :=
  match fetch_outcome code r now with
  | Quote stock_info =>
      save_stocks writable
        (update_table (with_stocks (Dict.set code stock_info (stocks a)) a))
  | NotFound => show (ErrorNotFound code) a
  | TimedOut => show (ErrorTimeout code) a
  | NoConnection => show ErrorConnection a
  | Failed msg => show (ErrorMessage msg) a
  | Malformed e => show (ErrorRaised e) a
  end.

(** [add_stock] *)
Definition add_stock (a : app) : app :=
  let code := upper (strip (stock_input a)) in
  if String.eqb code EmptyString then show WarnNoCode a
  else if negb (str_isdigit code) || negb (Nat.eqb (String.length code) 4)
  then show WarnBadCode a
  else if Dict.contains code (stocks a) then show (WarnDuplicate code) a
  else with_stock_input EmptyString (start_fetch code a).

(** [refresh_all_stocks] *)
Definition refresh_all_stocks (a : app) : app :=
  match stocks a with
  | [] => a
  | _ => fold_left (fun a' code => start_fetch code a') (Dict.keys (stocks a)) a
  end.

(** [schedule_refresh] *)
Definition schedule_refresh (a : app) : app :=
  if auto_refresh_var a
  then let a' := refresh_all_stocks a in after (refresh_interval a') a'
  else a.

(** [toggle_auto_refresh] *)
Definition toggle_auto_refresh (a : app) : app :=
  if auto_refresh_var a then schedule_refresh a
  else with_auto_refresh_active false a.

(** [update_refresh_interval] *)
Definition update_refresh_interval (a : app) : app :=
  match py_int (interval_var a) with
  | Some n =>
      let a' := with_refresh_interval (n * 1000) a in
      if auto_refresh_var a' then schedule_refresh a' else a'
  | None => a
  end.

(** [delete_selected]; [selected] lists the positions of the selected
    lines of the tree. *)
Definition delete_selected (selected : list nat) (writable : bool) (a : app)
  : app :=
  match selected with
  | [] => show WarnNoSelection a
  | _ =>
      let remove d i :=
        match nth_error (tree a) i with
        | Some it =>
            match values it with
            | code :: _ => if Dict.contains code d then Dict.del code d else d
            | [] => d
            end
        | None => d
        end in
      save_stocks writable
        (update_table (with_stocks (fold_left remove selected (stocks a)) a))
  end.

(** [clear_all]; [yes] is the answer to the confirmation dialog. *)
Definition clear_all (yes : bool) (writable : bool) (a : app) : app :=
  if yes then save_stocks writable (update_table (with_stocks [] a)) else a.

Definition csv_header : string :=
  "代碼,名稱,現價,漲跌,開盤,最高,最低,成交量,更新時間".

Definition newline : string := String (ascii_of_N 10) EmptyString.

(** The line written for one entry of [self.stocks.items()]. *)
Definition csv_line (entry : string * stock_info) : string :=
  join "," (fields (fst entry) (snd entry)) ++ newline.

(** The byte-order mark that the [utf-8-sig] codec puts first. *)
Definition bom : string :=
  String (ascii_of_N 239) (String (ascii_of_N 187) (String (ascii_of_N 191) EmptyString)).

Definition csv_text (d : Dict.dict stock_info) : string :=
  bom ++ csv_header ++ newline ++ concat EmptyString (map csv_line d).

(** [export_data]; [file_path] is what the save dialog returns (empty when
    it is dismissed) and [writable] tells whether writing succeeds. *)
Definition export_data (file_path : string) (writable : bool) (a : app) : app :=
  match stocks a with
  | [] => show WarnNothingToExport a
  | _ =>
      if String.eqb file_path EmptyString then a
      else if writable then
        show (InfoExported file_path)
          (with_exported (exported a ++ [(file_path, csv_text (stocks a))]) a)
      else show ErrorExport a
  end.

(** What [for code in codes] visits, for [codes] decoded from JSON. *)
Inductive iteration : Type :=
| Codes (codes : list string)
| NotIterable
| OtherItems.

Fixpoint texts (items : list json) : option (list string) :=
  match items with
  | [] => Some []
  | JString s :: rest =>
      match texts rest with
      | Some l => Some (s :: l)
      | None => None
      end
  | _ :: _ => None
  end.

Fixpoint chars (s : string) : list string :=
  match s with
  | EmptyString => []
  | String c r => String c EmptyString :: chars r
  end.

Definition iterate (codes : json) : iteration :=
  match codes with
  | JArray items =>
      match texts items with
      | Some l => Codes l
      | None => OtherItems
      end
  | JString s => Codes (chars s)
  | JObject members => Codes (Dict.keys (Dict.of_pairs members))
  | JNull | JBool _ | JNumber _ => NotIterable
  end.

(** [load_stocks].  Two kinds of file are left out of the embedding and
    answered with [None]: a persisted array with items that are not text,
    which makes [fetch_stock] run on other Python objects, and a text that
    [loads] does not decode and that holds an escape for a character that
    [string] cannot hold, since Python may well decode it. *)
Definition load_stocks (a : app) : option app :=
  match config_file a with
  | None => Some a
  | Some text =>
      match loads text with
      | None =>
          if wide_escape false text then None
          else Some (show PrintLoadFailed a)
      | Some codes =>
          match iterate codes with
          | Codes l => Some (fold_left (fun a' code => start_fetch code a') l a)
          | NotIterable => Some (show PrintLoadFailed a)
          | OtherItems => None
          end
      end
  end.

(** [__init__], given the config file found on disk. *)
Definition init (config : option string) : option app :=
  load_stocks
    (mk_app [] config false 30000 EmptyString false "30" [] [] [] [] []).

(** The bounds given to the interval spinbox in [init_ui], in seconds. *)
Definition spin_from : Z := 5.
Definition spin_to : Z := 300.

(** One step of the interval spinbox: [Spin] puts the stepped and limited
    value in the box, which is bound to [interval_var], and then runs the
    command, [update_refresh_interval].  When [Spin] fails nothing is
    written and no command runs. *)
Definition spin_interval (dir : direction) (a : app) : app :=
  match Spin spin_from spin_to dir (interval_var a) with
  | Some text => update_refresh_interval (with_interval_var text a)
  | None => a
  end.

Arguments spin_interval : simpl never.

(** Removes the [i]-th element of a list, if there is one. *)
Fixpoint take_nth {A : Type} (i : nat) (l : list A) : option (A * list A) :=
  match l, i with
  | [], _ => None
  | x :: rest, O => Some (x, rest)
  | x :: rest, S j =>
      match take_nth j rest with
      | Some (y, rest') => Some (y, x :: rest')
      | None => None
      end
  end.

(** What can happen to a running application. *)
Inductive event : Type :=
| TypeCode (text : string)
| PressAdd
| PressRefresh
| ClickAutoRefresh
| TypeInterval (text : string)     (* the spinbox text becomes [text] *)
| SpinInterval (dir : direction)  (* an arrow of the spinbox, Up or Down *)
| PressDelete (selected : list nat) (writable : bool)
| PressClear (yes : bool) (writable : bool)
| PressExport (file_path : string) (writable : bool)
| TimerFires (i : nat)
| ThreadRuns (i : nat) (r : response) (now : string) (writable : bool).

Definition step (ev : event) (a : app) : option app :=
  match ev with
  | TypeCode text => Some (with_stock_input text a)
  | PressAdd => Some (add_stock a)
  | PressRefresh => Some (refresh_all_stocks a)
  | ClickAutoRefresh =>
      Some (toggle_auto_refresh
              (with_auto_refresh_var (negb (auto_refresh_var a)) a))
  | TypeInterval text => Some (with_interval_var text a)
  | SpinInterval dir => Some (spin_interval dir a)
  | PressDelete selected writable => Some (delete_selected selected writable a)
  | PressClear yes writable => Some (clear_all yes writable a)
  | PressExport file_path writable => Some (export_data file_path writable a)
  | TimerFires i =>
      match take_nth i (timers a) with
      | Some (_, rest) => Some (schedule_refresh (with_timers rest a))
      | None => None
      end
  | ThreadRuns i r now writable =>
      match take_nth i (threads a) with
      | Some (code, rest) =>
          Some (fetch_stock code r now writable (with_threads rest a))
      | None => None
      end
  end.

Fixpoint run (evs : list event) (a : app) : option app :=
  match evs with
  | [] => Some a
  | ev :: rest =>
      match step ev a with
      | Some a' => run rest a'
      | None => None
      end
  end.

(** The states the application can be in: those reached from a start-up
    by some sequence of events. *)
Definition reachable (a : app) : Prop :=
  exists config a0 evs, init config = Some a0 /\ run evs a0 = Some a.

(** Every record in [self.stocks] is one that [fetch_stock] built for its
    key out of a provider row. *)
Definition holds_quotes (a : app) : Prop :=
  forall c info,
    In (c, info) (stocks a) ->
    exists name latest now, build_info c name latest now = Ok info.

(** The test that [add_stock] applies to a code: four digits. *)
Definition well_formed (code : string) : bool :=
  str_isdigit code && Nat.eqb (String.length code) 4.

Definition is_thread_run (ev : event) : bool :=
  match ev with ThreadRuns _ _ _ _ => true | _ => false end.

(** The [fetch_stock] threads of the codes in [order], each run to
    completion in that order; [r], [now] and [writable] give, per code,
    the provider's answer, the local time and the state of the disk. *)
Definition complete_all (r : string -> response) (now : string -> string)
           (writable : string -> bool) (order : list string) (a : app) : app :=
  fold_left
    (fun a' code => fetch_stock code (r code) (now code) (writable code) a')
    order a.

End App.

(** ** Shapes of printed numbers *)

Module Shape.
Import PyStr.

(** Digits, a point and exactly two digits. *)
Fixpoint fixed2_body (seen_digit : bool) (s : string) : bool :=
  match s with
  | EmptyString => false
  | String c r =>
      if isdigit c then fixed2_body true r
      else if Ascii.eqb c "." then
        seen_digit &&
        match r with
        | String d1 (String d2 EmptyString) => isdigit d1 && isdigit d2
        | _ => false
        end
      else false
  end.

(** A number with exactly two decimals, with a minus when negative. *)
Definition is_fixed2 (s : string) : bool :=
  match s with
  | String c r => if Ascii.eqb c "-" then fixed2_body false r
                  else fixed2_body false s
  | EmptyString => false
  end.

(** A number with exactly two decimals behind an explicit sign. *)
Definition is_signed_fixed2 (s : string) : bool :=
  match s with
  | String c r => (Ascii.eqb c "-" || Ascii.eqb c "+") && fixed2_body false r
  | EmptyString => false
  end.

(** Counted from the right, every fourth character is a comma and all
    others are digits. *)
Fixpoint grouped_body (s : string) : bool :=
  match s with
  | EmptyString => true
  | String c r =>
      (if Nat.eqb (Nat.modulo (String.length r) 4) 3
       then Ascii.eqb c "," else isdigit c)
      && grouped_body r
  end.

(** An integer in groups of three digits, with a minus when negative. *)
Definition is_grouped (s : string) : bool :=
  let body := match s with
              | String c r => if Ascii.eqb c "-" then r else s
              | EmptyString => s
              end in
  match body with
  | String c _ => isdigit c && grouped_body body
  | EmptyString => false
  end.

End Shape.

(** ** Sample data *)

Module Sample.
Import PyNum Json Tk Quote App.

(** A day's row as the exchange lists it: date, volume, turnover, open,
    high, low, close, change, transactions. *)
Definition row_2330 : list string :=
  ["115/11/04"; "12,345,678"; "7,160,493,240"; "575.00"; "582.00";
   "574.00"; "580.00"; "+5.50"; "9,999"].

Definition row_0050 : list string :=
  ["115/11/04"; "8,000"; "1,440,000"; "180.00"; "181.50";
   "179.00"; "180.00"; "0.00"; "321"].

(** The same day for a share that closes above one thousand. *)
Definition row_3008 : list string :=
  ["115/11/04"; "512,000"; "1,100,000,000"; "2,150.00"; "2,165.00";
   "2,140.00"; "2,155.00"; "+5.00"; "1,234"].

(** A row whose close cell is text that [float] reads as infinity. *)
Definition row_inf : list string :=
  ["115/11/04"; "1,000"; "1,000"; "1.00"; "1.00"; "1.00"; "inf"; "0.00"; "1"].

Definition at_10 : string := "2026-11-04 10:00:00".
Definition at_11 : string := "2026-11-04 11:00:00".

(** The record built from a row; the empty record stands for a row that
    does not parse. *)
Definition built (r : result stock_info) : stock_info :=
  match r with
  | Ok info => info
  | Raise _ => mk_info EmptyString EmptyString FNan FNan 0 FNan FNan FNan EmptyString
  end.

Definition info_2330 : stock_info :=
  Eval vm_compute in built (build_info "2330" None row_2330 at_10).

Definition info_0050 : stock_info :=
  Eval vm_compute in built (build_info "0050" None row_0050 at_10).

(** An application that tracks two codes. *)
Definition two_tracked : app :=
  mk_app [("2330", info_2330); ("0050", info_0050)]
    (Some (dumps_codes ["2330"; "0050"])) false 30000
    EmptyString false "30"
    [item_of ("2330", info_2330); item_of ("0050", info_0050)] [] [] [] [].

(** A fresh application on which auto-refresh has just been switched on:
    one timer is armed, at the initial interval. *)
Definition auto_on : app :=
  mk_app [] None false 30000 EmptyString true "30" [] [] [30000] [] [].

(** The events that lead a fresh application to track 2330, and the state
    they lead to. *)
Definition first_fetch : list event :=
  [TypeCode "2330"; PressAdd;
   ThreadRuns 0 (Body (Some [row_2330]) None) at_10 true].

Definition one_tracked : app :=
  mk_app [("2330", info_2330)] (Some (dumps_codes ["2330"])) false 30000
    EmptyString false "30" [item_of ("2330", info_2330)] [] [] [] [].

(** A config file edited by hand: three items, spread over two lines. *)
Definition edited_config : string :=
  ("[ " ++ Json.encode_string " 12ab" ++ " ," ++ App.newline
     ++ Json.encode_string "2330" ++ ", " ++ Json.encode_string "2330" ++ " ]")%string.

(** The provider answers for 2330 and times out for everything else. *)
Definition answers (code : string) : response :=
  if String.eqb code "2330" then Body (Some [row_2330]) None else Timeout.

End Sample.

(** ** Vocabulary for the properties of whole runs *)

Module Observe.
Import PyStr PyNum Json Tk Quote App.

(** Whether the file writes that an event attempts succeed. *)
Definition writes_succeed (ev : event) : bool :=
  match ev with
  | PressDelete _ writable => writable
  | PressClear _ writable => writable
  | PressExport _ writable => writable
  | ThreadRuns _ _ _ writable => writable
  | _ => true
  end.

Definition is_click (ev : event) : bool :=
  match ev with ClickAutoRefresh => true | _ => false end.

(** [c in l] *)
Definition mem (c : string) (l : list string) : bool :=
  existsb (String.eqb c) l.

(** The codes found at the positions [selected] of a list of codes;
    positions past the end give none. *)
Definition codes_at (codes : list string) (selected : list nat) : list string :=
  flat_map (fun i => match nth_error codes i with
                     | Some c => [c]
                     | None => []
                     end) selected.

(** [s.count(',')] *)
Fixpoint count_commas (s : string) : nat :=
  match s with
  | EmptyString => O
  | String c r => if Ascii.eqb c "," then S (count_commas r) else count_commas r
  end.

(** The number of decimal digits of the absolute value of an integer. *)
Definition digits_of (v : Z) : nat := String.length (dec_of_N (Z.abs_N v)).

(** Whether the text that an event types into the code entry is ASCII. *)
Definition typed_ascii (ev : event) : bool :=
  match ev with TypeCode text => is_ascii text | _ => true end.

(** [str(k)] *)
Definition int_text (k : Z) : string :=
  ((if Z.ltb k 0 then "-" else "") ++ dec_of_N (Z.abs_N k))%string.

(** [k] limited to the bounds of the interval spinbox. *)
Definition clamp (k : Z) : Z := Z.max spin_from (Z.min spin_to k).

(** The integers from [lo] on, [n] of them. *)
Definition Z_range (lo n : Z) : list Z :=
  map (fun i => lo + Z.of_nat i) (seq 0 (Z.to_nat n)).

(** Whether one step of the spinbox in direction [dir], from the text of
    the integer [k], gives the text of [k] stepped and limited. *)
Definition spin_clamps (dir : direction) (k : Z) : bool :=
  match Spin spin_from spin_to dir (int_text k) with
  | Some text => String.eqb text (int_text (clamp (k + dir_of dir)))
  | None => false
  end.

End Observe.

Import PyStr PyNum Json Tk Quote App Shape Observe.

(** * Properties *)

Local Open Scope list_scope.

(** ** The dictionary *)

Section DictFacts.
Context {V : Type}.
Implicit Types (d : Dict.dict V) (k : string) (v : V).

Lemma get_set_same d k v : Dict.get k (Dict.set k v d) = Some v.
Proof.
  induction d as [|[k' v'] d IH]; simpl.
  - now rewrite String.eqb_refl.
  - destruct (String.eqb k k') eqn:E; simpl; rewrite E; auto.
Qed.

Lemma get_set_other d k k' v :
  k <> k' -> Dict.get k' (Dict.set k v d) = Dict.get k' d.
Proof.
  intros Hne. induction d as [|[k0 v0] d IH]; simpl.
  - destruct (String.eqb k' k) eqn:E; auto.
    apply String.eqb_eq in E. congruence.
  - destruct (String.eqb k k0) eqn:E; simpl.
    + apply String.eqb_eq in E. subst k0.
      destruct (String.eqb k' k) eqn:E'; auto.
      apply String.eqb_eq in E'. congruence.
    + now rewrite IH.
Qed.

Lemma contains_in_keys d k :
  Dict.contains k d = true <-> In k (Dict.keys d).
Proof.
  unfold Dict.contains. induction d as [|[k' v'] d IH]; simpl.
  - split; [discriminate | tauto].
  - destruct (String.eqb k k') eqn:E.
    + apply String.eqb_eq in E. subst. split; auto.
    + apply String.eqb_neq in E. rewrite IH. split; auto.
      intros [H|H]; [congruence | exact H].
Qed.

Lemma keys_set_present d k v :
  In k (Dict.keys d) -> Dict.keys (Dict.set k v d) = Dict.keys d.
Proof.
  induction d as [|[k' v'] d IH]; simpl; [tauto|].
  intros Hin. destruct (String.eqb k k') eqn:E; simpl; auto.
  apply String.eqb_neq in E. f_equal. apply IH.
  destruct Hin; [congruence | assumption].
Qed.

Lemma keys_set_absent d k v :
  ~ In k (Dict.keys d) -> Dict.keys (Dict.set k v d) = Dict.keys d ++ [k].
Proof.
  induction d as [|[k' v'] d IH]; simpl; auto.
  intros Hn. destruct (String.eqb k k') eqn:E; simpl.
  - apply String.eqb_eq in E. subst. tauto.
  - f_equal. apply IH. tauto.
Qed.

Lemma in_set d k v (e : string * V) :
  In e (Dict.set k v d) -> snd e = v /\ fst e = k \/ In e d.
Proof.
  induction d as [|[k' v'] d IH]; simpl.
  - intros [<-|[]]. auto.
  - destruct (String.eqb k k') eqn:E; simpl.
    + apply String.eqb_eq in E. subst k'.
      intros [<-|H]; auto.
    + intros [<-|H]; auto. destruct (IH H); auto.
Qed.

Lemma in_del d k (e : string * V) : In e (Dict.del k d) -> In e d.
Proof.
  induction d as [|[k' v'] d IH]; simpl; auto.
  destruct (String.eqb k k'); simpl; auto.
  intros [<-|H]; auto.
Qed.

Lemma length_keys d : List.length (Dict.keys d) = List.length d.
Proof. apply length_map. Qed.

End DictFacts.

(** ** Which operations touch [self.stocks] *)

Lemma start_all_threads (l : list string) (a : app) :
  let a' := fold_left (fun a0 code => start_fetch code a0) l a in
  threads a' = threads a ++ l /\ stocks a' = stocks a
  /\ config_file a' = config_file a /\ dialogs a' = dialogs a
  /\ timers a' = timers a /\ refresh_interval a' = refresh_interval a
  /\ auto_refresh_var a' = auto_refresh_var a.
Proof.
  revert a. induction l as [|c l IH]; intros a; simpl.
  - rewrite app_nil_r. tauto.
  - destruct (IH (start_fetch c a)) as (Ht & Hs & Hc & Hd & Hm & Hr & Hv).
    simpl in *. rewrite Ht, <- app_assoc. simpl. tauto.
Qed.

Lemma refresh_all_stocks_spec (a : app) :
  let a' := refresh_all_stocks a in
  threads a' = threads a ++ Dict.keys (stocks a) /\ stocks a' = stocks a
  /\ config_file a' = config_file a /\ dialogs a' = dialogs a
  /\ timers a' = timers a /\ refresh_interval a' = refresh_interval a
  /\ auto_refresh_var a' = auto_refresh_var a.
Proof.
  unfold refresh_all_stocks. destruct (stocks a) as [|e d] eqn:E.
  - simpl. rewrite app_nil_r. tauto.
  - rewrite <- E.
    destruct (start_all_threads (Dict.keys (stocks a)) a) as (H1 & H2 & H3).
    rewrite H2 in *. tauto.
Qed.

Lemma schedule_refresh_stocks (a : app) :
  stocks (schedule_refresh a) = stocks a.
Proof.
  unfold schedule_refresh. destruct (auto_refresh_var a); auto.
  simpl. apply refresh_all_stocks_spec.
Qed.

Lemma fetch_stock_failure (code : string) (r : response) (now : string)
      (writable : bool) (a : app) :
  is_quote (fetch_outcome code r now) = false ->
  exists d, fetch_stock code r now writable a = show d a.
Proof.
  unfold fetch_stock. destruct (fetch_outcome code r now); simpl;
    try discriminate; eauto.
Qed.

Lemma fetch_stock_success (code : string) (r : response) (now : string)
      (writable : bool) (a : app) (info : stock_info) :
  fetch_outcome code r now = Quote info ->
  stocks (fetch_stock code r now writable a) = Dict.set code info (stocks a).
Proof.
  unfold fetch_stock. intros ->. destruct writable; reflexivity.
Qed.

(** ** Failed fetches and batch refresh *)

Lemma filter_split_length {A : Type} (f : A -> bool) (l : list A) :
  (List.length (filter f l) + List.length (filter (fun x => negb (f x)) l)
   = List.length l)%nat.
Proof.
  induction l as [|x l IH]; simpl; auto.
  destruct (f x); simpl; lia.
Qed.

Lemma fetch_stock_keys (code : string) (r : response) (now : string)
      (writable : bool) (a : app) :
  In code (Dict.keys (stocks a)) ->
  Dict.keys (stocks (fetch_stock code r now writable a)) = Dict.keys (stocks a).
Proof.
  intros Hin. destruct (fetch_outcome code r now) as [info| | | | |] eqn:E.
  - rewrite (fetch_stock_success _ _ _ _ _ _ E). now apply keys_set_present.
  - destruct (fetch_stock_failure code r now writable a) as [d ->];
      [now rewrite E | reflexivity].
  - destruct (fetch_stock_failure code r now writable a) as [d ->];
      [now rewrite E | reflexivity].
  - destruct (fetch_stock_failure code r now writable a) as [d ->];
      [now rewrite E | reflexivity].
  - destruct (fetch_stock_failure code r now writable a) as [d ->];
      [now rewrite E | reflexivity].
  - destruct (fetch_stock_failure code r now writable a) as [d ->];
      [now rewrite E | reflexivity].
Qed.

Lemma fetch_stock_get_other (code c : string) (r : response) (now : string)
      (writable : bool) (a : app) :
  code <> c ->
  Dict.get c (stocks (fetch_stock code r now writable a)) = Dict.get c (stocks a).
Proof.
  intros Hne. destruct (fetch_outcome code r now) as [info| | | | |] eqn:E.
  - rewrite (fetch_stock_success _ _ _ _ _ _ E). now apply get_set_other.
  - destruct (fetch_stock_failure code r now writable a) as [d ->];
      [now rewrite E | reflexivity].
  - destruct (fetch_stock_failure code r now writable a) as [d ->];
      [now rewrite E | reflexivity].
  - destruct (fetch_stock_failure code r now writable a) as [d ->];
      [now rewrite E | reflexivity].
  - destruct (fetch_stock_failure code r now writable a) as [d ->];
      [now rewrite E | reflexivity].
  - destruct (fetch_stock_failure code r now writable a) as [d ->];
      [now rewrite E | reflexivity].
Qed.

(** Completing fetches for tracked codes, in any order: the key list stays,
    a code whose fetch gave a quote holds that quote, every other code holds
    what it held. *)
Lemma complete_all_spec (r : string -> response) (now : string -> string)
      (w : string -> bool) (order : list string) :
  forall a : app,
    (forall c, In c order -> In c (Dict.keys (stocks a))) ->
    let a' := complete_all r now w order a in
    Dict.keys (stocks a') = Dict.keys (stocks a)
    /\ forall c,
        (In c order ->
         forall info, fetch_outcome c (r c) (now c) = Quote info ->
                      Dict.get c (stocks a') = Some info)
        /\ (~ In c order \/ is_quote (fetch_outcome c (r c) (now c)) = false ->
            Dict.get c (stocks a') = Dict.get c (stocks a)).
Proof.
  induction order as [|c0 rest IH]; intros a Hsub; simpl.
  - split; [reflexivity|]. intros c. split; [tauto | reflexivity].
  - set (a1 := fetch_stock c0 (r c0) (now c0) (w c0) a).
    assert (Hk : Dict.keys (stocks a1) = Dict.keys (stocks a))
      by (apply fetch_stock_keys, Hsub; simpl; auto).
    destruct (IH a1) as [IHk IHg].
    { intros c Hc. rewrite Hk. apply Hsub. simpl; auto. }
    unfold complete_all in *. split; [congruence|].
    intros c. destruct (IHg c) as [IHq IHf]. split.
    + intros Hin info Hq.
      destruct (in_dec string_dec c rest) as [Hr|Hr]; [now apply IHq|].
      destruct Hin as [->|Hin]; [|contradiction].
      rewrite IHf by auto. unfold a1.
      rewrite (fetch_stock_success _ _ _ _ _ _ Hq). apply get_set_same.
    + intros Hcase.
      assert (Hrest : ~ In c rest
                      \/ is_quote (fetch_outcome c (r c) (now c)) = false)
        by (destruct Hcase; [left; intros H'; apply H; right; exact H' | auto]).
      rewrite (IHf Hrest). unfold a1.
      destruct (string_dec c0 c) as [->|Hne].
      * destruct Hcase as [Hn|Hfail]; [exfalso; apply Hn; left; reflexivity|].
        destruct (fetch_stock_failure c (r c) (now c) (w c) a Hfail) as [d ->].
        reflexivity.
      * now apply fetch_stock_get_other.
Qed.

(** Running the started threads one by one, in any order, is what
    [complete_all] computes. *)
Lemma take_nth_middle {A : Type} (l1 l2 : list A) (x : A) :
  take_nth (List.length l1) (l1 ++ x :: l2) = Some (x, l1 ++ l2).
Proof. induction l1 as [|y l1 IH]; simpl; [reflexivity | now rewrite IH]. Qed.

Lemma take_nth_of_permutation {A : Type} (x : A) (o l : list A) :
  Permutation (x :: o) l ->
  exists i rest, take_nth i l = Some (x, rest) /\ Permutation o rest.
Proof.
  intros Hp.
  assert (Hin : In x l) by (eapply Permutation_in; [exact Hp | now left]).
  apply in_split in Hin. destruct Hin as (l1 & l2 & ->).
  exists (List.length l1), (l1 ++ l2). split; [apply take_nth_middle|].
  eapply Permutation_cons_app_inv. exact Hp.
Qed.

Lemma fetch_stock_with_threads (code : string) (r : response) (now : string)
      (w : bool) (t : list string) (a : app) :
  fetch_stock code r now w (with_threads t a)
  = with_threads t (fetch_stock code r now w a).
Proof.
  unfold fetch_stock. destruct (fetch_outcome code r now); try reflexivity.
  now destruct w.
Qed.

Lemma complete_all_with_threads (r : string -> response) (now : string -> string)
      (w : string -> bool) (order t : list string) :
  forall a,
    complete_all r now w order (with_threads t a)
    = with_threads t (complete_all r now w order a).
Proof.
  induction order as [|c o IH]; intros a; [reflexivity|].
  unfold complete_all in *. simpl. now rewrite fetch_stock_with_threads, IH.
Qed.

Lemma complete_all_is_a_run (r : string -> response) (now : string -> string)
      (w : string -> bool) (order : list string) :
  forall a,
    Permutation order (threads a) ->
    exists evs,
      forallb is_thread_run evs = true
      /\ List.length evs = List.length order
      /\ run evs a = Some (with_threads [] (complete_all r now w order a)).
Proof.
  induction order as [|c o IH]; intros a Hp.
  - apply Permutation_nil in Hp. exists []. repeat split.
    destruct a; simpl in *. now subst.
  - destruct (take_nth_of_permutation c o (threads a) Hp)
      as (i & rest & Htake & Hrest).
    set (a1 := fetch_stock c (r c) (now c) (w c) (with_threads rest a)).
    assert (Ha1 : a1 = with_threads rest (fetch_stock c (r c) (now c) (w c) a))
      by apply fetch_stock_with_threads.
    destruct (IH a1) as (evs & Hall & Hlen & Hrun).
    { rewrite Ha1. exact Hrest. }
    exists (ThreadRuns i (r c) (now c) (w c) :: evs). split; [|split].
    + simpl. exact Hall.
    + simpl. now rewrite Hlen.
    + cbn [run step]. rewrite Htake. fold a1. rewrite Hrun.
      rewrite Ha1, complete_all_with_threads. reflexivity.
Qed.

(** C1. A fetch that fails -- the provider has no data, the request times
    out, the connection fails, or anything else is raised -- leaves
    [self.stocks] as it was: a record already there is kept, a code not
    there gets none.  [refresh_all_stocks] starts one fetch per tracked code
    and changes no entry itself; these threads can run to completion in any
    order.  When they have, and [M] of the [N] have failed, the [N - M]
    others hold their fetched record, the [M] failed ones hold what they
    held, and the keys (hence their number) are the same. *)
Theorem C1_failed_fetch_keeps_stocks (a : app) :
  (forall code r now writable,
      is_quote (fetch_outcome code r now) = false ->
      stocks (fetch_stock code r now writable a) = stocks a)
  /\ (threads (refresh_all_stocks a) = threads a ++ Dict.keys (stocks a)
      /\ stocks (refresh_all_stocks a) = stocks a)
  /\ (forall r now writable order,
         threads a = [] ->
         Permutation order (Dict.keys (stocks a)) ->
         exists evs,
           forallb is_thread_run evs = true
           /\ List.length evs = List.length (stocks a)
           /\ run evs (refresh_all_stocks a)
              = Some (with_threads []
                        (complete_all r now writable order
                           (refresh_all_stocks a))))
  /\ (forall r now writable order,
         Permutation order (Dict.keys (stocks a)) ->
         let a' := complete_all r now writable order (refresh_all_stocks a) in
         let ok c := is_quote (fetch_outcome c (r c) (now c)) in
         let updated := filter ok (Dict.keys (stocks a)) in
         let failed := filter (fun c => negb (ok c)) (Dict.keys (stocks a)) in
         Dict.keys (stocks a') = Dict.keys (stocks a)
         /\ List.length (stocks a') = List.length (stocks a)
         /\ (List.length updated
             = List.length (stocks a) - List.length failed)%nat
         /\ (forall c info,
                In c updated ->
                fetch_outcome c (r c) (now c) = Quote info ->
                Dict.get c (stocks a') = Some info)
         /\ (forall c, In c failed ->
                       Dict.get c (stocks a') = Dict.get c (stocks a))).
Proof.
  split; [|split; [|split]].
  - intros code r now writable Hfail.
    destruct (fetch_stock_failure code r now writable a Hfail) as [d ->].
    reflexivity.
  - split; apply refresh_all_stocks_spec.
  - intros r now writable order Hnone Hperm.
    destruct (refresh_all_stocks_spec a) as (Ht & _).
    rewrite Hnone in Ht. simpl in Ht.
    destruct (complete_all_is_a_run r now writable order (refresh_all_stocks a))
      as (evs & Hall & Hlen & Hrun); [now rewrite Ht|].
    exists evs. repeat split; auto.
    rewrite Hlen, <- length_keys. now apply Permutation_length.
  - intros r now writable order Hperm a' ok updated failed.
    destruct (refresh_all_stocks_spec a) as (_ & Hst & _).
    destruct (complete_all_spec r now writable order (refresh_all_stocks a))
      as [Hk Hg].
    { intros c Hc. rewrite Hst. eapply Permutation_in; eauto. }
    fold a' in Hk, Hg. rewrite Hst in Hk, Hg.
    split; [exact Hk|].
    split; [rewrite <- !length_keys; now rewrite Hk|].
    split.
    { rewrite <- length_keys.
      pose proof (filter_split_length ok (Dict.keys (stocks a))) as Hl.
      fold updated failed in Hl. lia. }
    split.
    + intros c info Hc Hq. apply filter_In in Hc. destruct Hc as [Hin _].
      destruct (Hg c) as [Hgq _]. apply Hgq; auto.
      apply Permutation_sym in Hperm. eapply Permutation_in; eauto.
    + intros c Hc. apply filter_In in Hc. destruct Hc as [_ Hko].
      destruct (Hg c) as [_ Hf]. apply Hf. right.
      unfold ok in Hko. now destruct (is_quote _).
Qed.

Lemma C1_failed_fetch_keeps_stocks_witness :
  (is_quote (fetch_outcome "2454" Timeout Sample.at_11) = false
   /\ stocks (fetch_stock "2454" Timeout Sample.at_11 true Sample.two_tracked)
      = stocks Sample.two_tracked)
  /\ (Permutation ["0050"; "2330"]%string (Dict.keys (stocks Sample.two_tracked))
      /\ Dict.get "0050"
           (stocks (complete_all Sample.answers (fun _ => Sample.at_11)
                      (fun _ => true) ["0050"; "2330"]%string
                      (refresh_all_stocks Sample.two_tracked)))
         = Some Sample.info_0050
      /\ option_map timestamp
           (Dict.get "2330"
              (stocks (complete_all Sample.answers (fun _ => Sample.at_11)
                         (fun _ => true) ["0050"; "2330"]%string
                         (refresh_all_stocks Sample.two_tracked))))
         = Some Sample.at_11).
Proof.
  destruct (C1_failed_fetch_keeps_stocks Sample.two_tracked)
    as (H1 & _ & _ & H3).
  assert (Hperm : Permutation ["0050"; "2330"]%string
                    (Dict.keys (stocks Sample.two_tracked)))
    by apply perm_swap.
  destruct (H3 Sample.answers (fun _ => Sample.at_11) (fun _ => true)
               ["0050"; "2330"]%string Hperm) as (_ & _ & _ & Hu & Hf).
  split; [split; [reflexivity | apply H1; reflexivity]|].
  split; [exact Hperm|]. split.
  - apply (Hf "0050"%string). simpl. auto.
  - rewrite (Hu "2330"%string
               (Sample.built (build_info "2330" None Sample.row_2330 Sample.at_11))).
    + reflexivity.
    + simpl. auto.
    + reflexivity.
Defined.

(** ** Commas in numeric text *)

Ltac by_cases_on_char c :=
  destruct c as [[|] [|] [|] [|] [|] [|] [|] [|]]; try reflexivity; try discriminate.

Lemma space_not_comma (c : ascii) :
  isspace_num c = true -> Ascii.eqb c "," = false.
Proof. by_cases_on_char c. Qed.

Lemma digit_not_comma (c : ascii) :
  isdigit c = true -> Ascii.eqb c "," = false.
Proof. by_cases_on_char c. Qed.

Lemma lower_char_comma (c : ascii) :
  Ascii.eqb (lower_char c) "," = Ascii.eqb c ",".
Proof. by_cases_on_char c. Qed.

Lemma letter_e_not_comma (c : ascii) :
  Ascii.eqb (lower_char c) "e" = true -> Ascii.eqb c "," = false.
Proof. by_cases_on_char c. Qed.

Lemma has_comma_lstrip (s : string) :
  has_comma (lstrip_by isspace_num s) = has_comma s.
Proof.
  induction s as [|c r IH]; simpl; auto.
  destruct (isspace_num c) eqn:E; auto.
  unfold has_comma in *. simpl. now rewrite (space_not_comma c E).
Qed.

Lemma has_comma_rstrip (s : string) :
  has_comma (rstrip_by isspace_num s) = has_comma s.
Proof.
  unfold has_comma. induction s as [|c r IH]; simpl; auto.
  destruct (rstrip_by isspace_num r) as [|c' r'] eqn:E.
  - simpl in IH. rewrite <- IH.
    destruct (isspace_num c) eqn:Ec; simpl.
    + now rewrite (space_not_comma c Ec).
    + now rewrite orb_false_r.
  - simpl. simpl in IH. now rewrite <- IH.
Qed.

Lemma has_comma_take_sign (s : string) :
  has_comma (snd (take_sign s)) = has_comma s.
Proof.
  destruct s as [|c r]; auto. unfold take_sign.
  destruct (Ascii.eqb c "-") eqn:E1.
  { apply Ascii.eqb_eq in E1. subst. reflexivity. }
  destruct (Ascii.eqb c "+") eqn:E2.
  { apply Ascii.eqb_eq in E2. subst. reflexivity. }
  reflexivity.
Qed.

Lemma has_comma_lower (s : string) : has_comma (lower s) = has_comma s.
Proof.
  unfold has_comma, lower. induction s as [|c r IH]; simpl; auto.
  now rewrite lower_char_comma, IH.
Qed.

(** [scan_digits] reads digits and underscores only. *)
Lemma has_comma_scan_digits (n : nat) :
  forall s, (String.length s <= n)%nat ->
            has_comma (snd (scan_digits s)) = has_comma s.
Proof.
  induction n as [|n IH]; intros s Hlen.
  - destruct s; [reflexivity | simpl in Hlen; lia].
  - destruct s as [|c r]; [reflexivity|]. simpl in Hlen.
    cbn [scan_digits]. destruct (isdigit c) eqn:Ec; [|reflexivity].
    assert (Hc : has_comma (String c r) = has_comma r)
      by (unfold has_comma; simpl; now rewrite (digit_not_comma c Ec)).
    rewrite Hc. destruct r as [|u r2]; [reflexivity|].
    destruct (Ascii.eqb u "_") eqn:Eu.
    + apply Ascii.eqb_eq in Eu. subst u.
      destruct r2 as [|d r3]; [reflexivity|].
      destruct (isdigit d) eqn:Ed; [|reflexivity].
      specialize (IH (String d r3)).
      destruct (scan_digits (String d r3)) as [ds rest]. simpl.
      simpl in IH. rewrite IH by (simpl in Hlen; lia). reflexivity.
    + specialize (IH (String u r2)).
      destruct (scan_digits (String u r2)) as [ds rest]. simpl.
      simpl in IH. apply IH. simpl in Hlen. lia.
Qed.

Lemma scan_digits_comma (s ds rest : string) :
  scan_digits s = (ds, rest) -> has_comma rest = has_comma s.
Proof.
  intros H. rewrite <- (has_comma_scan_digits (String.length s) s (le_n _)).
  now rewrite H.
Qed.

Lemma scan_exponent_comma (s : string) :
  has_comma s = true -> scan_exponent s = None.
Proof.
  destruct s as [|c r]; [discriminate|]. intros Hc. unfold scan_exponent.
  destruct (Ascii.eqb (lower_char c) "e") eqn:Ee; [|reflexivity].
  assert (Hr : has_comma r = true).
  { unfold has_comma in *. simpl in Hc.
    now rewrite (letter_e_not_comma c Ee) in Hc. }
  rewrite <- has_comma_take_sign in Hr.
  destruct (take_sign r) as [neg body]. simpl in Hr.
  destruct (scan_digits body) as [ds rest] eqn:Es.
  apply scan_digits_comma in Es. rewrite Hr in Es.
  destruct ds; [reflexivity|]. destruct rest; [discriminate | reflexivity].
Qed.

Lemma finish_float_comma (neg : bool) (ds : string) (shift : nat) (rest : string) :
  has_comma rest = true -> finish_float neg ds shift rest = None.
Proof.
  intros H. unfold finish_float. rewrite (scan_exponent_comma rest H).
  now destruct ds.
Qed.

(** [float] raises [ValueError] on any text that holds a comma. *)
Lemma py_float_comma (s : string) : has_comma s = true -> py_float s = None.
Proof.
  intros Hs. unfold py_float, strip_by.
  rewrite <- has_comma_lstrip, <- has_comma_rstrip, <- has_comma_take_sign in Hs.
  destruct (take_sign _) as [neg body]. simpl in Hs.
  assert (Hlow : forall t, has_comma t = false -> String.eqb (lower body) t = false).
  { intros t Ht. destruct (String.eqb (lower body) t) eqn:E; auto.
    apply String.eqb_eq in E. rewrite <- E, has_comma_lower in Ht. congruence. }
  rewrite !Hlow by reflexivity. simpl.
  destruct (scan_digits body) as [ip r1] eqn:E1.
  apply scan_digits_comma in E1. rewrite Hs in E1.
  destruct r1 as [|c r2]; [discriminate|].
  destruct (Ascii.eqb c ".") eqn:Ec.
  - apply Ascii.eqb_eq in Ec. subst c.
    destruct (scan_digits r2) as [fp r3] eqn:E2.
    apply scan_digits_comma in E2.
    apply finish_float_comma. rewrite E2. exact E1.
  - now apply finish_float_comma.
Qed.

Lemma py_int_grouped_volume :
  to_int (remove_commas "512,000") = Ok 512000
  /\ to_int (remove_commas "12,345,678") = Ok 12345678.
Proof. split; reflexivity. Qed.

(** C2. Only the volume cell has its commas removed ([latest[1].replace]);
    the open, high, low, close and change cells go to [float] as they are,
    and [float] rejects a comma.  A row in which one of these five cells
    holds a grouping separator therefore never yields a quote: the fetch
    ends in the generic error dialog. *)
Theorem C2_grouped_float_cells_are_rejected
        (code : string) (name : option string) (row : list string)
        (rows : list (list string)) (now : string) (i : nat) (text : string) :
  In i [3; 4; 5; 6; 7]%nat ->
  nth_error (last rows row) i = Some text ->
  has_comma text = true ->
  is_quote (fetch_outcome code (Body (Some (row :: rows)) name) now) = false
  /\ forall writable a,
      stocks (fetch_stock code (Body (Some (row :: rows)) name) now writable a)
      = stocks a.
Proof.
  intros Hi Hcell Hcomma.
  assert (Hq : is_quote (fetch_outcome code (Body (Some (row :: rows)) name) now)
               = false).
  { pose proof (py_float_comma text Hcomma) as Hfloat.
    unfold fetch_outcome, build_info, bind, cell, to_float, to_int.
    set (latest := last rows row) in *.
    simpl in Hi.
    destruct Hi as [<-|[<-|[<-|[<-|[<-|[]]]]]];
      rewrite Hcell, Hfloat;
      repeat match goal with
             | |- context [match nth_error latest ?k with _ => _ end] =>
                 destruct (nth_error latest k); try reflexivity
             | |- context [match py_float ?t with _ => _ end] =>
                 destruct (py_float t); try reflexivity
             | |- context [match py_int ?t with _ => _ end] =>
                 destruct (py_int t); try reflexivity
             end;
      reflexivity. }
  split; [exact Hq|]. intros writable a.
  destruct (fetch_stock_failure _ _ _ writable a Hq) as [d ->]. reflexivity.
Qed.

Lemma C2_grouped_float_cells_are_rejected_witness :
  fetch_outcome "3008" (Body (Some [Sample.row_3008]) None) Sample.at_10
  = Malformed (FloatValueError "2,155.00")
  /\ is_quote
       (fetch_outcome "3008" (Body (Some [Sample.row_3008]) None) Sample.at_10)
     = false.
Proof.
  split; [reflexivity|].
  apply (C2_grouped_float_cells_are_rejected
           "3008" None Sample.row_3008 [] Sample.at_10 6%nat "2,155.00").
  - simpl. tauto.
  - reflexivity.
  - reflexivity.
Defined.

(** ** The refresh timer *)

Lemma take_nth_length {A : Type} (i : nat) (l rest : list A) (x : A) :
  take_nth i l = Some (x, rest) -> List.length l = S (List.length rest).
Proof.
  revert i rest. induction l as [|y l IH]; intros i rest.
  - destruct i; discriminate.
  - destruct i as [|j]; simpl.
    + intros [= -> ->]. reflexivity.
    + destruct (take_nth j l) as [[z rest']|] eqn:E; [|intros [=]].
      intros [= -> <-]. simpl. f_equal. eapply IH. eassumption.
Qed.

Lemma schedule_refresh_enabled (a : app) :
  auto_refresh_var a = true ->
  timers (schedule_refresh a) = timers a ++ [refresh_interval a]
  /\ threads (schedule_refresh a) = threads a ++ Dict.keys (stocks a)
  /\ refresh_interval (schedule_refresh a) = refresh_interval a.
Proof.
  intros Hon. unfold schedule_refresh. rewrite Hon.
  destruct (refresh_all_stocks_spec a) as (Ht & _ & _ & _ & Hm & Hr & _).
  simpl. rewrite Hm, Hr, Ht. auto.
Qed.

Lemma update_refresh_interval_enabled (a : app) (n : Z) :
  auto_refresh_var a = true ->
  py_int (interval_var a) = Some n ->
  update_refresh_interval a
  = schedule_refresh (with_refresh_interval (n * 1000) a)
  /\ refresh_interval (update_refresh_interval a) = n * 1000
  /\ timers (update_refresh_interval a) = timers a ++ [n * 1000]
  /\ threads (update_refresh_interval a) = threads a ++ Dict.keys (stocks a).
Proof.
  intros Hon Hint. unfold update_refresh_interval. rewrite Hint.
  cbn [auto_refresh_var with_refresh_interval]. rewrite Hon.
  destruct (schedule_refresh_enabled (with_refresh_interval (n * 1000) a) Hon)
    as (Hm & Ht & Hr).
  auto.
Qed.

(** C3, as the claim states it, fails: after auto-refresh is switched on
    and the interval is stepped once from 30 to 31 seconds, two timers are
    armed, the one armed at 30000 ms when auto-refresh was switched on and
    the new one. *)
Lemma C3_two_timers_armed :
  exists a a',
    init None = Some a
    /\ run [ClickAutoRefresh; SpinInterval Increment] a = Some a'
    /\ auto_refresh_var a' = true
    /\ timers a' = [30000; 31000].
Proof. do 2 eexists. repeat split; reflexivity. Qed.

(** C3, amended. Changing the interval while auto-refresh is on stores the
    new interval, starts one refresh of all tracked codes and arms one more
    timer, at the new interval.  The timers armed before stay armed: the
    program never cancels one.  A timer that fires while auto-refresh is on
    arms its successor, so their number does not go down either. *)
Theorem C3_interval_change_adds_a_timer (a : app) (n : Z) :
  auto_refresh_var a = true ->
  py_int (interval_var a) = Some n ->
  let a' := update_refresh_interval a in
  refresh_interval a' = n * 1000
  /\ timers a' = timers a ++ [n * 1000]
  /\ threads a' = threads a ++ Dict.keys (stocks a)
  /\ forall i a'', step (TimerFires i) a' = Some a'' ->
                   List.length (timers a'') = List.length (timers a').
Proof.
  intros Hon Hint a'.
  destruct (update_refresh_interval_enabled a n Hon Hint) as (Ha & Hr & Hm & Ht).
  repeat split; try assumption.
  unfold a'. rewrite Ha. set (b := with_refresh_interval (n * 1000) a).
  intros i a'' Hstep. cbn [step] in Hstep.
  destruct (take_nth i (timers (schedule_refresh b))) as [[ms rest]|] eqn:E;
    [|discriminate].
  injection Hstep as <-.
  assert (Hon' : auto_refresh_var (with_timers rest (schedule_refresh b)) = true).
  { cbn [auto_refresh_var with_timers]. unfold schedule_refresh.
    change (auto_refresh_var b) with (auto_refresh_var a). rewrite Hon.
    cbn [auto_refresh_var after with_timers].
    now destruct (refresh_all_stocks_spec b) as (_ & _ & _ & _ & _ & _ & ->). }
  destruct (schedule_refresh_enabled _ Hon') as (Hm' & _).
  rewrite Hm'. cbn [timers with_timers]. rewrite length_app. simpl.
  rewrite (take_nth_length _ _ _ _ E). lia.
Qed.

Lemma C3_interval_change_adds_a_timer_witness :
  timers (update_refresh_interval
            (with_timers [30000]
               (with_auto_refresh_var true
                  (with_interval_var "10" Sample.two_tracked))))
  = [30000; 10000].
Proof.
  apply (C3_interval_change_adds_a_timer
           (with_timers [30000]
              (with_auto_refresh_var true
                 (with_interval_var "10" Sample.two_tracked))) 10);
    reflexivity.
Defined.

(** ** Adding a code *)

Lemma well_formed_not_empty (code : string) :
  well_formed code = true -> String.eqb code EmptyString = false.
Proof. destruct code; [discriminate | reflexivity]. Qed.

Lemma add_stock_cases (a : app) :
  let code := upper (strip (stock_input a)) in
  (exists d, add_stock a = show d a)
  \/ (well_formed code = true /\ Dict.contains code (stocks a) = false
      /\ add_stock a = with_stock_input EmptyString (start_fetch code a)).
Proof.
  intros code. unfold add_stock. fold code.
  destruct (String.eqb code EmptyString); [left; eauto|].
  unfold well_formed.
  destruct (str_isdigit code); simpl; [|left; eauto].
  destruct (Nat.eqb (String.length code) 4); simpl; [|left; eauto].
  destruct (Dict.contains code (stocks a)); [left; eauto | right; auto].
Qed.

Lemma add_stock_stocks (a : app) : stocks (add_stock a) = stocks a.
Proof.
  destruct (add_stock_cases a) as [[d ->]|(_ & _ & ->)]; reflexivity.
Qed.



(** ** Entering the tracked set *)

Lemma build_info_code (c : string) (name : option string)
      (latest : list string) (now : string) (info : stock_info) :
  build_info c name latest now = Ok info -> Quote.code info = c.
Proof.
  unfold build_info, bind, cell, to_float, to_int.
  repeat match goal with
         | |- context [match nth_error latest ?k with _ => _ end] =>
             destruct (nth_error latest k); try discriminate
         | |- context [match py_float ?t with _ => _ end] =>
             destruct (py_float t); try discriminate
         | |- context [match py_int ?t with _ => _ end] =>
             destruct (py_int t); try discriminate
         end.
  now intros [= <-].
Qed.

Lemma fetch_outcome_quote (c : string) (r : response) (now : string)
      (info : stock_info) :
  fetch_outcome c r now = Quote info ->
  exists name latest, build_info c name latest now = Ok info.
Proof.
  unfold fetch_outcome. destruct r as [| | |data name]; try discriminate.
  destruct data as [[|row rows]|]; try discriminate.
  destruct (build_info c name (last rows row) now) eqn:E; try discriminate.
  intros [= <-]. eauto.
Qed.

Lemma delete_keeps_entries (tr : list item) (selected : list nat) :
  forall (d : Dict.dict stock_info) (e : string * stock_info),
    In e (fold_left
            (fun d i =>
               match nth_error tr i with
               | Some it =>
                   match values it with
                   | code :: _ =>
                       if Dict.contains code d then Dict.del code d else d
                   | [] => d
                   end
               | None => d
               end) selected d) ->
    In e d.
Proof.
  induction selected as [|i sel IH]; intros d e; simpl; auto.
  intros H. apply IH in H.
  destruct (nth_error tr i) as [it|]; auto.
  destruct (values it) as [|code vs]; auto.
  destruct (Dict.contains code d); auto.
  eapply in_del; eauto.
Qed.

Lemma save_stocks_stocks (w : bool) (a : app) :
  stocks (save_stocks w a) = stocks a.
Proof. now destruct w. Qed.

Lemma toggle_auto_refresh_stocks (a : app) :
  stocks (toggle_auto_refresh a) = stocks a.
Proof.
  unfold toggle_auto_refresh. destruct (auto_refresh_var a); auto.
  apply schedule_refresh_stocks.
Qed.

Lemma update_refresh_interval_stocks (a : app) :
  stocks (update_refresh_interval a) = stocks a.
Proof.
  unfold update_refresh_interval. destruct (py_int (interval_var a)); auto.
  destruct (auto_refresh_var _); auto.
  now rewrite schedule_refresh_stocks.
Qed.

Lemma spin_interval_stocks (dir : direction) (a : app) :
  stocks (spin_interval dir a) = stocks a.
Proof.
  unfold spin_interval.
  destruct (Spin spin_from spin_to dir (interval_var a)) as [text|]; auto.
  now rewrite update_refresh_interval_stocks.
Qed.

Lemma export_data_stocks (file_path : string) (w : bool) (a : app) :
  stocks (export_data file_path w a) = stocks a.
Proof.
  unfold export_data. destruct (stocks a) eqn:E; simpl; auto.
  destruct (String.eqb file_path EmptyString); auto. now destruct w.
Qed.

Lemma load_stocks_stocks (a a' : app) :
  load_stocks a = Some a' -> stocks a' = stocks a.
Proof.
  unfold load_stocks. destruct (config_file a) as [text|]; [|now intros [= <-]].
  destruct (loads text) as [codes|];
    [|destruct (wide_escape false text); [discriminate | now intros [= <-]]].
  destruct (iterate codes) as [l| |]; try discriminate; intros [= <-]; auto.
  apply start_all_threads.
Qed.

(** What one event can do to the entries of [self.stocks]: an entry that is
    there afterwards was there before, unless the event is a fetch thread
    that ended with a quote for that very code. *)
Lemma step_entries (ev : event) (a a' : app) (e : string * stock_info) :
  step ev a = Some a' ->
  In e (stocks a') ->
  In e (stocks a)
  \/ exists i r now w,
      ev = ThreadRuns i r now w
      /\ fetch_outcome (fst e) r now = Quote (snd e).
Proof.
  destruct ev; simpl; intros Hstep Hin;
    try (injection Hstep as <-).
  - left. exact Hin.
  - left. now rewrite add_stock_stocks in Hin.
  - left. destruct (refresh_all_stocks_spec a) as (_ & Hs & _).
    now rewrite Hs in Hin.
  - left. now rewrite toggle_auto_refresh_stocks in Hin.
  - left. exact Hin.
  - left. now rewrite spin_interval_stocks in Hin.
  - left. unfold delete_selected in Hin. destruct selected as [|i sel]; auto.
    rewrite save_stocks_stocks in Hin. cbn [stocks update_table with_tree with_stocks] in Hin.
    eapply delete_keeps_entries. exact Hin.
  - left. unfold clear_all in Hin. destruct yes; auto.
    rewrite save_stocks_stocks in Hin. destruct Hin.
  - left. now rewrite export_data_stocks in Hin.
  - destruct (take_nth i (timers a)) as [[ms rest]|]; [|discriminate].
    injection Hstep as <-. left. now rewrite schedule_refresh_stocks in Hin.
  - destruct (take_nth i (threads a)) as [[code rest]|]; [|discriminate].
    injection Hstep as <-.
    destruct (fetch_outcome code r now) as [info| | | | |] eqn:E.
    + rewrite (fetch_stock_success _ _ _ _ _ _ E) in Hin.
      apply in_set in Hin. destruct Hin as [[Hv Hk]|Hin]; [|left; exact Hin].
      right. exists i, r, now, writable. split; auto.
      rewrite Hk, Hv. exact E.
    + left. destruct (fetch_stock_failure code r now writable (with_threads rest a))
        as [d Hd]; [now rewrite E|]. now rewrite Hd in Hin.
    + left. destruct (fetch_stock_failure code r now writable (with_threads rest a))
        as [d Hd]; [now rewrite E|]. now rewrite Hd in Hin.
    + left. destruct (fetch_stock_failure code r now writable (with_threads rest a))
        as [d Hd]; [now rewrite E|]. now rewrite Hd in Hin.
    + left. destruct (fetch_stock_failure code r now writable (with_threads rest a))
        as [d Hd]; [now rewrite E|]. now rewrite Hd in Hin.
    + left. destruct (fetch_stock_failure code r now writable (with_threads rest a))
        as [d Hd]; [now rewrite E|]. now rewrite Hd in Hin.
Qed.

Lemma step_holds_quotes (ev : event) (a a' : app) :
  step ev a = Some a' -> holds_quotes a -> holds_quotes a'.
Proof.
  intros Hstep Hinv c info Hin.
  destruct (step_entries ev a a' (c, info) Hstep Hin)
    as [Hold|(i & r & now & w & _ & Hq)].
  - now apply Hinv.
  - simpl in Hq. destruct (fetch_outcome_quote _ _ _ _ Hq) as (name & latest & H).
    eauto.
Qed.

Lemma run_holds_quotes (evs : list event) :
  forall a a', run evs a = Some a' -> holds_quotes a -> holds_quotes a'.
Proof.
  induction evs as [|ev evs IH]; simpl; intros a a'.
  - now intros [= <-].
  - destruct (step ev a) as [a1|] eqn:E; [|discriminate].
    intros Hrun Hinv. eapply IH; eauto. eapply step_holds_quotes; eauto.
Qed.

Lemma reachable_holds_quotes (a : app) : reachable a -> holds_quotes a.
Proof.
  intros (config & a0 & evs & Hinit & Hrun).
  eapply run_holds_quotes; eauto.
  intros c info Hin. unfold init in Hinit.
  apply load_stocks_stocks in Hinit. rewrite Hinit in Hin. destruct Hin.
Qed.

Lemma in_entries_contains (d : Dict.dict stock_info) (c : string) :
  Dict.contains c d = true <-> exists info, In (c, info) d.
Proof.
  rewrite contains_in_keys. unfold Dict.keys. rewrite in_map_iff. split.
  - intros ([k v] & <- & Hin). eauto.
  - intros (info & Hin). exists (c, info). auto.
Qed.

(** C6. An add request leaves [self.stocks] as it is; a code comes into it
    only when a fetch thread for that code ends with a quote, and then with
    that quote.  Hence, in every state the application can reach, each code
    in [self.stocks] has a record built for it from a provider row, with
    all nine fields, the first being the code itself. *)
Theorem C6_codes_enter_with_their_quote :
  (forall a, stocks (add_stock a) = stocks a)
  /\ (forall ev a a' c,
         step ev a = Some a' ->
         Dict.contains c (stocks a) = false ->
         Dict.contains c (stocks a') = true ->
         exists i r now w info,
           ev = ThreadRuns i r now w
           /\ fetch_outcome c r now = Quote info
           /\ In (c, info) (stocks a'))
  /\ (forall a c info,
         reachable a ->
         In (c, info) (stocks a) ->
         Quote.code info = c
         /\ exists name latest now, build_info c name latest now = Ok info).
Proof.
  split; [exact add_stock_stocks|]. split.
  - intros ev a a' c Hstep Hout Hin.
    apply in_entries_contains in Hin. destruct Hin as [info Hin].
    destruct (step_entries ev a a' (c, info) Hstep Hin)
      as [Hold|(i & r & now & w & -> & Hq)].
    + assert (Dict.contains c (stocks a) = true)
        by (apply in_entries_contains; eauto).
      congruence.
    + exists i, r, now, w, info. auto.
  - intros a c info Hreach Hin.
    destruct (reachable_holds_quotes a Hreach c info Hin) as (name & latest & now & H).
    split; [eapply build_info_code; eauto | eauto].
Qed.

(** ** The persisted list: [json.dump] followed by [json.load] *)

Lemma append_assoc (s t u : string) :
  ((s ++ t) ++ u)%string = (s ++ (t ++ u))%string.
Proof. induction s as [|c s IH]; simpl; [reflexivity | now rewrite IH]. Qed.

Lemma append_length (s t : string) :
  String.length (s ++ t) = (String.length s + String.length t)%nat.
Proof. induction s as [|c s IH]; simpl; [reflexivity | now rewrite IH]. Qed.

(** Reading back one encoded character gives the character. *)
Lemma scan_string_encode_char (c : ascii) (rest : string) :
  scan_string (encode_char c ++ rest) = cons_char c (scan_string rest).
Proof. by_cases_on_char c. Qed.

Lemma scan_string_encode_chars (s rest : string) :
  scan_string (encode_chars s ++ String dquote rest) = Some (s, rest).
Proof.
  induction s as [|c s IH]; simpl.
  - reflexivity.
  - now rewrite append_assoc, scan_string_encode_char, IH.
Qed.

Lemma parse_value_encode_string (fuel : nat) (s rest : string) :
  parse_value (S fuel) (encode_string s ++ rest) = Some (JString s, rest).
Proof.
  unfold encode_string. cbn [parse_value append].
  change (Ascii.eqb dquote dquote) with true. cbv iota.
  rewrite append_assoc. cbn [append].
  now rewrite scan_string_encode_chars.
Qed.

Lemma skip_ws_encode_string (s rest : string) :
  skip_ws (encode_string s ++ rest) = (encode_string s ++ rest)%string.
Proof. reflexivity. Qed.

Lemma parse_items_last (f : nat) (c rest : string) (acc : list json) :
  parse_items (S (S f)) (encode_string c ++ String "]" rest) acc
  = Some (JArray (rev (JString c :: acc)), rest).
Proof.
  change (parse_items (S (S f)) (encode_string c ++ String "]" rest) acc)
    with (match parse_value (S f) (encode_string c ++ String "]" rest) with
          | Some (v, r) =>
              match skip_ws r with
              | String c0 r' =>
                  if Ascii.eqb c0 ","
                  then parse_items (S f) (skip_ws r') (v :: acc)
                  else if Ascii.eqb c0 "]"
                       then Some (JArray (rev (v :: acc)), r')
                       else None
              | EmptyString => None
              end
          | None => None
          end).
  rewrite parse_value_encode_string. reflexivity.
Qed.

Lemma parse_items_next (f : nat) (c more : string) (acc : list json) :
  parse_items (S (S f)) (encode_string c ++ ", " ++ more) acc
  = parse_items (S f) (skip_ws more) (JString c :: acc).
Proof.
  change (parse_items (S (S f)) (encode_string c ++ ", " ++ more) acc)
    with (match parse_value (S f) (encode_string c ++ ", " ++ more) with
          | Some (v, r) =>
              match skip_ws r with
              | String c0 r' =>
                  if Ascii.eqb c0 ","
                  then parse_items (S f) (skip_ws r') (v :: acc)
                  else if Ascii.eqb c0 "]"
                       then Some (JArray (rev (v :: acc)), r')
                       else None
              | EmptyString => None
              end
          | None => None
          end).
  rewrite parse_value_encode_string. reflexivity.
Qed.

Lemma skip_ws_items (c : string) (l : list string) (rest : string) :
  skip_ws (join ", " (map encode_string (c :: l)) ++ rest)
  = (join ", " (map encode_string (c :: l)) ++ rest)%string.
Proof. destruct l; reflexivity. Qed.

(** The items of a dumped list, read back one after the other. *)
Lemma parse_items_codes (l : list string) :
  forall (c : string) (acc : list json) (fuel : nat) (rest : string),
    (List.length l + 2 <= fuel)%nat ->
    parse_items fuel
      (join ", " (map encode_string (c :: l)) ++ String "]" rest) acc
    = Some (JArray (rev acc ++ map JString (c :: l)), rest).
Proof.
  induction l as [|c' l IH]; intros c acc fuel rest Hfuel;
    destruct fuel as [|[|f]]; try (simpl in Hfuel; lia).
  - cbn [map join]. now rewrite parse_items_last.
  - change (join ", " (map encode_string (c :: c' :: l)))
      with (encode_string c ++ ", " ++ join ", " (map encode_string (c' :: l)))%string.
    rewrite !append_assoc, parse_items_next, skip_ws_items.
    rewrite IH by (simpl in Hfuel; lia).
    simpl. now rewrite <- app_assoc.
Qed.

Lemma dumps_codes_length (l : list string) :
  (2 * List.length l <= String.length (join ", " (map encode_string l)))%nat.
Proof.
  induction l as [|c l IH]; [simpl; lia|].
  destruct l as [|c' l].
  - unfold encode_string. simpl. rewrite append_length. simpl. lia.
  - change (join ", " (map encode_string (c :: c' :: l)))
      with (encode_string c ++ ", " ++ join ", " (map encode_string (c' :: l)))%string.
    unfold encode_string at 1. simpl String.length.
    rewrite !append_length. simpl String.length. simpl in IH |- *. lia.
Qed.

(** Every list of codes written by [json.dump] is read back by [json.load]
    as the same list. *)
Lemma loads_dumps_codes (l : list string) :
  loads (dumps_codes l) = Some (JArray (map JString l)).
Proof.
  unfold loads, dumps_codes. destruct l as [|c l]; [reflexivity|].
  set (body := join ", " (map encode_string (c :: l))).
  assert (Hlen : (List.length l + 2
                  <= String.length ("[" ++ body ++ "]"))%nat).
  { pose proof (dumps_codes_length (c :: l)) as H. fold body in H.
    simpl String.length. rewrite append_length. simpl in H |- *. lia. }
  change (skip_ws ("[" ++ body ++ "]")) with ("[" ++ body ++ "]")%string.
  change (parse_value (S (String.length ("[" ++ body ++ "]")))
            ("[" ++ body ++ "]"))
    with (match skip_ws (body ++ "]") with
          | String c2 r2 =>
              if Ascii.eqb c2 "]" then Some (JArray [], r2)
              else parse_items (String.length ("[" ++ body ++ "]"))
                     (String c2 r2) []
          | EmptyString => None
          end).
  unfold body at 1. rewrite skip_ws_items. fold body.
  assert (Hhead : exists t, (body ++ "]")%string = String dquote t).
  { unfold body. destruct l; simpl; eauto. }
  destruct Hhead as [t Ht]. rewrite Ht.
  change (Ascii.eqb dquote "]") with false. cbv iota. rewrite <- Ht.
  unfold body at 2. rewrite (parse_items_codes l c [] _ EmptyString Hlen).
  reflexivity.
Qed.

Lemma texts_strings (l : list string) : texts (map JString l) = Some l.
Proof. induction l as [|c l IH]; simpl; [reflexivity | now rewrite IH]. Qed.

Lemma load_after_save (a : app) :
  load_stocks (save_stocks true a)
  = Some (fold_left (fun a' code => start_fetch code a')
            (Dict.keys (stocks a)) (save_stocks true a)).
Proof.
  unfold load_stocks, save_stocks.
  cbn [config_file with_config_file].
  rewrite loads_dumps_codes. cbn [iterate]. now rewrite texts_strings.
Qed.

(** ** The shape of printed numbers *)

Ltac div_lia := zify; Z.div_mod_to_equations; lia.

Lemma string_of_uint_digits (d : Decimal.uint) :
  forallb_chars isdigit (NilEmpty.string_of_uint d) = true.
Proof. induction d; simpl; auto. Qed.

Lemma dec_of_N_digits (n : N) : forallb_chars isdigit (dec_of_N n) = true.
Proof. apply string_of_uint_digits. Qed.

Lemma dec_of_N_head (n : N) :
  exists c r, dec_of_N n = String c r /\ isdigit c = true.
Proof.
  pose proof (dec_of_N_digits n) as Hd. unfold dec_of_N in *.
  assert (Hnil : N.to_uint n <> Decimal.Nil).
  { destruct n as [|p]; [discriminate | apply Unsigned.to_uint_nonnil]. }
  destruct (N.to_uint n); try contradiction; simpl in *; eauto.
Qed.

Lemma digit_char_digit (d : Z) : 0 <= d <= 9 -> isdigit (digit_char d) = true.
Proof.
  intros H.
  assert (Hd : d = 0 \/ d = 1 \/ d = 2 \/ d = 3 \/ d = 4 \/ d = 5 \/ d = 6
               \/ d = 7 \/ d = 8 \/ d = 9) by lia.
  repeat (destruct Hd as [->|Hd]; [reflexivity|]). now subst.
Qed.

Lemma digit_not_minus (c : ascii) :
  isdigit c = true -> Ascii.eqb c "-" = false /\ Ascii.eqb c "." = false.
Proof. by_cases_on_char c; intros _; split; reflexivity. Qed.

Lemma fixed2_body_digits (ds : string) (d1 d2 : ascii) :
  forallb_chars isdigit ds = true ->
  isdigit d1 = true -> isdigit d2 = true ->
  forall seen,
    fixed2_body seen (ds ++ "." ++ String d1 (String d2 EmptyString))
    = match ds with EmptyString => seen | _ => true end.
Proof.
  intros Hds H1 H2. induction ds as [|c ds IH]; intros seen.
  - simpl. rewrite H1, H2. now destruct seen.
  - simpl in Hds. apply andb_true_iff in Hds. destruct Hds as [Hc Hds].
    cbn [append fixed2_body]. rewrite Hc, (IH Hds). now destruct ds.
Qed.

Lemma fixed2_shape (c : Z) :
  exists h r, fixed2 c = String h r /\ isdigit h = true
              /\ fixed2_body false (fixed2 c) = true.
Proof.
  unfold fixed2. destruct (dec_of_N_head (Z.to_N (c / 100))) as (h & r & Hd & Hh).
  exists h. eexists. split; [rewrite Hd; reflexivity|]. split; [exact Hh|].
  rewrite fixed2_body_digits.
  - now rewrite Hd.
  - apply dec_of_N_digits.
  - apply digit_char_digit. div_lia.
  - apply digit_char_digit. div_lia.
Qed.

(** A finite float printed with [.2f] has exactly two decimals; printed
    with [+.2f] it has them behind a sign. *)
Lemma format_f2_finite (x : pyfloat) :
  is_finite x = true ->
  is_fixed2 (format_f2 false x) = true
  /\ is_signed_fixed2 (format_f2 true x) = true.
Proof.
  destruct x as [| |neg m e]; try discriminate. intros _.
  destruct (fixed2_shape (scaled_cents m e)) as (h & r & Hf & Hh & Hb).
  unfold format_f2, sign_text. destruct neg; simpl; rewrite ?Hb; auto.
  split; [|reflexivity].
  rewrite Hf in *. unfold is_fixed2.
  destruct (digit_not_minus h Hh) as [-> _]. exact Hb.
Qed.

(** Infinities and NaN are printed by name, whatever the precision. *)
Lemma format_f2_not_finite (x : pyfloat) :
  is_finite x = false ->
  In (format_f2 false x) ["nan"; "inf"; "-inf"]%string
  /\ In (format_f2 true x) ["+nan"; "+inf"; "-inf"]%string
  /\ is_fixed2 (format_f2 false x) = false
  /\ is_signed_fixed2 (format_f2 true x) = false.
Proof.
  destruct x as [|[|]|neg m e]; try discriminate; intros _; simpl; tauto.
Qed.

Lemma group3_shape (ds : string) :
  forallb_chars isdigit ds = true ->
  String.length (group3 ds)
  = (String.length ds + (String.length ds - 1) / 3)%nat
  /\ grouped_body (group3 ds) = true.
Proof.
  induction ds as [|c r IH]; [intros _; split; reflexivity|].
  intros Hd. simpl in Hd. apply andb_true_iff in Hd. destruct Hd as [Hc Hr].
  destruct (IH Hr) as [Hlen Hbody]. cbn [group3].
  set (k := String.length r) in *.
  destruct (Nat.ltb 0 k && Nat.eqb (Nat.modulo k 3) 0)%bool eqn:E.
  - apply andb_true_iff in E. destruct E as [Hk Hm].
    apply Nat.ltb_lt in Hk. apply Nat.eqb_eq in Hm.
    cbn [String.length append grouped_body]. rewrite Hlen, Hbody.
    split; [fold k; div_lia|].
    replace (Nat.eqb (Nat.modulo (S (k + (k - 1) / 3)) 4) 3) with false
      by (symmetry; apply Nat.eqb_neq; div_lia).
    replace (Nat.eqb (Nat.modulo (k + (k - 1) / 3) 4) 3) with true
      by (symmetry; apply Nat.eqb_eq; div_lia).
    now rewrite Hc.
  - assert (Hk : k = 0%nat \/ Nat.modulo k 3 <> 0%nat).
    { destruct (Nat.ltb 0 k) eqn:E1; simpl in E.
      - right. now apply Nat.eqb_neq.
      - left. apply Nat.ltb_ge in E1. lia. }
    cbn [String.length grouped_body]. rewrite Hlen, Hbody.
    split; [fold k; div_lia|].
    replace (Nat.eqb (Nat.modulo (k + (k - 1) / 3) 4) 3) with false
      by (symmetry; apply Nat.eqb_neq; div_lia).
    now rewrite Hc.
Qed.

(** An integer printed with [,] is grouped by three digits. *)
Lemma format_grouped_shape (v : Z) : is_grouped (format_grouped v) = true.
Proof.
  unfold format_grouped.
  destruct (dec_of_N_head (Z.abs_N v)) as (h & r & Hd & Hh).
  pose proof (dec_of_N_digits (Z.abs_N v)) as Hds.
  destruct (group3_shape _ Hds) as [_ Hb].
  assert (Hg : exists t, group3 (dec_of_N (Z.abs_N v)) = String h t)
    by (rewrite Hd; simpl; eauto).
  destruct Hg as [t Ht]. rewrite Ht in *.
  destruct (digit_not_minus h Hh) as [Hm _].
  destruct (Z.ltb v 0); unfold is_grouped; cbn [append].
  - change (Ascii.eqb "-" "-") with true. cbv iota. now rewrite Hh.
  - rewrite Hm, Hh. exact Hb.
Qed.

(** ** Persistence *)

(** C7. For every list of codes held as the keys of [self.stocks] -- in
    particular every list of 0 to 50 four-digit codes -- [save_stocks]
    followed by [load_stocks] reads back that list: [json.load] decodes the
    written text to the same strings in the same order, and one fetch is
    started for each of them, in that order. *)
Theorem C7_save_then_load_is_identity :
  (forall codes : list string,
      option_map iterate (loads (dumps_codes codes)) = Some (Codes codes))
  /\ (forall a : app,
         exists a',
           load_stocks (save_stocks true a) = Some a'
           /\ config_file a' = Some (dumps_codes (Dict.keys (stocks a)))
           /\ threads a' = threads a ++ Dict.keys (stocks a)
           /\ stocks a' = stocks a).
Proof.
  split.
  - intros codes. rewrite loads_dumps_codes. simpl. now rewrite texts_strings.
  - intros a. rewrite load_after_save. eexists. split; [reflexivity|].
    destruct (start_all_threads (Dict.keys (stocks a)) (save_stocks true a))
      as (Ht & Hs & Hc & _).
    rewrite Ht, Hs, Hc. auto.
Qed.

Lemma C7_save_then_load_is_identity_witness :
  well_formed "2330" = true /\ well_formed "0050" = true
  /\ option_map iterate (loads (dumps_codes ["2330"; "0050"]))
     = Some (Codes ["2330"; "0050"]).
Proof.
  split; [reflexivity|]. split; [reflexivity|].
  apply (proj1 C7_save_then_load_is_identity ["2330"; "0050"]).
Defined.

(** C10. [load_stocks] starts a fetch for every string of the persisted
    array, as it is stored and in the stored order: nothing is stripped or
    upper-cased, the four-digit test of [add_stock] is not applied, and a
    repeated code is fetched again.  So a persisted [12ab], which
    [add_stock] refuses, is fetched, and when the provider answers with
    data it becomes an entry of [self.stocks] and of the persisted list. *)
Theorem C10_persisted_codes_fetched_unchecked :
  (forall (a : app) (text : string) (codes : list string),
      config_file a = Some text ->
      loads text = Some (JArray (map JString codes)) ->
      exists a',
        load_stocks a = Some a'
        /\ threads a' = threads a ++ codes
        /\ stocks a' = stocks a /\ dialogs a' = dialogs a)
  /\ (exists a0 a1,
         init (Some (dumps_codes ["12ab"; "2330"; "2330"])) = Some a0
         /\ threads a0 = ["12ab"; "2330"; "2330"]
         /\ well_formed "12ab" = false
         /\ add_stock (with_stock_input "12ab" a0)
            = show WarnBadCode (with_stock_input "12ab" a0)
         /\ step (ThreadRuns 0 (Body (Some [Sample.row_2330]) None)
                    Sample.at_10 true) a0 = Some a1
         /\ Dict.keys (stocks a1) = ["12ab"]
         /\ config_file a1 = Some (dumps_codes ["12ab"])).
Proof.
  split.
  - intros a text codes Hfile Hloads. unfold load_stocks.
    rewrite Hfile, Hloads. cbn [iterate]. rewrite texts_strings.
    eexists. split; [reflexivity|].
    destruct (start_all_threads codes a) as (Ht & Hs & _ & Hd & _).
    auto.
  - do 2 eexists. repeat split; reflexivity.
Qed.

Lemma C10_persisted_codes_fetched_unchecked_witness :
  exists a',
    load_stocks (with_config_file (Some Sample.edited_config)
                   Sample.two_tracked) = Some a'
    /\ threads a' = [" 12ab"; "2330"; "2330"].
Proof.
  destruct (proj1 C10_persisted_codes_fetched_unchecked
              (with_config_file (Some Sample.edited_config) Sample.two_tracked)
              Sample.edited_config [" 12ab"; "2330"; "2330"]
              eq_refl eq_refl) as (a' & Hl & Ht & _).
  exists a'. split; [exact Hl | exact Ht].
Defined.

(** ** Export *)

(** C8, as the claim states it, fails: a close cell that [float] reads as
    infinity is stored, and [export_data] writes it as [inf], which is not a
    number with two decimals. *)
Lemma C8_infinite_price_exported_by_name :
  exists a0 a1,
    init None = Some a0
    /\ run [TypeCode "2330"; PressAdd;
            ThreadRuns 0 (Body (Some [Sample.row_inf]) None) Sample.at_10 true;
            PressExport "out.csv" true] a0 = Some a1
    /\ map item_of (stocks a1)
       = [mk_item ["2330"; "2330"; "inf"; "+0.00"; "1.00"; "1.00"; "1.00";
                   "1,000"; Sample.at_10] None]
    /\ map snd (exported a1)
       = [(bom ++ csv_header ++ newline
             ++ "2330,2330,inf,+0.00,1.00,1.00,1.00,1,000,2026-11-04 10:00:00"
             ++ newline)%string]
    /\ is_fixed2 "inf" = false.
Proof. do 2 eexists. repeat split; reflexivity. Qed.

(** C8, amended. For every non-empty store, [export_data] writes the
    byte-order mark, the fixed header of nine columns and then one line per
    entry of [self.stocks], in its iteration order.  A line holds, between
    commas, the code, the name, the price, the change, the open, high and
    low, the volume and the timestamp.  Price, open, high and low have
    exactly two decimals and the change has two decimals behind a sign
    whenever the value is finite; the volume is grouped by three digits.
    (An infinite or NaN value is written as [inf] or [nan].) *)
Theorem C8_export_writes_header_and_lines (a : app) (file_path : string) :
  stocks a <> [] ->
  file_path <> EmptyString ->
  exported (export_data file_path true a)
  = exported a
      ++ [(file_path,
           (bom ++ csv_header ++ newline
              ++ String.concat EmptyString (map csv_line (stocks a)))%string)]
  /\ List.length (split_commas csv_header) = 9%nat
  /\ List.length (map csv_line (stocks a)) = List.length (stocks a)
  /\ forall code stock,
      In (code, stock) (stocks a) ->
      csv_line (code, stock)
      = (join ","
           [code; Quote.name stock;
            format_f2 false (price stock); format_f2 true (change stock);
            format_f2 false (open stock); format_f2 false (high stock);
            format_f2 false (low stock); format_grouped (volume stock);
            timestamp stock] ++ newline)%string
      /\ is_grouped (format_grouped (volume stock)) = true
      /\ (is_finite (price stock) = true ->
          is_fixed2 (format_f2 false (price stock)) = true)
      /\ (is_finite (open stock) = true ->
          is_fixed2 (format_f2 false (open stock)) = true)
      /\ (is_finite (high stock) = true ->
          is_fixed2 (format_f2 false (high stock)) = true)
      /\ (is_finite (low stock) = true ->
          is_fixed2 (format_f2 false (low stock)) = true)
      /\ (is_finite (change stock) = true ->
          is_signed_fixed2 (format_f2 true (change stock)) = true).
Proof.
  intros Hne Hpath. split; [|split; [|split]].
  - unfold export_data. destruct (stocks a) eqn:E; [contradiction|].
    apply String.eqb_neq in Hpath. rewrite Hpath. reflexivity.
  - reflexivity.
  - apply length_map.
  - intros code stock _. split; [reflexivity|].
    split; [apply format_grouped_shape|].
    repeat split; intros Hfin; now apply format_f2_finite.
Qed.

Lemma C8_export_writes_header_and_lines_witness :
  stocks Sample.two_tracked <> []
  /\ map snd (exported (export_data "out.csv" true Sample.two_tracked))
     = [(bom ++ csv_header ++ newline
           ++ "2330,2330,580.00,+5.50,575.00,582.00,574.00,12,345,678,2026-11-04 10:00:00"
           ++ newline
           ++ "0050,0050,180.00,+0.00,180.00,181.50,179.00,8,000,2026-11-04 10:00:00"
           ++ newline)%string].
Proof.
  assert (Hne : stocks Sample.two_tracked <> []) by discriminate.
  assert (Hpath : "out.csv"%string <> EmptyString) by discriminate.
  split; [exact Hne|].
  rewrite (proj1 (C8_export_writes_header_and_lines
                    Sample.two_tracked "out.csv" Hne Hpath)).
  reflexivity.
Defined.

(** ** Further instances *)

Lemma C6_codes_enter_with_their_quote_witness :
  reachable Sample.one_tracked
  /\ In ("2330"%string, Sample.info_2330) (stocks Sample.one_tracked)
  /\ Quote.code Sample.info_2330 = "2330"%string.
Proof.
  assert (Hreach : reachable Sample.one_tracked).
  { exists None. eexists. exists Sample.first_fetch.
    split; [reflexivity | vm_compute; reflexivity]. }
  assert (Hin : In ("2330"%string, Sample.info_2330) (stocks Sample.one_tracked))
    by (left; reflexivity).
  split; [exact Hreach|]. split; [exact Hin|].
  apply (proj2 (proj2 C6_codes_enter_with_their_quote)
           Sample.one_tracked "2330"%string Sample.info_2330 Hreach Hin).
Defined.

(** * Further properties of the program *)

(** ** What every state of a run satisfies *)

Lemma reachable_invariant (P : app -> Prop) :
  (forall config a0, init config = Some a0 -> P a0) ->
  (forall ev a a', P a -> step ev a = Some a' -> P a') ->
  forall a, reachable a -> P a.
Proof.
  intros Hinit Hstep a (config & a0 & evs & H0 & Hrun).
  assert (Hgen : forall evs b b', P b -> run evs b = Some b' -> P b').
  { clear H0 Hrun. intros evs'.
    induction evs' as [|ev evs' IH]; simpl; intros b b' Hb.
    - now intros [= <-].
    - destruct (step ev b) as [b1|] eqn:E; [|discriminate].
      intros Hrun. eapply IH; [eapply Hstep; eauto | exact Hrun]. }
  eapply Hgen; eauto.
Qed.

(** Starting fetches touches [threads] only. *)
Lemma start_all_frame (l : list string) (a : app) :
  let a' := fold_left (fun a0 code => start_fetch code a0) l a in
  tree a' = tree a /\ auto_refresh_active a' = auto_refresh_active a
  /\ exported a' = exported a /\ stock_input a' = stock_input a
  /\ interval_var a' = interval_var a.
Proof.
  revert a. induction l as [|c l IH]; intros a; simpl; [tauto|].
  destruct (IH (start_fetch c a)) as (H1 & H2 & H3 & H4 & H5). simpl in *. tauto.
Qed.

Lemma refresh_all_stocks_frame (a : app) :
  let a' := refresh_all_stocks a in
  tree a' = tree a /\ auto_refresh_active a' = auto_refresh_active a
  /\ exported a' = exported a /\ stock_input a' = stock_input a
  /\ interval_var a' = interval_var a.
Proof.
  unfold refresh_all_stocks. destruct (stocks a); [simpl; tauto|].
  apply start_all_frame.
Qed.

Lemma schedule_refresh_frame (a : app) :
  let a' := schedule_refresh a in
  stocks a' = stocks a /\ tree a' = tree a
  /\ auto_refresh_active a' = auto_refresh_active a
  /\ config_file a' = config_file a /\ exported a' = exported a
  /\ dialogs a' = dialogs a /\ auto_refresh_var a' = auto_refresh_var a.
Proof.
  unfold schedule_refresh. destruct (auto_refresh_var a) eqn:E; [|tauto].
  destruct (refresh_all_stocks_spec a) as (_ & Hs & Hc & Hd & _ & _ & Hv).
  destruct (refresh_all_stocks_frame a) as (Ht & Ha & He & _).
  simpl. rewrite Hs, Ht, Ha, Hc, He, Hd, Hv. tauto.
Qed.

Lemma toggle_auto_refresh_frame (a : app) :
  let a' := toggle_auto_refresh a in
  stocks a' = stocks a /\ tree a' = tree a
  /\ (auto_refresh_active a = false -> auto_refresh_active a' = false)
  /\ config_file a' = config_file a /\ exported a' = exported a.
Proof.
  unfold toggle_auto_refresh. destruct (auto_refresh_var a).
  - destruct (schedule_refresh_frame a) as (H1 & H2 & H3 & H4 & H5 & _).
    cbv zeta. rewrite H1, H2, H3, H4, H5. tauto.
  - simpl. tauto.
Qed.

Lemma update_refresh_interval_frame (a : app) :
  let a' := update_refresh_interval a in
  stocks a' = stocks a /\ tree a' = tree a
  /\ auto_refresh_active a' = auto_refresh_active a
  /\ config_file a' = config_file a /\ exported a' = exported a
  /\ auto_refresh_var a' = auto_refresh_var a.
Proof.
  unfold update_refresh_interval. destruct (py_int (interval_var a)) as [n|]; [|tauto].
  set (b := with_refresh_interval (n * 1000) a).
  change (auto_refresh_var b) with (auto_refresh_var a).
  destruct (auto_refresh_var a) eqn:E; [|simpl; tauto].
  destruct (schedule_refresh_frame b) as (H1 & H2 & H3 & H4 & H5 & _ & H7).
  cbv zeta. rewrite H1, H2, H3, H4, H5, H7. simpl. tauto.
Qed.

Lemma spin_interval_frame (dir : direction) (a : app) :
  let a' := spin_interval dir a in
  stocks a' = stocks a /\ tree a' = tree a
  /\ auto_refresh_active a' = auto_refresh_active a
  /\ config_file a' = config_file a /\ exported a' = exported a
  /\ auto_refresh_var a' = auto_refresh_var a.
Proof.
  unfold spin_interval.
  destruct (Spin spin_from spin_to dir (interval_var a)) as [text|]; [|tauto].
  apply (update_refresh_interval_frame (with_interval_var text a)).
Qed.

Lemma add_stock_frame (a : app) :
  let a' := add_stock a in
  stocks a' = stocks a /\ tree a' = tree a
  /\ auto_refresh_active a' = auto_refresh_active a
  /\ config_file a' = config_file a /\ exported a' = exported a
  /\ timers a' = timers a /\ auto_refresh_var a' = auto_refresh_var a.
Proof.
  destruct (add_stock_cases a) as [[d ->]|(_ & _ & ->)]; simpl; tauto.
Qed.

Lemma export_data_frame (file_path : string) (w : bool) (a : app) :
  let a' := export_data file_path w a in
  stocks a' = stocks a /\ tree a' = tree a
  /\ auto_refresh_active a' = auto_refresh_active a
  /\ config_file a' = config_file a /\ threads a' = threads a
  /\ timers a' = timers a /\ auto_refresh_var a' = auto_refresh_var a
  /\ refresh_interval a' = refresh_interval a.
Proof.
  unfold export_data. destruct (stocks a) eqn:E; simpl; [tauto|].
  destruct (String.eqb file_path EmptyString); [rewrite E; tauto|].
  destruct w; simpl; rewrite E; tauto.
Qed.

(** Writing the store: the three operations that do it redraw the table. *)
Lemma save_stocks_frame (w : bool) (a : app) :
  let a' := save_stocks w a in
  stocks a' = stocks a /\ tree a' = tree a
  /\ auto_refresh_active a' = auto_refresh_active a
  /\ threads a' = threads a /\ timers a' = timers a
  /\ auto_refresh_var a' = auto_refresh_var a.
Proof. destruct w; simpl; tauto. Qed.

Lemma fetch_stock_frame (code : string) (r : response) (now : string)
      (w : bool) (a : app) :
  let a' := fetch_stock code r now w a in
  (tree a = map item_of (stocks a) -> tree a' = map item_of (stocks a'))
  /\ auto_refresh_active a' = auto_refresh_active a
  /\ threads a' = threads a /\ timers a' = timers a
  /\ auto_refresh_var a' = auto_refresh_var a.
Proof.
  unfold fetch_stock. destruct (fetch_outcome code r now); simpl; try tauto.
  destruct w; simpl; tauto.
Qed.

Lemma delete_selected_frame (selected : list nat) (w : bool) (a : app) :
  let a' := delete_selected selected w a in
  (tree a = map item_of (stocks a) -> tree a' = map item_of (stocks a'))
  /\ auto_refresh_active a' = auto_refresh_active a
  /\ threads a' = threads a /\ timers a' = timers a
  /\ auto_refresh_var a' = auto_refresh_var a.
Proof.
  unfold delete_selected. destruct selected; [simpl; tauto|].
  destruct w; simpl; tauto.
Qed.

Lemma clear_all_frame (yes w : bool) (a : app) :
  let a' := clear_all yes w a in
  (tree a = map item_of (stocks a) -> tree a' = map item_of (stocks a'))
  /\ auto_refresh_active a' = auto_refresh_active a
  /\ threads a' = threads a /\ timers a' = timers a
  /\ auto_refresh_var a' = auto_refresh_var a.
Proof. unfold clear_all. destruct yes; [|tauto]. destruct w; simpl; tauto. Qed.

Lemma init_state (config : option string) (a0 : app) :
  init config = Some a0 ->
  stocks a0 = [] /\ tree a0 = [] /\ auto_refresh_active a0 = false
  /\ timers a0 = [] /\ auto_refresh_var a0 = false
  /\ refresh_interval a0 = 30000 /\ config_file a0 = config.
Proof.
  unfold init, load_stocks. cbn [config_file].
  destruct config as [text|]; [|intros [= <-]; simpl; tauto].
  destruct (loads text) as [codes|];
    [|destruct (wide_escape false text);
      [discriminate | intros [= <-]; simpl; tauto]].
  destruct (iterate codes) as [l| |]; try discriminate; intros [= <-];
    [|simpl; tauto].
  set (b := mk_app [] (Some text) false 30000 EmptyString false "30" [] [] [] [] []).
  destruct (start_all_threads l b) as (_ & Hs & Hc & _ & Hm & Hr & Hv).
  destruct (start_all_frame l b) as (Ht & Ha & _).
  rewrite Hs, Hc, Hm, Hr, Hv, Ht, Ha. simpl. tauto.
Qed.

(** The table shows the store, and the flag [auto_refresh_active] is
    never raised. *)
Lemma step_keeps_table (ev : event) (a a' : app) :
  step ev a = Some a' ->
  tree a = map item_of (stocks a) -> tree a' = map item_of (stocks a').
Proof.
  destruct ev; simpl; intros Hstep Hinv; try (injection Hstep as <-).
  - exact Hinv.
  - destruct (add_stock_frame a) as (-> & -> & _). exact Hinv.
  - destruct (refresh_all_stocks_spec a) as (_ & -> & _).
    destruct (refresh_all_stocks_frame a) as (-> & _). exact Hinv.
  - destruct (toggle_auto_refresh_frame
                (with_auto_refresh_var (negb (auto_refresh_var a)) a))
      as (-> & -> & _). exact Hinv.
  - exact Hinv.
  - destruct (spin_interval_frame dir a) as (-> & -> & _). exact Hinv.
  - now apply delete_selected_frame.
  - now apply clear_all_frame.
  - destruct (export_data_frame file_path writable a) as (-> & -> & _).
    exact Hinv.
  - destruct (take_nth i (timers a)) as [[ms rest]|]; [|discriminate].
    injection Hstep as <-.
    destruct (schedule_refresh_frame (with_timers rest a)) as (-> & -> & _).
    exact Hinv.
  - destruct (take_nth i (threads a)) as [[code rest]|]; [|discriminate].
    injection Hstep as <-. now apply fetch_stock_frame.
Qed.

Lemma step_keeps_flag (ev : event) (a a' : app) :
  step ev a = Some a' ->
  auto_refresh_active a = false -> auto_refresh_active a' = false.
Proof.
  destruct ev; simpl; intros Hstep Hinv; try (injection Hstep as <-).
  - exact Hinv.
  - destruct (add_stock_frame a) as (_ & _ & -> & _). exact Hinv.
  - destruct (refresh_all_stocks_frame a) as (_ & -> & _). exact Hinv.
  - now apply toggle_auto_refresh_frame.
  - exact Hinv.
  - destruct (spin_interval_frame dir a) as (_ & _ & -> & _). exact Hinv.
  - destruct (delete_selected_frame selected writable a) as (_ & -> & _).
    exact Hinv.
  - destruct (clear_all_frame yes writable a) as (_ & -> & _). exact Hinv.
  - destruct (export_data_frame file_path writable a) as (_ & _ & -> & _).
    exact Hinv.
  - destruct (take_nth i (timers a)) as [[ms rest]|]; [|discriminate].
    injection Hstep as <-.
    destruct (schedule_refresh_frame (with_timers rest a)) as (_ & _ & -> & _).
    exact Hinv.
  - destruct (take_nth i (threads a)) as [[code rest]|]; [|discriminate].
    injection Hstep as <-.
    destruct (fetch_stock_frame code r now writable (with_threads rest a))
      as (_ & -> & _).
    exact Hinv.
Qed.

Lemma reachable_table (a : app) :
  reachable a -> tree a = map item_of (stocks a).
Proof.
  apply (reachable_invariant (fun a => tree a = map item_of (stocks a))).
  - intros config a0 H. apply init_state in H.
    destruct H as (-> & -> & _). reflexivity.
  - intros ev b b' Hb Hstep. eapply step_keeps_table; eauto.
Qed.

Lemma reachable_one_tracked : reachable Sample.one_tracked.
Proof.
  exists None. eexists. exists Sample.first_fetch.
  split; [reflexivity | vm_compute; reflexivity].
Qed.

(** ** The store as a dictionary: no code twice *)

Lemma filter_keeps_nodup {V : Type} (f : string * V -> bool) (d : Dict.dict V) :
  NoDup (Dict.keys d) -> NoDup (Dict.keys (filter f d)).
Proof.
  unfold Dict.keys. induction d as [|[k v] d IH]; simpl; [auto|].
  intros Hnd. inversion Hnd as [|? ? Hk Hd]; subst.
  destruct (f (k, v)); simpl; auto.
  constructor; auto. intros Hin. apply Hk.
  apply in_map_iff in Hin. destruct Hin as (e & He & Hin).
  apply filter_In in Hin. apply in_map_iff. exists e. tauto.
Qed.

Lemma filter_absent {V : Type} (k : string) (d : Dict.dict V) :
  ~ In k (Dict.keys d) ->
  filter (fun e => negb (String.eqb k (fst e))) d = d.
Proof.
  induction d as [|[k' v'] d IH]; simpl; [auto|]. intros Hn.
  destruct (String.eqb k k') eqn:E.
  - apply String.eqb_eq in E. subst. tauto.
  - simpl. f_equal. apply IH. tauto.
Qed.

Lemma del_is_filter {V : Type} (k : string) (d : Dict.dict V) :
  NoDup (Dict.keys d) ->
  Dict.del k d = filter (fun e => negb (String.eqb k (fst e))) d.
Proof.
  induction d as [|[k' v'] d IH]; simpl; [auto|]. intros Hnd.
  inversion Hnd as [|? ? Hk Hd]; subst.
  destruct (String.eqb k k') eqn:E; simpl.
  - apply String.eqb_eq in E. subst k'. symmetry. now apply filter_absent.
  - f_equal. now apply IH.
Qed.

Lemma guarded_del_is_filter {V : Type} (k : string) (d : Dict.dict V) :
  NoDup (Dict.keys d) ->
  (if Dict.contains k d then Dict.del k d else d)
  = filter (fun e => negb (String.eqb k (fst e))) d.
Proof.
  intros Hnd. destruct (Dict.contains k d) eqn:E.
  - now apply del_is_filter.
  - symmetry. apply filter_absent. rewrite <- contains_in_keys. congruence.
Qed.

Lemma set_keeps_nodup {V : Type} (k : string) (v : V) (d : Dict.dict V) :
  NoDup (Dict.keys d) -> NoDup (Dict.keys (Dict.set k v d)).
Proof.
  intros Hnd. destruct (in_dec string_dec k (Dict.keys d)) as [Hin|Hout].
  - now rewrite keys_set_present.
  - rewrite keys_set_absent by assumption.
    apply NoDup_app; auto.
    + constructor; [intros [] | constructor].
    + intros c Hc [<-|[]]. contradiction.
Qed.

Lemma set_absent {V : Type} (k : string) (v : V) (d : Dict.dict V) :
  ~ In k (Dict.keys d) -> Dict.set k v d = d ++ [(k, v)].
Proof.
  induction d as [|[k' v'] d IH]; simpl; [auto|]. intros Hn.
  destruct (String.eqb k k') eqn:E.
  - apply String.eqb_eq in E. subst. tauto.
  - f_equal. apply IH. tauto.
Qed.

(** The loop of [delete_selected], read as one filter. *)
Lemma delete_loop_is_filter (d0 : Dict.dict stock_info) (selected : list nat) :
  forall d : Dict.dict stock_info,
    NoDup (Dict.keys d) ->
    fold_left
      (fun d i =>
         match nth_error (map item_of d0) i with
         | Some it =>
             match values it with
             | code :: _ => if Dict.contains code d then Dict.del code d else d
             | [] => d
             end
         | None => d
         end) selected d
    = filter (fun e => negb (mem (fst e) (codes_at (Dict.keys d0) selected))) d.
Proof.
  induction selected as [|i sel IH]; intros d Hnd.
  - simpl. symmetry. apply forallb_filter_id. now apply forallb_forall.
  - cbn [fold_left codes_at flat_map]. fold (codes_at (Dict.keys d0) sel).
    unfold Dict.keys at 1. rewrite !nth_error_map.
    destruct (nth_error d0 i) as [[c st]|]; cbn [option_map fst].
    + cbn [item_of values fields]. rewrite (guarded_del_is_filter c d Hnd).
      rewrite IH by now apply filter_keeps_nodup.
      clear. induction d as [|[k v] d IHd]; simpl; [reflexivity|].
      rewrite (String.eqb_sym c k).
      destruct (String.eqb k c); simpl; rewrite IHd; reflexivity.
    + now apply IH.
Qed.

Lemma delete_loop_keeps_nodup (tr : list item) (selected : list nat) :
  forall d : Dict.dict stock_info,
    NoDup (Dict.keys d) ->
    NoDup (Dict.keys
             (fold_left
                (fun d i =>
                   match nth_error tr i with
                   | Some it =>
                       match values it with
                       | code :: _ =>
                           if Dict.contains code d then Dict.del code d else d
                       | [] => d
                       end
                   | None => d
                   end) selected d)).
Proof.
  induction selected as [|i sel IH]; intros d Hnd; simpl; [exact Hnd|].
  apply IH. destruct (nth_error tr i) as [it|]; auto.
  destruct (values it) as [|code vs]; auto.
  rewrite guarded_del_is_filter by assumption. now apply filter_keeps_nodup.
Qed.

Lemma step_keeps_nodup (ev : event) (a a' : app) :
  step ev a = Some a' ->
  NoDup (Dict.keys (stocks a)) -> NoDup (Dict.keys (stocks a')).
Proof.
  destruct ev; simpl; intros Hstep Hinv; try (injection Hstep as <-).
  - exact Hinv.
  - now rewrite add_stock_stocks.
  - destruct (refresh_all_stocks_spec a) as (_ & -> & _). exact Hinv.
  - now rewrite toggle_auto_refresh_stocks.
  - exact Hinv.
  - now rewrite spin_interval_stocks.
  - unfold delete_selected. destruct selected as [|i sel]; [exact Hinv|].
    rewrite save_stocks_stocks. cbn [stocks update_table with_tree with_stocks].
    now apply delete_loop_keeps_nodup.
  - unfold clear_all. destruct yes; [|exact Hinv].
    rewrite save_stocks_stocks. constructor.
  - now rewrite export_data_stocks.
  - destruct (take_nth i (timers a)) as [[ms rest]|]; [|discriminate].
    injection Hstep as <-. now rewrite schedule_refresh_stocks.
  - destruct (take_nth i (threads a)) as [[code rest]|]; [|discriminate].
    injection Hstep as <-.
    destruct (fetch_outcome code r now) as [info| | | | |] eqn:E.
    + rewrite (fetch_stock_success _ _ _ _ _ _ E). now apply set_keeps_nodup.
    + destruct (fetch_stock_failure code r now writable (with_threads rest a))
        as [d ->]; [now rewrite E | exact Hinv].
    + destruct (fetch_stock_failure code r now writable (with_threads rest a))
        as [d ->]; [now rewrite E | exact Hinv].
    + destruct (fetch_stock_failure code r now writable (with_threads rest a))
        as [d ->]; [now rewrite E | exact Hinv].
    + destruct (fetch_stock_failure code r now writable (with_threads rest a))
        as [d ->]; [now rewrite E | exact Hinv].
    + destruct (fetch_stock_failure code r now writable (with_threads rest a))
        as [d ->]; [now rewrite E | exact Hinv].
Qed.

Lemma reachable_nodup (a : app) : reachable a -> NoDup (Dict.keys (stocks a)).
Proof.
  apply (reachable_invariant (fun a => NoDup (Dict.keys (stocks a)))).
  - intros config a0 H. apply init_state in H.
    destruct H as (-> & _). constructor.
  - intros ev b b' Hb Hstep. eapply step_keeps_nodup; eauto.
Qed.

(** ** The flag and the saved list *)

(** X2. The attribute [auto_refresh_active] is [False] in every state the
    application can reach: it starts as [False] and the only assignment to
    it, in [toggle_auto_refresh], stores [False] again. *)
Theorem X2_auto_refresh_active_never_set (a : app) :
  reachable a -> auto_refresh_active a = false.
Proof.
  apply (reachable_invariant (fun a => auto_refresh_active a = false)).
  - intros config a0 H. apply init_state in H. tauto.
  - intros ev b b' Hb Hstep. eapply step_keeps_flag; eauto.
Qed.

Lemma X2_auto_refresh_active_never_set_witness :
  exists a,
    init None = Some a
    /\ option_map auto_refresh_active
         (run [ClickAutoRefresh; ClickAutoRefresh; ClickAutoRefresh] a)
       = Some false.
Proof.
  eexists. split; [reflexivity|].
  destruct (run [ClickAutoRefresh; ClickAutoRefresh; ClickAutoRefresh]
              (mk_app [] None false 30000 EmptyString false "30" [] [] [] [] []))
    as [b|] eqn:E; [|discriminate].
  simpl. f_equal.
  apply (X2_auto_refresh_active_never_set b).
  exists None. eexists. eexists. split; [reflexivity | exact E].
Defined.

Lemma init_of_saved_list (codes : list string) :
  exists a0,
    init (Some (dumps_codes codes)) = Some a0
    /\ threads a0 = codes /\ stocks a0 = [] /\ dialogs a0 = [].
Proof.
  unfold init, load_stocks. cbn [config_file].
  rewrite loads_dumps_codes. cbn [iterate]. rewrite texts_strings.
  eexists. split; [reflexivity|].
  set (b := mk_app [] (Some (dumps_codes codes)) false 30000 EmptyString false
              "30" [] [] [] [] []).
  destruct (start_all_threads codes b) as (Ht & Hs & _ & Hd & _).
  rewrite Ht, Hs, Hd. auto.
Qed.

Lemma save_stocks_writes (a : app) :
  config_file (save_stocks true a) = Some (dumps_codes (Dict.keys (stocks a))).
Proof. reflexivity. Qed.

(** X3. Whenever an event changes [self.stocks] and its write to disk
    succeeds, the config file holds exactly the tracked codes in display
    order; starting the application again on that file starts one fetch
    per tracked code, in that order, with an empty store. *)
Theorem X3_restart_fetches_the_tracked_codes (ev : event) (a a' : app) :
  step ev a = Some a' ->
  writes_succeed ev = true ->
  stocks a' <> stocks a ->
  config_file a' = Some (dumps_codes (Dict.keys (stocks a')))
  /\ exists a0,
      init (config_file a') = Some a0
      /\ threads a0 = Dict.keys (stocks a')
      /\ stocks a0 = [].
Proof.
  intros Hstep Hw Hchg.
  assert (Hfile : config_file a' = Some (dumps_codes (Dict.keys (stocks a')))).
  { destruct ev; simpl in Hstep, Hw; try (injection Hstep as <-).
    - now contradiction Hchg.
    - contradiction Hchg. apply add_stock_stocks.
    - contradiction Hchg. apply refresh_all_stocks_spec.
    - contradiction Hchg. now rewrite toggle_auto_refresh_stocks.
    - now contradiction Hchg.
    - contradiction Hchg. apply spin_interval_stocks.
    - subst writable. unfold delete_selected in *.
      destruct selected as [|i sel]; [now contradiction Hchg|].
      rewrite save_stocks_writes, save_stocks_stocks. reflexivity.
    - subst writable. unfold clear_all in *.
      destruct yes; [|now contradiction Hchg]. reflexivity.
    - contradiction Hchg. apply export_data_stocks.
    - destruct (take_nth i (timers a)) as [[ms rest]|]; [|discriminate].
      injection Hstep as <-. contradiction Hchg.
      now rewrite schedule_refresh_stocks.
    - destruct (take_nth i (threads a)) as [[code rest]|]; [|discriminate].
      injection Hstep as <-. subst writable.
      destruct (fetch_outcome code r now) as [info| | | | |] eqn:E;
        try (contradiction Hchg;
             destruct (fetch_stock_failure code r now true (with_threads rest a))
               as [d ->]; [now rewrite E | reflexivity]).
      unfold fetch_stock. rewrite E. reflexivity. }
  split; [exact Hfile|]. rewrite Hfile.
  destruct (init_of_saved_list (Dict.keys (stocks a'))) as (a0 & H0 & Ht & Hs & _).
  eauto.
Qed.

Lemma X3_restart_fetches_the_tracked_codes_witness :
  exists a0,
    init (config_file
            (fetch_stock "2454" (Body (Some [Sample.row_2330]) None)
               Sample.at_11 true Sample.two_tracked)) = Some a0
    /\ threads a0 = ["2330"; "0050"; "2454"]%string.
Proof.
  destruct (X3_restart_fetches_the_tracked_codes
              (ThreadRuns 0 (Body (Some [Sample.row_2330]) None) Sample.at_11 true)
              (with_threads ["2454"%string] Sample.two_tracked)
              (fetch_stock "2454" (Body (Some [Sample.row_2330]) None)
                 Sample.at_11 true Sample.two_tracked))
    as (_ & a0 & H0 & Ht & _).
  - reflexivity.
  - reflexivity.
  - discriminate.
  - exists a0. split; [exact H0 | exact Ht].
Defined.

(** ** Deleting and clearing *)

Lemma get_after_filter (gone : list string) (c : string)
      (d : Dict.dict stock_info) :
  Dict.get c (filter (fun e => negb (mem (fst e) gone)) d)
  = if mem c gone then None else Dict.get c d.
Proof.
  induction d as [|[k v] d IH]; simpl; [now destruct (mem c gone)|].
  destruct (String.eqb c k) eqn:E.
  - apply String.eqb_eq in E. subst k.
    destruct (mem c gone) eqn:Em; simpl; [exact IH|].
    now rewrite String.eqb_refl.
  - destruct (mem k gone); simpl; [exact IH|]. now rewrite E.
Qed.

Lemma delete_selected_stocks (selected : list nat) (w : bool) (a : app) :
  reachable a ->
  selected <> [] ->
  stocks (delete_selected selected w a)
  = filter (fun e => negb (mem (fst e) (codes_at (Dict.keys (stocks a)) selected)))
      (stocks a).
Proof.
  intros Hr Hsel. unfold delete_selected.
  destruct selected as [|i sel]; [contradiction|].
  rewrite save_stocks_stocks. cbn [stocks update_table with_tree with_stocks].
  rewrite (reachable_table a Hr).
  apply delete_loop_is_filter. now apply reachable_nodup.
Qed.

(** X4. [delete_selected] removes exactly the entries shown on the
    selected lines: every other entry stays, in order and with its record;
    the table is redrawn, the tracked codes are saved again when the disk
    allows, and no fetch in flight is touched.  With nothing selected it
    only warns. *)
Theorem X4_delete_removes_the_selected_lines
        (selected : list nat) (w : bool) (a : app) :
  reachable a ->
  let gone := codes_at (Dict.keys (stocks a)) selected in
  let a' := delete_selected selected w a in
  (selected = [] -> a' = show WarnNoSelection a)
  /\ (selected <> [] ->
      stocks a' = filter (fun e => negb (mem (fst e) gone)) (stocks a)
      /\ (forall c, Dict.get c (stocks a')
                    = if mem c gone then None else Dict.get c (stocks a))
      /\ tree a' = map item_of (stocks a')
      /\ (w = true ->
          config_file a' = Some (dumps_codes (Dict.keys (stocks a'))))
      /\ threads a' = threads a).
Proof.
  intros Hr gone a'. split.
  - intros ->. reflexivity.
  - intros Hsel.
    pose proof (delete_selected_stocks selected w a Hr Hsel) as Hs.
    fold gone a' in Hs.
    split; [exact Hs|]. split; [intros c; rewrite Hs; apply get_after_filter|].
    split; [|split].
    + apply (delete_selected_frame selected w a). now apply reachable_table.
    + intros ->. unfold a', delete_selected.
      destruct selected as [|i sel]; [contradiction|].
      rewrite save_stocks_writes, save_stocks_stocks. reflexivity.
    + apply (delete_selected_frame selected w a).
Qed.

Lemma X4_delete_removes_the_selected_lines_witness :
  reachable Sample.one_tracked
  /\ stocks (delete_selected [0%nat] true Sample.one_tracked) = [].
Proof.
  split; [exact reachable_one_tracked|].
  destruct (X4_delete_removes_the_selected_lines
              [0%nat] true Sample.one_tracked reachable_one_tracked)
    as (_ & H).
  destruct H as (Hs & _); [discriminate|].
  rewrite Hs. reflexivity.
Defined.

(** Text without white space is left alone by [strip], and digits by
    [upper]. *)
Lemma digit_not_space (c : ascii) : isdigit c = true -> isspace c = false.
Proof. by_cases_on_char c. Qed.

Lemma upper_char_digit (c : ascii) : isdigit c = true -> upper_char c = c.
Proof. by_cases_on_char c. Qed.

Lemma lstrip_spaces (sp : ascii -> bool) (pre s : string) :
  forallb_chars sp pre = true ->
  lstrip_by sp (pre ++ s) = lstrip_by sp s.
Proof.
  induction pre as [|c pre IH]; simpl; [reflexivity|].
  intros H. apply andb_true_iff in H. destruct H as [-> H]. now apply IH.
Qed.

Lemma rstrip_all_spaces (sp : ascii -> bool) (post : string) :
  forallb_chars sp post = true -> rstrip_by sp post = EmptyString.
Proof.
  induction post as [|c post IH]; simpl; [reflexivity|].
  intros H. apply andb_true_iff in H. destruct H as [Hc H].
  now rewrite (IH H), Hc.
Qed.

Lemma rstrip_spaces (sp : ascii -> bool) (s post : string) :
  forallb_chars sp post = true ->
  rstrip_by sp (s ++ post) = rstrip_by sp s.
Proof.
  intros H. induction s as [|c s IH]; simpl.
  - now apply rstrip_all_spaces.
  - now rewrite IH.
Qed.

Lemma lstrip_digits (s : string) :
  forallb_chars isdigit s = true -> lstrip_by isspace s = s.
Proof.
  destruct s as [|c s]; simpl; [reflexivity|].
  intros H. apply andb_true_iff in H. destruct H as [Hc _].
  now rewrite (digit_not_space c Hc).
Qed.

Lemma rstrip_digits (s : string) :
  forallb_chars isdigit s = true -> rstrip_by isspace s = s.
Proof.
  induction s as [|c s IH]; simpl; [reflexivity|].
  intros H. apply andb_true_iff in H. destruct H as [Hc Hs].
  rewrite (IH Hs). destruct s; [|reflexivity].
  now rewrite (digit_not_space c Hc).
Qed.

Lemma upper_digits (s : string) :
  forallb_chars isdigit s = true -> upper s = s.
Proof.
  unfold upper. induction s as [|c s IH]; simpl; [reflexivity|].
  intros H. apply andb_true_iff in H. destruct H as [Hc Hs].
  now rewrite (upper_char_digit c Hc), (IH Hs).
Qed.

Lemma well_formed_digits (code : string) :
  well_formed code = true -> forallb_chars isdigit code = true.
Proof.
  unfold well_formed, str_isdigit. intros H.
  apply andb_true_iff in H. destruct H as [H _]. now destruct code.
Qed.

(** White space around a well-formed code is dropped, and nothing else
    changes. *)
Lemma normalise_padded (pre code post : string) :
  forallb_chars isspace pre = true ->
  forallb_chars isspace post = true ->
  well_formed code = true ->
  upper (strip (pre ++ code ++ post)) = code.
Proof.
  intros Hpre Hpost Hwf. pose proof (well_formed_digits code Hwf) as Hd.
  unfold strip, strip_by.
  rewrite (lstrip_spaces isspace pre _ Hpre).
  assert (Hl : lstrip_by isspace (code ++ post) = (code ++ post)%string).
  { destruct code as [|c code]; [discriminate|]. simpl in Hd |- *.
    apply andb_true_iff in Hd. destruct Hd as [Hc _].
    now rewrite (digit_not_space c Hc). }
  rewrite Hl, (rstrip_spaces isspace code post Hpost), (rstrip_digits code Hd).
  now apply upper_digits.
Qed.

Lemma add_stock_accepts (a : app) (code : string) :
  upper (strip (stock_input a)) = code ->
  well_formed code = true ->
  Dict.contains code (stocks a) = false ->
  add_stock a = with_stock_input EmptyString (start_fetch code a).
Proof.
  intros Hn Hwf Hout. unfold add_stock. rewrite Hn.
  rewrite (well_formed_not_empty code Hwf).
  unfold well_formed in Hwf. apply andb_true_iff in Hwf. destruct Hwf as [-> ->].
  simpl. now rewrite Hout.
Qed.

(** X5. After a tracked code has been deleted, an add request for it is
    accepted like a first one: nothing is left of the code that would
    make [add_stock] refuse it as a duplicate. *)
Theorem X5_deleted_code_can_be_added_again
        (a : app) (i : nat) (code : string) (w : bool) :
  reachable a ->
  nth_error (Dict.keys (stocks a)) i = Some code ->
  well_formed code = true ->
  let a1 := with_stock_input code (delete_selected [i] w a) in
  Dict.contains code (stocks a1) = false
  /\ add_stock a1 = with_stock_input EmptyString (start_fetch code a1)
  /\ threads (add_stock a1) = threads a ++ [code].
Proof.
  intros Hr Hi Hwf a1.
  assert (Hout : Dict.contains code (stocks a1) = false).
  { unfold a1. cbn [stocks with_stock_input].
    rewrite (delete_selected_stocks [i] w a Hr) by discriminate.
    unfold Dict.contains. rewrite get_after_filter.
    cbn [codes_at flat_map]. rewrite Hi. simpl.
    now rewrite String.eqb_refl. }
  assert (Hadd : add_stock a1 = with_stock_input EmptyString (start_fetch code a1)).
  { apply add_stock_accepts; auto.
    unfold a1. cbn [stock_input with_stock_input].
    pose proof (well_formed_digits code Hwf) as Hd.
    unfold strip, strip_by.
    now rewrite (lstrip_digits code Hd), (rstrip_digits code Hd), upper_digits. }
  split; [exact Hout|]. split; [exact Hadd|].
  rewrite Hadd. unfold a1. cbn [threads with_stock_input start_fetch with_threads].
  f_equal. apply (delete_selected_frame [i] w a).
Qed.

Lemma X5_deleted_code_can_be_added_again_witness :
  threads (add_stock (with_stock_input "2330"
                        (delete_selected [0%nat] true Sample.one_tracked)))
  = ["2330"%string].
Proof.
  apply (X5_deleted_code_can_be_added_again
           Sample.one_tracked 0 "2330" true reachable_one_tracked);
    reflexivity.
Defined.

(** X6. Clearing or deleting cancels no fetch in flight.  A fetch that
    was started before [clear_all] and ends with a quote after it puts its
    code back in the store, alone; one that ends after its code was deleted
    puts the code back below the entries that were kept. *)
Theorem X6_fetch_in_flight_survives_clear_and_delete
        (a : app) (i : nat) (code : string) (rest : list string)
        (r : response) (now : string) (info : stock_info) (w1 w2 : bool) :
  reachable a ->
  take_nth i (threads a) = Some (code, rest) ->
  fetch_outcome code r now = Quote info ->
  (exists a',
      run [PressClear true w1; ThreadRuns i r now w2] a = Some a'
      /\ stocks a' = [(code, info)]
      /\ tree a' = [item_of (code, info)])
  /\ (forall selected,
         selected <> [] ->
         mem code (codes_at (Dict.keys (stocks a)) selected) = true ->
         exists a',
           run [PressDelete selected w1; ThreadRuns i r now w2] a = Some a'
           /\ stocks a'
              = filter
                  (fun e => negb (mem (fst e)
                                    (codes_at (Dict.keys (stocks a)) selected)))
                  (stocks a) ++ [(code, info)]).
Proof.
  intros Hr Htake Hq. split.
  - cbn [run step].
    destruct (clear_all_frame true w1 a) as (_ & _ & Ht & _).
    rewrite Ht, Htake. eexists. split; [reflexivity|].
    rewrite (fetch_stock_success _ _ _ _ _ _ Hq).
    cbn [stocks with_threads]. unfold clear_all. rewrite save_stocks_stocks.
    split; [reflexivity|].
    unfold fetch_stock. rewrite Hq. now destruct w2, w1.
  - intros selected Hsel Hgone. cbn [run step].
    destruct (delete_selected_frame selected w1 a) as (_ & _ & Ht & _).
    rewrite Ht, Htake. eexists. split; [reflexivity|].
    rewrite (fetch_stock_success _ _ _ _ _ _ Hq).
    cbn [stocks with_threads].
    rewrite (delete_selected_stocks selected w1 a Hr Hsel).
    apply set_absent. rewrite <- contains_in_keys.
    unfold Dict.contains. rewrite get_after_filter, Hgone. discriminate.
Qed.

Lemma X6_fetch_in_flight_survives_clear_and_delete_witness :
  exists a',
    run [PressClear true true;
         ThreadRuns 0 (Body (Some [Sample.row_2330]) None) Sample.at_10 true]
      (refresh_all_stocks Sample.one_tracked) = Some a'
    /\ stocks a' = [("2330"%string, Sample.info_2330)].
Proof.
  assert (Hr : reachable (refresh_all_stocks Sample.one_tracked)).
  { exists None. eexists. exists (Sample.first_fetch ++ [PressRefresh]).
    split; [reflexivity | vm_compute; reflexivity]. }
  destruct (X6_fetch_in_flight_survives_clear_and_delete
              (refresh_all_stocks Sample.one_tracked) 0 "2330" []
              (Body (Some [Sample.row_2330]) None) Sample.at_10
              Sample.info_2330 true true Hr eq_refl eq_refl)
    as ((a' & Hrun & Hs & _) & _).
  exists a'. split; [exact Hrun | exact Hs].
Defined.

(** ** Which codes are ever fetched *)

Lemma take_nth_in {A : Type} (i : nat) (l rest : list A) (x : A) :
  take_nth i l = Some (x, rest) ->
  In x l /\ forall y, In y rest -> In y l.
Proof.
  revert i rest. induction l as [|z l IH]; intros i rest.
  - destruct i; discriminate.
  - destruct i as [|j]; simpl.
    + intros [= -> ->]. split; [now left | intros y Hy; now right].
    + destruct (take_nth j l) as [[u rest']|] eqn:E; [|intros [=]].
      intros [= -> <-]. destruct (IH _ _ E) as [Hx Hrest].
      split; [now right|]. intros y [<-|Hy]; [now left | right; auto].
Qed.

Lemma schedule_refresh_threads (a : app) (c : string) :
  In c (threads (schedule_refresh a)) ->
  In c (threads a) \/ In c (Dict.keys (stocks a)).
Proof.
  unfold schedule_refresh. destruct (auto_refresh_var a); [|auto].
  cbn [threads after with_timers].
  destruct (refresh_all_stocks_spec a) as (-> & _).
  apply in_app_or.
Qed.

Lemma keys_of_set {V : Type} (k c : string) (v : V) (d : Dict.dict V) :
  In c (Dict.keys (Dict.set k v d)) -> c = k \/ In c (Dict.keys d).
Proof.
  destruct (in_dec string_dec k (Dict.keys d)) as [Hin|Hout].
  - rewrite keys_set_present by assumption. auto.
  - rewrite keys_set_absent by assumption. intros H.
    apply in_app_or in H. destruct H as [H|[<-|[]]]; auto.
Qed.

(** Where the codes of a state come from: a fetch is started for a code
    that [add_stock] has accepted or that is tracked; a code is tracked
    because a fetch for it was started. *)
Lemma step_codes (ev : event) (a a' : app) :
  step ev a = Some a' ->
  (forall c, In c (threads a') ->
             In c (threads a) \/ In c (Dict.keys (stocks a))
             \/ well_formed c = true)
  /\ (forall c, In c (Dict.keys (stocks a')) ->
                In c (Dict.keys (stocks a)) \/ In c (threads a)).
Proof.
  destruct ev; simpl; intros Hstep; try (injection Hstep as <-).
  - simpl. auto.
  - rewrite add_stock_stocks. split; [|auto]. intros c.
    destruct (add_stock_cases a) as [[d ->]|(Hwf & _ & ->)]; simpl; [auto|].
    intros H. apply in_app_or in H. destruct H as [H|[<-|[]]]; auto.
  - destruct (refresh_all_stocks_spec a) as (-> & -> & _). split; [|auto].
    intros c H. apply in_app_or in H. tauto.
  - rewrite toggle_auto_refresh_stocks. simpl. split; [|auto].
    intros c. unfold toggle_auto_refresh.
    destruct (negb (auto_refresh_var a)) eqn:E; cbn [auto_refresh_var with_auto_refresh_var];
      rewrite ?E; [|simpl; auto].
    intros H. apply schedule_refresh_threads in H. simpl in H. tauto.
  - simpl. auto.
  - rewrite spin_interval_stocks. split; [|auto]. intros c.
    unfold spin_interval.
    destruct (Spin spin_from spin_to dir (interval_var a)) as [text|]; [|auto].
    unfold update_refresh_interval.
    destruct (py_int (interval_var (with_interval_var text a))) as [n|]; [|auto].
    destruct (auto_refresh_var
                (with_refresh_interval (n * 1000) (with_interval_var text a)));
      [|simpl; auto].
    intros H. apply schedule_refresh_threads in H. simpl in H. tauto.
  - destruct (delete_selected_frame selected writable a) as (_ & _ & -> & _).
    split; [auto|]. intros c Hc. left.
    unfold Dict.keys in *. apply in_map_iff in Hc.
    destruct Hc as (e & <- & He). apply in_map.
    unfold delete_selected in He. destruct selected as [|i sel]; [exact He|].
    rewrite save_stocks_stocks in He.
    cbn [stocks update_table with_tree with_stocks] in He.
    eapply delete_keeps_entries. exact He.
  - destruct (clear_all_frame yes writable a) as (_ & _ & -> & _).
    split; [auto|]. intros c Hc. left. unfold clear_all in Hc.
    destruct yes; [|exact Hc]. rewrite save_stocks_stocks in Hc. destruct Hc.
  - destruct (export_data_frame file_path writable a)
      as (-> & _ & _ & _ & -> & _). auto.
  - destruct (take_nth i (timers a)) as [[ms rest]|]; [|discriminate].
    injection Hstep as <-. rewrite schedule_refresh_stocks. simpl.
    split; [|auto]. intros c H. apply schedule_refresh_threads in H.
    simpl in H. tauto.
  - destruct (take_nth i (threads a)) as [[code rest]|] eqn:Et; [|discriminate].
    injection Hstep as <-. destruct (take_nth_in _ _ _ _ Et) as [Hcode Hrest].
    destruct (fetch_stock_frame code r now writable (with_threads rest a))
      as (_ & _ & -> & _).
    split; [intros c Hc; left; apply Hrest; exact Hc|].
    intros c Hc.
    destruct (fetch_outcome code r now) as [info| | | | |] eqn:E;
      try (destruct (fetch_stock_failure code r now writable (with_threads rest a))
             as [d Hd]; [now rewrite E|]; rewrite Hd in Hc; left; exact Hc).
    rewrite (fetch_stock_success _ _ _ _ _ _ E) in Hc.
    apply keys_of_set in Hc. destruct Hc as [->|Hc]; [right; exact Hcode | left; exact Hc].
Qed.

(** X7. When the application starts with no config file, or with one
    that lists only four-digit codes, and the text typed into the code
    entry is ASCII, every fetch it ever starts and every code it ever tracks
    is a code of four ASCII digits: [add_stock] lets nothing else in, and a
    refresh only repeats tracked codes.  (Of typed text beyond ASCII the
    embedding says nothing; a config file with an escape beyond [\u00ff]
    has no start-up in it.) *)
Theorem X7_only_well_formed_codes_are_fetched
        (config : option string) (a0 a : app) (evs : list event) :
  init config = Some a0 ->
  Forall (fun c => well_formed c = true) (threads a0) ->
  forallb typed_ascii evs = true ->
  run evs a0 = Some a ->
  Forall (fun c => well_formed c = true) (threads a)
  /\ Forall (fun c => well_formed c = true) (Dict.keys (stocks a)).
Proof.
  intros Hinit H0 _ Hrun.
  assert (Hstart : Forall (fun c => well_formed c = true) (threads a0)
                   /\ Forall (fun c => well_formed c = true) (Dict.keys (stocks a0))).
  { split; [exact H0|]. apply init_state in Hinit.
    destruct Hinit as (-> & _). constructor. }
  clear Hinit H0. revert a0 Hstart Hrun.
  induction evs as [|ev evs IH]; simpl; intros a0 Hstart.
  - now intros [= <-].
  - destruct (step ev a0) as [a1|] eqn:E; [|discriminate].
    apply IH. destruct Hstart as [Ht Hk]. rewrite Forall_forall in Ht, Hk.
    destruct (step_codes ev a0 a1 E) as [Hth Hst].
    split; apply Forall_forall; intros c Hc.
    + destruct (Hth c Hc) as [H|[H|H]]; auto.
    + destruct (Hst c Hc) as [H|H]; auto.
Qed.

Lemma X7_only_well_formed_codes_are_fetched_witness :
  Forall (fun c => well_formed c = true) (Dict.keys (stocks Sample.one_tracked)).
Proof.
  apply (X7_only_well_formed_codes_are_fetched
           None (mk_app [] None false 30000 EmptyString false "30" [] [] [] [] [])
           Sample.one_tracked Sample.first_fetch).
  - reflexivity.
  - constructor.
  - reflexivity.
  - vm_compute. reflexivity.
Defined.

(** ** Timers while auto-refresh is off *)

Lemma spin_interval_off (dir : direction) (a : app) :
  auto_refresh_var a = false ->
  auto_refresh_var (spin_interval dir a) = false
  /\ timers (spin_interval dir a) = timers a
  /\ threads (spin_interval dir a) = threads a.
Proof.
  intros Hoff. unfold spin_interval.
  destruct (Spin spin_from spin_to dir (interval_var a)) as [text|]; [|auto].
  unfold update_refresh_interval.
  destruct (py_int (interval_var (with_interval_var text a))) as [n|]; [|auto].
  cbn [auto_refresh_var with_refresh_interval with_interval_var].
  rewrite Hoff. simpl. auto.
Qed.

(** X8. While the auto-refresh checkbox is off, nothing but a click on
    it arms a timer: every other event leaves the checkbox off and the
    armed timers as they are, except that a timer which fires is used up
    -- it starts no fetch and arms no successor. *)
Theorem X8_no_timer_is_armed_while_off (ev : event) (a a' : app) :
  step ev a = Some a' ->
  auto_refresh_var a = false ->
  is_click ev = false ->
  auto_refresh_var a' = false
  /\ match ev with
     | TimerFires i =>
         exists ms, take_nth i (timers a) = Some (ms, timers a')
                    /\ threads a' = threads a /\ stocks a' = stocks a
     | _ => timers a' = timers a
     end
  /\ (List.length (timers a') <= List.length (timers a))%nat.
Proof.
  intros Hstep Hoff Hclick.
  assert (H : auto_refresh_var a' = false
              /\ match ev with
                 | TimerFires i =>
                     exists ms, take_nth i (timers a) = Some (ms, timers a')
                                /\ threads a' = threads a /\ stocks a' = stocks a
                 | _ => timers a' = timers a
                 end
              /\ (timers a' = timers a
                  \/ exists i ms, take_nth i (timers a) = Some (ms, timers a'))).
  { destruct ev; simpl in Hstep, Hclick |- *; try discriminate;
      try (injection Hstep as <-).
    - simpl. auto.
    - destruct (add_stock_frame a) as (_ & _ & _ & _ & _ & -> & ->). auto.
    - destruct (refresh_all_stocks_spec a) as (_ & _ & _ & _ & -> & _ & ->). auto.
    - simpl. auto.
    - destruct (spin_interval_off dir a Hoff) as (-> & -> & _). auto.
    - destruct (delete_selected_frame selected writable a)
        as (_ & _ & _ & -> & ->). auto.
    - destruct (clear_all_frame yes writable a) as (_ & _ & _ & -> & ->). auto.
    - destruct (export_data_frame file_path writable a)
        as (_ & _ & _ & _ & _ & -> & -> & _). auto.
    - destruct (take_nth i (timers a)) as [[ms rest]|] eqn:E; [|discriminate].
      injection Hstep as <-. unfold schedule_refresh.
      cbn [auto_refresh_var with_timers]. rewrite Hoff. simpl.
      split; [exact Hoff|]. split; [exists ms; auto|].
      right. eauto.
    - destruct (take_nth i (threads a)) as [[code rest]|]; [|discriminate].
      injection Hstep as <-.
      destruct (fetch_stock_frame code r now writable (with_threads rest a))
        as (_ & _ & _ & -> & ->).
      simpl. auto. }
  destruct H as (H1 & H2 & H3). split; [exact H1|]. split; [exact H2|].
  destruct H3 as [->|(i & ms & Ht)]; [lia|].
  rewrite (take_nth_length _ _ _ _ Ht). lia.
Qed.

Lemma X8_no_timer_is_armed_while_off_witness :
  exists a',
    step (TimerFires 0) (with_auto_refresh_var false Sample.auto_on) = Some a'
    /\ timers a' = [] /\ auto_refresh_var a' = false.
Proof.
  eexists. split; [reflexivity|].
  destruct (X8_no_timer_is_armed_while_off (TimerFires 0)
              (with_auto_refresh_var false Sample.auto_on)
              (with_timers [] (with_auto_refresh_var false Sample.auto_on))
              eq_refl eq_refl eq_refl) as (Hv & _ & _).
  split; [reflexivity | exact Hv].
Defined.

(** ** What a fetch reads and where it writes *)

(** X9. [fetch_stock] reads the last row of [data] only: the rows before
    it, whatever they hold, do not change the outcome. *)
Theorem X9_only_the_last_row_is_read
        (code : string) (name : option string) (rows : list (list string))
        (latest : list string) (now : string) :
  fetch_outcome code (Body (Some (rows ++ [latest])) name) now
  = fetch_outcome code (Body (Some [latest]) name) now.
Proof.
  destruct rows as [|row rows]; [reflexivity|].
  cbn [fetch_outcome List.app]. now rewrite last_last.
Qed.

Lemma build_info_short (code : string) (name : option string)
      (latest : list string) (now : string) :
  (List.length latest < 8)%nat ->
  exists e, build_info code name latest now = Raise e.
Proof.
  intros Hlen.
  assert (H7 : nth_error latest 7 = None) by (apply nth_error_None; lia).
  unfold build_info, bind, cell, to_float, to_int. rewrite H7.
  destruct (nth_error latest 6) as [c6|]; [|eauto].
  destruct (py_float c6); eauto.
Qed.

(** X10. A last row with fewer than eight cells never gives a quote: the
    fetch ends in the error dialog and [self.stocks] stays as it was.  With
    fewer than seven cells the error is the [IndexError] of the first cell
    read, [latest[6]]. *)
Theorem X10_short_row_gives_no_quote
        (code : string) (name : option string) (row : list string)
        (rows : list (list string)) (now : string) :
  (List.length (last rows row) < 8)%nat ->
  (exists e,
      fetch_outcome code (Body (Some (row :: rows)) name) now = Malformed e
      /\ forall w a,
          fetch_stock code (Body (Some (row :: rows)) name) now w a
          = show (ErrorRaised e) a)
  /\ ((List.length (last rows row) < 7)%nat ->
      fetch_outcome code (Body (Some (row :: rows)) name) now
      = Malformed IndexError).
Proof.
  intros Hlen. split.
  - destruct (build_info_short code name (last rows row) now Hlen) as [e He].
    exists e. unfold fetch_stock, fetch_outcome. rewrite He. auto.
  - intros Hlen7.
    assert (H6 : nth_error (last rows row) 6 = None)
      by (apply nth_error_None; lia).
    unfold fetch_outcome, build_info, bind, cell. now rewrite H6.
Qed.

Lemma X10_short_row_gives_no_quote_witness :
  fetch_outcome "2330" (Body (Some [["115/11/04"; "12,345,678"]]) None)
    Sample.at_10
  = Malformed IndexError.
Proof.
  apply (proj2 (X10_short_row_gives_no_quote
                  "2330" None ["115/11/04"; "12,345,678"]%string []
                  Sample.at_10 ltac:(simpl; lia))).
  simpl. lia.
Defined.

(** X11. A fetch that ends with a quote writes it under its code: a code
    already tracked keeps its place in the list and only its record is
    replaced, a new code goes to the end; no other entry changes; the table
    is redrawn and, when the disk allows, the list of codes is saved. *)
Theorem X11_quote_replaces_in_place_or_appends
        (code : string) (r : response) (now : string) (w : bool)
        (info : stock_info) (a : app) :
  fetch_outcome code r now = Quote info ->
  let a' := fetch_stock code r now w a in
  (Dict.contains code (stocks a) = true ->
   Dict.keys (stocks a') = Dict.keys (stocks a))
  /\ (Dict.contains code (stocks a) = false ->
      stocks a' = stocks a ++ [(code, info)])
  /\ Dict.get code (stocks a') = Some info
  /\ (forall c, c <> code -> Dict.get c (stocks a') = Dict.get c (stocks a))
  /\ tree a' = map item_of (stocks a')
  /\ (w = true -> config_file a' = Some (dumps_codes (Dict.keys (stocks a')))).
Proof.
  intros Hq a'. unfold a'. rewrite (fetch_stock_success _ _ _ _ _ _ Hq).
  split; [|split; [|split; [|split; [|split]]]].
  - intros Hin. apply keys_set_present. now apply contains_in_keys.
  - intros Hout. apply set_absent. rewrite <- contains_in_keys. congruence.
  - apply get_set_same.
  - intros c Hc. apply get_set_other. congruence.
  - unfold fetch_stock. rewrite Hq. now destruct w.
  - intros ->. unfold fetch_stock. rewrite Hq. reflexivity.
Qed.

Lemma X11_quote_replaces_in_place_or_appends_witness :
  Dict.keys
    (stocks (fetch_stock "2330" (Body (Some [Sample.row_2330]) None)
               Sample.at_11 true Sample.two_tracked))
  = ["2330"; "0050"]%string.
Proof.
  apply (proj1 (X11_quote_replaces_in_place_or_appends
                  "2330" (Body (Some [Sample.row_2330]) None) Sample.at_11 true
                  (Sample.built
                     (build_info "2330" None Sample.row_2330 Sample.at_11))
                  Sample.two_tracked eq_refl)).
  reflexivity.
Defined.

(** ** Adding a code, again *)

Lemma set_replaces_last {V : Type} (k : string) (v1 v2 : V) (d : Dict.dict V) :
  ~ In k (Dict.keys d) ->
  Dict.set k v2 (d ++ [(k, v1)]) = d ++ [(k, v2)].
Proof.
  induction d as [|[k' v'] d IH]; simpl; intros Hn.
  - now rewrite String.eqb_refl.
  - destruct (String.eqb k k') eqn:E.
    + apply String.eqb_eq in E. subst. tauto.
    + f_equal. apply IH. tauto.
Qed.

(** X12. The duplicate test of [add_stock] looks at completed fetches
    only.  A well-formed code that is added twice before its first fetch
    has completed is fetched twice, with no warning; when both fetches end
    with a quote the code is tracked once, with the record of the fetch that
    completed last. *)
Theorem X12_pending_fetch_is_no_duplicate
        (a : app) (code : string) (r1 r2 : response) (t1 t2 : string)
        (w1 w2 : bool) (info1 info2 : stock_info) :
  well_formed code = true ->
  Dict.contains code (stocks a) = false ->
  fetch_outcome code r1 t1 = Quote info1 ->
  fetch_outcome code r2 t2 = Quote info2 ->
  let n := List.length (threads a) in
  (exists a1,
      run [TypeCode code; PressAdd; TypeCode code; PressAdd] a = Some a1
      /\ threads a1 = threads a ++ [code; code]
      /\ dialogs a1 = dialogs a /\ stocks a1 = stocks a)
  /\ (exists a2,
         run [TypeCode code; PressAdd; TypeCode code; PressAdd;
              ThreadRuns n r1 t1 w1; ThreadRuns n r2 t2 w2] a = Some a2
         /\ stocks a2 = stocks a ++ [(code, info2)]
         /\ threads a2 = threads a).
Proof.
  intros Hwf Hout Hq1 Hq2 n.
  pose proof (well_formed_digits code Hwf) as Hd.
  assert (Hnorm : upper (strip code) = code).
  { unfold strip, strip_by.
    now rewrite (lstrip_digits code Hd), (rstrip_digits code Hd), upper_digits. }
  set (b1 := with_stock_input EmptyString
               (start_fetch code (with_stock_input code a))).
  set (b2 := with_stock_input EmptyString
               (start_fetch code (with_stock_input code b1))).
  assert (H1 : add_stock (with_stock_input code a) = b1)
    by (apply add_stock_accepts; auto).
  assert (H2 : add_stock (with_stock_input code b1) = b2)
    by (apply add_stock_accepts; auto).
  assert (Ht : threads b2 = threads a ++ [code; code])
    by (simpl; now rewrite <- app_assoc).
  split.
  - exists b2. cbn [run step]. rewrite H1, H2. auto.
  - cbn [run step]. rewrite H1, H2, Ht.
    change [code; code] with (code :: [code]).
    unfold n. rewrite take_nth_middle.
    set (c1 := fetch_stock code r1 t1 w1 (with_threads (threads a ++ [code]) b2)).
    assert (Hc1 : threads c1 = threads a ++ [code]).
    { unfold c1.
      now destruct (fetch_stock_frame code r1 t1 w1
                      (with_threads (threads a ++ [code]) b2))
        as (_ & _ & -> & _). }
    rewrite Hc1, take_nth_middle. eexists. split; [reflexivity|]. split.
    + rewrite (fetch_stock_success _ _ _ _ _ _ Hq2). cbn [stocks with_threads].
      unfold c1. rewrite (fetch_stock_success _ _ _ _ _ _ Hq1).
      cbn [stocks with_threads b2 b1 with_stock_input start_fetch].
      assert (Hn : ~ In code (Dict.keys (stocks a)))
        by (rewrite <- contains_in_keys; congruence).
      rewrite (set_absent code info1 (stocks a) Hn).
      now apply set_replaces_last.
    + destruct (fetch_stock_frame code r2 t2 w2
                  (with_threads (threads a ++ []) c1)) as (_ & _ & -> & _).
      simpl. apply app_nil_r.
Qed.

Lemma X12_pending_fetch_is_no_duplicate_witness :
  exists a1,
    run [TypeCode "2454"; PressAdd; TypeCode "2454"; PressAdd] Sample.two_tracked
    = Some a1
    /\ threads a1 = ["2454"; "2454"]%string.
Proof.
  destruct (X12_pending_fetch_is_no_duplicate
              Sample.two_tracked "2454"
              (Body (Some [Sample.row_2330]) None)
              (Body (Some [Sample.row_0050]) None)
              Sample.at_10 Sample.at_11 true true
              (Sample.built (build_info "2454" None Sample.row_2330 Sample.at_10))
              (Sample.built (build_info "2454" None Sample.row_0050 Sample.at_11))
              eq_refl eq_refl eq_refl eq_refl)
    as ((a1 & Hrun & Ht & _) & _).
  exists a1. split; [exact Hrun | exact Ht].
Defined.

(** X13. [add_stock] ignores ASCII white space around the code: an entry
    that holds a code of four ASCII digits that is not tracked, with any
    ASCII white space before and after, starts one fetch for the bare code,
    empties the entry and shows nothing.  ASCII text whose stripped,
    upper-cased form is not four digits starts no fetch, keeps the entry and
    shows one warning: the one for a missing code when nothing is left, else
    the one for a malformed code.  (Of text beyond ASCII the embedding says
    nothing: Python strips further spaces and takes further digits.) *)
Theorem X13_add_stock_strips_and_validates (a : app) :
  (forall pre code post,
      forallb_chars isspace pre = true ->
      forallb_chars isspace post = true ->
      well_formed code = true ->
      Dict.contains code (stocks a) = false ->
      let b := with_stock_input (pre ++ code ++ post) a in
      threads (add_stock b) = threads a ++ [code]
      /\ stock_input (add_stock b) = EmptyString
      /\ dialogs (add_stock b) = dialogs a
      /\ stocks (add_stock b) = stocks a)
  /\ (is_ascii (stock_input a) = true ->
      well_formed (upper (strip (stock_input a))) = false ->
      threads (add_stock a) = threads a
      /\ stock_input (add_stock a) = stock_input a
      /\ dialogs (add_stock a)
         = dialogs a
             ++ [if String.eqb (upper (strip (stock_input a))) EmptyString
                 then WarnNoCode else WarnBadCode]).
Proof.
  split.
  - intros pre code post Hpre Hpost Hwf Hout b.
    assert (Hadd : add_stock b = with_stock_input EmptyString (start_fetch code b)).
    { apply add_stock_accepts; auto. unfold b. cbn [stock_input with_stock_input].
      now apply normalise_padded. }
    rewrite Hadd. simpl. auto.
  - intros _ Hbad. unfold add_stock.
    destruct (String.eqb (upper (strip (stock_input a))) EmptyString);
      [simpl; auto|].
    unfold well_formed in Hbad.
    destruct (str_isdigit (upper (strip (stock_input a)))); simpl in Hbad |- *;
      [|auto].
    rewrite Hbad. simpl. auto.
Qed.

Lemma X13_add_stock_strips_and_validates_witness :
  threads (add_stock (with_stock_input "  2454 " Sample.two_tracked))
  = ["2454"%string]
  /\ dialogs (add_stock (with_stock_input "24a4" Sample.two_tracked))
     = [WarnBadCode].
Proof.
  split.
  - apply (proj1 (X13_add_stock_strips_and_validates Sample.two_tracked)
             "  " "2454" " "); reflexivity.
  - apply (proj2 (X13_add_stock_strips_and_validates
                    (with_stock_input "24a4" Sample.two_tracked)));
      reflexivity.
Defined.

(** ** A config file with nothing in it *)

Lemma skip_ws_blank (text : string) :
  forallb_chars is_ws text = true -> skip_ws text = EmptyString.
Proof.
  induction text as [|c text IH]; simpl; [reflexivity|].
  intros H. apply andb_true_iff in H. destruct H as [-> H]. now apply IH.
Qed.

Lemma wide_escape_blank (text : string) :
  forallb_chars is_ws text = true -> wide_escape false text = false.
Proof.
  induction text as [|c text IH]; simpl; [reflexivity|].
  intros H. apply andb_true_iff in H. destruct H as [Hc H].
  assert (Hq : Ascii.eqb c dquote = false).
  { revert Hc. by_cases_on_char c. }
  rewrite Hq. now apply IH.
Qed.

(** X14. A config file that is empty or holds only white space is not a
    JSON document: [load_stocks] prints its failure message, starts no
    fetch, and the application starts with nothing tracked. *)
Theorem X14_blank_config_file_is_rejected (text : string) :
  forallb_chars is_ws text = true ->
  loads text = None
  /\ init (Some text)
     = Some (mk_app [] (Some text) false 30000 EmptyString false "30"
               [] [] [] [] [PrintLoadFailed]).
Proof.
  intros Hblank.
  assert (Hl : loads text = None).
  { unfold loads. rewrite (skip_ws_blank text Hblank). reflexivity. }
  split; [exact Hl|]. unfold init, load_stocks. cbn [config_file].
  now rewrite Hl, (wide_escape_blank text Hblank).
Qed.

Lemma X14_blank_config_file_is_rejected_witness :
  loads EmptyString = None /\ loads (" " ++ App.newline) = None.
Proof.
  split.
  - apply (proj1 (X14_blank_config_file_is_rejected EmptyString eq_refl)).
  - apply (proj1 (X14_blank_config_file_is_rejected (" " ++ App.newline) eq_refl)).
Defined.

(** ** The volume, printed and read back *)

Lemma N_of_digits_acc_pos (d : Decimal.uint) :
  forall acc : positive,
    N_of_digits_acc (N.pos acc) (NilEmpty.string_of_uint d)
    = N.pos (Pos.of_uint_acc d acc).
Proof.
  induction d; intros acc; cbn [NilEmpty.string_of_uint N_of_digits_acc Pos.of_uint_acc];
    [reflexivity | ..];
    rewrite <- IHd; f_equal;
    match goal with
    | |- context [digit_val ?c] =>
        let v := eval vm_compute in (digit_val c) in change (digit_val c) with v
    end;
    lia.
Qed.

Lemma N_of_digits_acc_zero (d : Decimal.uint) :
  N_of_digits_acc 0%N (NilEmpty.string_of_uint d) = Pos.of_uint d.
Proof.
  induction d; cbn [NilEmpty.string_of_uint N_of_digits_acc Pos.of_uint];
    [reflexivity | exact IHd | ..];
    apply (N_of_digits_acc_pos d).
Qed.

(** The decimal text of a number denotes that number. *)
Lemma N_of_digits_dec (n : N) : N_of_digits (dec_of_N n) = n.
Proof.
  unfold N_of_digits, dec_of_N. destruct n as [|p]; [reflexivity|].
  cbn [N.to_uint]. rewrite N_of_digits_acc_zero.
  apply DecimalPos.Unsigned.of_to.
Qed.

Lemma digit_not_underscore (c : ascii) :
  isdigit c = true ->
  Ascii.eqb c "_" = false /\ Ascii.eqb c "+" = false
  /\ isspace_num c = false.
Proof. by_cases_on_char c; intros _; repeat split; reflexivity. Qed.

Lemma scan_digits_all (ds : string) :
  forallb_chars isdigit ds = true -> scan_digits ds = (ds, EmptyString).
Proof.
  induction ds as [|c r IH]; [reflexivity|]. intros H.
  simpl in H. apply andb_true_iff in H. destruct H as [Hc Hr].
  cbn [scan_digits]. rewrite Hc. destruct r as [|u r2]; [reflexivity|].
  assert (Hu : isdigit u = true)
    by (simpl in Hr; apply andb_true_iff in Hr; tauto).
  destruct (digit_not_underscore u Hu) as (-> & _).
  now rewrite (IH Hr).
Qed.

Lemma rstrip_num_digits (s : string) :
  forallb_chars isdigit s = true -> rstrip_by isspace_num s = s.
Proof.
  induction s as [|c s IH]; simpl; [reflexivity|].
  intros H. apply andb_true_iff in H. destruct H as [Hc Hs].
  rewrite (IH Hs). destruct s; [|reflexivity].
  now destruct (digit_not_underscore c Hc) as (_ & _ & ->).
Qed.

(** [int] reads a run of digits, with or without a minus before it. *)
Lemma py_int_digits (neg : bool) (ds : string) :
  forallb_chars isdigit ds = true ->
  ds <> EmptyString ->
  py_int ((if neg then "-" else "") ++ ds)
  = Some (if neg then - Z.of_N (N_of_digits ds) else Z.of_N (N_of_digits ds)).
Proof.
  intros Hd Hne. destruct ds as [|c r]; [contradiction|].
  assert (Hc : isdigit c = true)
    by (simpl in Hd; apply andb_true_iff in Hd; tauto).
  destruct (digit_not_underscore c Hc) as (_ & Hplus & Hsp).
  destruct (digit_not_minus c Hc) as (Hminus & _).
  unfold py_int, strip_by. destruct neg; cbn [append lstrip_by].
  - change (isspace_num "-") with false. cbv iota.
    change (rstrip_by isspace_num (String "-" (String c r)))
      with (match rstrip_by isspace_num (String c r) with
            | EmptyString => String "-" EmptyString
            | r' => String "-" r'
            end).
    rewrite (rstrip_num_digits _ Hd). cbn [take_sign].
    change (Ascii.eqb "-" "-") with true. cbv iota.
    now rewrite (scan_digits_all _ Hd).
  - rewrite Hsp, (rstrip_num_digits _ Hd). cbn [take_sign].
    rewrite Hminus, Hplus. now rewrite (scan_digits_all _ Hd).
Qed.

Lemma remove_commas_group3 (ds : string) :
  forallb_chars isdigit ds = true -> remove_commas (group3 ds) = ds.
Proof.
  induction ds as [|c r IH]; [reflexivity|]. intros H.
  simpl in H. apply andb_true_iff in H. destruct H as [Hc Hr].
  cbn [group3 remove_commas]. rewrite (digit_not_comma c Hc).
  destruct (_ && _)%bool; cbn [append remove_commas];
    change (Ascii.eqb "," ",") with true; cbv iota; now rewrite (IH Hr).
Qed.

(** X15. The volume that the table and the export show reads back as the
    stored volume: removing the commas from the grouped text and applying
    [int], as [fetch_stock] does with the provider's cell, gives the integer
    that was formatted, whatever its size or sign. *)
Theorem X15_shown_volume_reads_back (v : Z) :
  remove_commas (format_grouped v)
  = ((if Z.ltb v 0 then "-" else "") ++ dec_of_N (Z.abs_N v))%string
  /\ to_int (remove_commas (format_grouped v)) = Ok v.
Proof.
  assert (Hrm : remove_commas (format_grouped v)
                = ((if Z.ltb v 0 then "-" else "") ++ dec_of_N (Z.abs_N v))%string).
  { unfold format_grouped. destruct (Z.ltb v 0); cbn [append remove_commas];
      [change (Ascii.eqb "-" ",") with false; cbv iota; f_equal|];
      apply remove_commas_group3, dec_of_N_digits. }
  split; [exact Hrm|]. unfold to_int. rewrite Hrm.
  rewrite py_int_digits.
  - rewrite N_of_digits_dec. destruct (Z.ltb v 0) eqn:E.
    + apply Z.ltb_lt in E. f_equal. lia.
    + apply Z.ltb_ge in E. f_equal. lia.
  - apply dec_of_N_digits.
  - destruct (dec_of_N_head (Z.abs_N v)) as (h & r & -> & _). discriminate.
Qed.

(** ** The columns of an exported line *)

Lemma split_commas_aux_length (s : string) :
  forall cur, List.length (split_commas_aux cur s) = S (count_commas s).
Proof.
  induction s as [|c s IH]; intros cur; simpl; [reflexivity|].
  destruct (Ascii.eqb c ","); simpl; now rewrite IH.
Qed.

Lemma split_commas_length (s : string) :
  List.length (split_commas s) = S (count_commas s).
Proof. apply split_commas_aux_length. Qed.

Lemma count_commas_append (s t : string) :
  count_commas (s ++ t) = (count_commas s + count_commas t)%nat.
Proof.
  induction s as [|c s IH]; simpl; [reflexivity|].
  destruct (Ascii.eqb c ","); simpl; now rewrite IH.
Qed.

Lemma count_commas_digits (ds : string) :
  forallb_chars isdigit ds = true -> count_commas ds = 0%nat.
Proof.
  induction ds as [|c r IH]; simpl; [reflexivity|]. intros H.
  apply andb_true_iff in H. destruct H as [Hc Hr].
  now rewrite (digit_not_comma c Hc), IH.
Qed.

(** A float printed with two decimals holds no comma. *)
Lemma count_commas_format_f2 (plus : bool) (x : pyfloat) :
  count_commas (format_f2 plus x) = 0%nat.
Proof.
  destruct x as [|neg|neg m e]; [now destruct plus | now destruct plus, neg|].
  unfold format_f2, fixed2. rewrite !count_commas_append.
  assert (Hs : count_commas (sign_text plus neg) = 0%nat)
    by now destruct plus, neg.
  rewrite Hs, (count_commas_digits _ (dec_of_N_digits _)).
  cbn [count_commas]. change (Ascii.eqb "." ",") with false. cbv iota.
  rewrite !digit_not_comma; [reflexivity | |];
    apply digit_char_digit; div_lia.
Qed.

Lemma count_commas_group3 (ds : string) :
  forallb_chars isdigit ds = true ->
  count_commas (group3 ds) = ((String.length ds - 1) / 3)%nat.
Proof.
  induction ds as [|c r IH]; [reflexivity|]. intros H.
  simpl in H. apply andb_true_iff in H. destruct H as [Hc Hr].
  specialize (IH Hr).
  cbn [group3 count_commas String.length]. rewrite (digit_not_comma c Hc).
  set (k := String.length r) in *.
  destruct (Nat.ltb 0 k && Nat.eqb (Nat.modulo k 3) 0)%bool eqn:E.
  - apply andb_true_iff in E. destruct E as [Hk Hm].
    apply Nat.ltb_lt in Hk. apply Nat.eqb_eq in Hm.
    cbn [append count_commas]. change (Ascii.eqb "," ",") with true. cbv iota.
    rewrite IH. div_lia.
  - assert (Hk : k = 0%nat \/ Nat.modulo k 3 <> 0%nat).
    { destruct (Nat.ltb 0 k) eqn:E1; simpl in E.
      - right. now apply Nat.eqb_neq.
      - left. apply Nat.ltb_ge in E1. lia. }
    rewrite IH. div_lia.
Qed.

Lemma count_commas_format_grouped (v : Z) :
  count_commas (format_grouped v) = ((digits_of v - 1) / 3)%nat.
Proof.
  unfold format_grouped, digits_of. rewrite count_commas_append.
  rewrite (count_commas_group3 _ (dec_of_N_digits _)).
  now destruct (Z.ltb v 0).
Qed.

Lemma digit_val_bound (c : ascii) : isdigit c = true -> (digit_val c <= 9)%N.
Proof. by_cases_on_char c; intros _; vm_compute; discriminate. Qed.

Lemma few_digits_small (v : Z) :
  (digits_of v <= 3)%nat -> -1000 < v < 1000.
Proof.
  unfold digits_of. intros Hlen.
  pose proof (N_of_digits_dec (Z.abs_N v)) as Hval.
  pose proof (dec_of_N_digits (Z.abs_N v)) as Hd.
  assert (Hsmall : (N_of_digits (dec_of_N (Z.abs_N v)) < 1000)%N).
  { unfold N_of_digits.
    destruct (dec_of_N (Z.abs_N v)) as [|c1 [|c2 [|c3 [|c4 s]]]];
      cbn [String.length forallb_chars N_of_digits_acc] in Hlen, Hd |- *;
      try lia;
      repeat match goal with
             | H : (_ && _)%bool = true |- _ =>
                 apply andb_true_iff in H; destruct H
             end;
      repeat match goal with
             | H : isdigit ?c = true |- _ =>
                 apply digit_val_bound in H
             end;
      lia. }
  rewrite Hval in Hsmall. lia.
Qed.

Lemma small_few_digits (v : Z) :
  -1000 < v < 1000 -> (1 <= digits_of v <= 3)%nat.
Proof.
  intros Hv. unfold digits_of.
  assert (Hall : forallb
                   (fun k => let n := String.length (dec_of_N (N.of_nat k)) in
                             Nat.leb 1 n && Nat.leb n 3)
                   (seq 0 1000) = true) by (vm_compute; reflexivity).
  rewrite forallb_forall in Hall.
  specialize (Hall (N.to_nat (Z.abs_N v))).
  rewrite N2Nat.id in Hall. cbv zeta in Hall.
  assert (Hin : In (N.to_nat (Z.abs_N v)) (seq 0 1000)) by (apply in_seq; lia).
  apply Hall in Hin. apply andb_true_iff in Hin. destruct Hin as [H1 H3].
  apply Nat.leb_le in H1, H3. lia.
Qed.

(** X16. A line of the export is split by commas into the nine cells of
    the header plus one more cell for every group separator of the volume
    (and for every comma inside the code, the name or the timestamp): the
    grouped volume is written unquoted.  So with comma-free texts a line
    has the nine columns of the header exactly when the volume lies strictly
    between -1000 and 1000. *)
Theorem X16_grouped_volume_adds_columns (code : string) (stock : stock_info) :
  List.length (split_commas (csv_line (code, stock)))
  = (9 + count_commas code + count_commas (Quote.name stock)
     + count_commas (timestamp stock) + (digits_of (volume stock) - 1) / 3)%nat
  /\ (count_commas code = 0%nat ->
      count_commas (Quote.name stock) = 0%nat ->
      count_commas (timestamp stock) = 0%nat ->
      (List.length (split_commas (csv_line (code, stock)))
       = List.length (split_commas csv_header)
       <-> -1000 < volume stock < 1000)).
Proof.
  assert (Hcount : List.length (split_commas (csv_line (code, stock)))
                   = (9 + count_commas code + count_commas (Quote.name stock)
                      + count_commas (timestamp stock)
                      + (digits_of (volume stock) - 1) / 3)%nat).
  { rewrite split_commas_length. unfold csv_line, fields.
    cbn [fst snd join]. rewrite !count_commas_append.
    rewrite !count_commas_format_f2, count_commas_format_grouped.
    change (count_commas newline) with 0%nat.
    change (count_commas ",") with 1%nat. lia. }
  split; [exact Hcount|]. intros Hc Hn Ht.
  rewrite Hcount, Hc, Hn, Ht.
  change (List.length (split_commas csv_header)) with 9%nat.
  split.
  - intros H. apply few_digits_small.
    assert ((digits_of (volume stock) - 1) / 3 = 0)%nat by lia.
    div_lia.
  - intros H. apply small_few_digits in H.
    assert ((digits_of (volume stock) - 1) / 3 = 0)%nat by div_lia.
    lia.
Qed.

Lemma X16_grouped_volume_adds_columns_witness :
  List.length (split_commas (csv_line ("2330"%string, Sample.info_2330)))
  = 11%nat
  /\ (List.length (split_commas (csv_line ("2330"%string, Sample.info_2330)))
      = List.length (split_commas csv_header)
      <-> -1000 < volume Sample.info_2330 < 1000).
Proof.
  split; [reflexivity|].
  apply (proj2 (X16_grouped_volume_adds_columns "2330" Sample.info_2330));
    reflexivity.
Defined.

(** ** Switching auto-refresh on and off *)

(** X17. Switching auto-refresh on starts a refresh of all tracked codes
    at once and arms one timer with the current interval; switching it off
    starts nothing and leaves the armed timers where they are.  Hence
    switching off and on again before the pending timer has fired leaves
    one timer more than before.  A timer that fires while auto-refresh is on
    starts a refresh and arms its successor with the interval in force at
    that moment. *)
Theorem X17_switching_auto_refresh (a : app) :
  (auto_refresh_var a = false ->
   exists a',
     step ClickAutoRefresh a = Some a'
     /\ auto_refresh_var a' = true
     /\ threads a' = threads a ++ Dict.keys (stocks a)
     /\ timers a' = timers a ++ [refresh_interval a])
  /\ (auto_refresh_var a = true ->
      (exists a',
          step ClickAutoRefresh a = Some a'
          /\ auto_refresh_var a' = false
          /\ threads a' = threads a /\ timers a' = timers a)
      /\ (exists a'',
             run [ClickAutoRefresh; ClickAutoRefresh] a = Some a''
             /\ auto_refresh_var a'' = true
             /\ timers a'' = timers a ++ [refresh_interval a])
      /\ (forall i ms rest,
             take_nth i (timers a) = Some (ms, rest) ->
             exists a',
               step (TimerFires i) a = Some a'
               /\ threads a' = threads a ++ Dict.keys (stocks a)
               /\ timers a' = rest ++ [refresh_interval a])).
Proof.
  assert (Hon : forall b, auto_refresh_var b = false ->
                          exists b',
                            step ClickAutoRefresh b = Some b'
                            /\ auto_refresh_var b' = true
                            /\ threads b' = threads b ++ Dict.keys (stocks b)
                            /\ timers b' = timers b ++ [refresh_interval b]).
  { intros b Hoff. cbn [step]. rewrite Hoff. cbn [negb].
    set (c := with_auto_refresh_var true b).
    assert (Hc : auto_refresh_var c = true) by reflexivity.
    eexists. split; [reflexivity|]. unfold toggle_auto_refresh. rewrite Hc.
    destruct (schedule_refresh_enabled c Hc) as (Hm & Ht & _).
    destruct (schedule_refresh_frame c) as (_ & _ & _ & _ & _ & _ & Hv).
    rewrite Hm, Ht, Hv. auto. }
  split; [apply Hon|]. intros Hvar.
  assert (Hoff : step ClickAutoRefresh a
                 = Some (with_auto_refresh_active false
                           (with_auto_refresh_var false a))).
  { cbn [step]. rewrite Hvar. reflexivity. }
  split; [|split].
  - eexists. split; [exact Hoff|]. simpl. auto.
  - cbn [run]. rewrite Hoff.
    destruct (Hon (with_auto_refresh_active false (with_auto_refresh_var false a))
                eq_refl) as (a'' & Hs & Hv & _ & Hm).
    rewrite Hs. exists a''. auto.
  - intros i ms rest Htake. cbn [step]. rewrite Htake.
    eexists. split; [reflexivity|].
    destruct (schedule_refresh_enabled (with_timers rest a) Hvar) as (Hm & Ht & _).
    rewrite Hm, Ht. auto.
Qed.

Lemma X17_switching_auto_refresh_witness :
  exists a'',
    run [ClickAutoRefresh; ClickAutoRefresh] Sample.auto_on = Some a''
    /\ timers a'' = [30000; 30000].
Proof.
  destruct (proj2 (X17_switching_auto_refresh Sample.auto_on) eq_refl)
    as (_ & (a'' & Hrun & _ & Hm) & _).
  exists a''. split; [exact Hrun | exact Hm].
Defined.

(** ** Export and the config file *)

(** X18. [export_data] writes a file exactly when the store is not
    empty, a path was chosen and the write succeeds; then it reports the
    path.  With an empty store it only warns; when the file dialog is
    dismissed it does nothing at all; when the write fails it only reports
    the failure.  It never changes the store, the table, the config file,
    the fetches in flight or the timers. *)
Theorem X18_export_guards (file_path : string) (w : bool) (a : app) :
  let a' := export_data file_path w a in
  let writes := negb (Nat.eqb (List.length (stocks a)) 0)
                && negb (String.eqb file_path EmptyString) && w in
  exported a'
  = (if writes then exported a ++ [(file_path, csv_text (stocks a))]
     else exported a)
  /\ dialogs a'
     = (if Nat.eqb (List.length (stocks a)) 0
        then dialogs a ++ [WarnNothingToExport]
        else if String.eqb file_path EmptyString then dialogs a
        else if w then dialogs a ++ [InfoExported file_path]
        else dialogs a ++ [ErrorExport])
  /\ (stocks a <> [] -> file_path = EmptyString -> a' = a)
  /\ stocks a' = stocks a /\ tree a' = tree a
  /\ config_file a' = config_file a /\ threads a' = threads a
  /\ timers a' = timers a.
Proof.
  intros a' writes.
  destruct (export_data_frame file_path w a)
    as (Hs & Ht & _ & Hc & Hth & Hm & _).
  fold a' in Hs, Ht, Hc, Hth, Hm.
  repeat split; try assumption; unfold a', writes, export_data.
  - destruct (stocks a); [reflexivity|]. cbn [List.length Nat.eqb negb andb].
    destruct (String.eqb file_path EmptyString); [reflexivity|]. now destruct w.
  - destruct (stocks a); [reflexivity|]. cbn [List.length Nat.eqb].
    destruct (String.eqb file_path EmptyString); [reflexivity|]. now destruct w.
  - intros Hne ->. destruct (stocks a); [contradiction | reflexivity].
Qed.

(** X19. The config file is only ever replaced by the list of the codes
    tracked at that moment: after any event it is either what it was, or --
    when the event changed or re-saved the store and its write succeeded --
    the JSON array of the keys of [self.stocks].  An event whose write fails
    leaves the file as it was. *)
Theorem X19_config_file_holds_tracked_codes (ev : event) (a a' : app) :
  step ev a = Some a' ->
  (config_file a' = config_file a
   \/ (writes_succeed ev = true
       /\ config_file a' = Some (dumps_codes (Dict.keys (stocks a')))))
  /\ (writes_succeed ev = false -> config_file a' = config_file a).
Proof.
  intros Hstep.
  assert (H : config_file a' = config_file a
              \/ (writes_succeed ev = true
                  /\ config_file a' = Some (dumps_codes (Dict.keys (stocks a'))))).
  { destruct ev; simpl in Hstep |- *; try (injection Hstep as <-).
    - left. reflexivity.
    - left. apply add_stock_frame.
    - left. apply refresh_all_stocks_spec.
    - left. now destruct (toggle_auto_refresh_frame
                            (with_auto_refresh_var (negb (auto_refresh_var a)) a))
        as (_ & _ & _ & -> & _).
    - left. reflexivity.
    - left. apply spin_interval_frame.
    - unfold delete_selected. destruct selected as [|i sel]; [left; reflexivity|].
      destruct writable; [right | left; reflexivity].
      split; [reflexivity|]. now rewrite save_stocks_writes, save_stocks_stocks.
    - unfold clear_all. destruct yes; [|left; reflexivity].
      destruct writable; [right; split; reflexivity | left; reflexivity].
    - left. apply export_data_frame.
    - destruct (take_nth i (timers a)) as [[ms rest]|]; [|discriminate].
      injection Hstep as <-. left.
      now destruct (schedule_refresh_frame (with_timers rest a))
        as (_ & _ & _ & -> & _).
    - destruct (take_nth i (threads a)) as [[code rest]|]; [|discriminate].
      injection Hstep as <-. unfold fetch_stock.
      destruct (fetch_outcome code r now); try (left; reflexivity).
      destruct writable; [right; split; reflexivity | left; reflexivity]. }
  split; [exact H|]. intros Hfail.
  destruct H as [H|[Hw _]]; [exact H | congruence].
Qed.

Lemma X19_config_file_holds_tracked_codes_witness :
  config_file (clear_all true true Sample.two_tracked) = Some (dumps_codes [])
  /\ config_file (clear_all true false Sample.two_tracked)
     = config_file Sample.two_tracked.
Proof.
  split.
  - destruct (proj1 (X19_config_file_holds_tracked_codes
                       (PressClear true true) Sample.two_tracked
                       (clear_all true true Sample.two_tracked) eq_refl))
      as [H|[_ H]].
    + vm_compute in H. discriminate H.
    + exact H.
  - exact (proj2 (X19_config_file_holds_tracked_codes
                    (PressClear true false) Sample.two_tracked
                    (clear_all true false Sample.two_tracked) eq_refl) eq_refl).
Defined.

(** ** A config file that is not an array *)

Lemma append_empty (s : string) : (s ++ EmptyString)%string = s.
Proof. induction s as [|c s IH]; simpl; [reflexivity | now rewrite IH]. Qed.

Lemma loads_encode_string (s : string) :
  loads (encode_string s) = Some (JString s).
Proof.
  unfold loads. rewrite <- (append_empty (encode_string s)) at 2.
  rewrite skip_ws_encode_string, parse_value_encode_string. reflexivity.
Qed.

Lemma chars_length (s : string) : List.length (chars s) = String.length s.
Proof. induction s as [|c s IH]; simpl; [reflexivity | now rewrite IH]. Qed.

Lemma chars_single (s c : string) : In c (chars s) -> String.length c = 1%nat.
Proof.
  induction s as [|x s IH]; simpl; [tauto|].
  intros [<-|H]; [reflexivity | now apply IH].
Qed.

(** X20. A config file that holds one JSON string instead of an array
    of strings is read character by character: [load_stocks] starts one
    fetch per character of the string, in order, and reports nothing.  None
    of these fetches is for a four-digit code. *)
Theorem X20_string_config_is_read_by_character (s : string) :
  exists a0,
    init (Some (encode_string s)) = Some a0
    /\ threads a0 = chars s
    /\ List.length (threads a0) = String.length s
    /\ dialogs a0 = [] /\ stocks a0 = []
    /\ Forall (fun c => well_formed c = false) (threads a0).
Proof.
  unfold init, load_stocks. cbn [config_file].
  rewrite loads_encode_string. cbn [iterate].
  eexists. split; [reflexivity|].
  set (b := mk_app [] (Some (encode_string s)) false 30000 EmptyString false
              "30" [] [] [] [] []).
  destruct (start_all_threads (chars s) b) as (Ht & Hs & _ & Hd & _).
  rewrite Ht, Hs, Hd. cbn [threads b List.app].
  repeat split; try reflexivity.
  - apply chars_length.
  - apply Forall_forall. intros c Hin. apply chars_single in Hin.
    unfold well_formed. rewrite Hin. apply andb_false_r.
Qed.

(** ** The colour of a line *)

Lemma scaled_cents_zero (e : Z) : scaled_cents 0 e = 0.
Proof.
  unfold scaled_cents. destruct (0 <=? e) eqn:E; [reflexivity|].
  apply Z.leb_gt in E. unfold round_half_even.
  change (Z.of_N 0 * 100) with 0. rewrite Z.div_0_l, Zmod_0_l by
    (apply Z.pow_nonzero; lia).
  assert (H : 0 < 2 ^ (- e)) by (apply Z.pow_pos_nonneg; lia).
  destruct (Z.ltb_spec (2 * 0) (2 ^ (- e))); [reflexivity | lia].
Qed.

(** X21. The colour of a line agrees with the sign printed in its change
    column: a line tagged [up] (red) shows a change that starts with a plus
    sign, a line tagged [down] (green) one that starts with a minus sign.
    A line without a tag is one whose change is a zero or not a number, and
    it shows [+0.00], [-0.00] or [+nan]. *)
Theorem X21_colour_follows_printed_sign (code : string) (stock : stock_info) :
  let line := item_of (code, stock) in
  let shown := nth 3 (values line) EmptyString in
  shown = format_f2 true (change stock)
  /\ (tags line = Some Up -> exists r, shown = String "+" r)
  /\ (tags line = Some Down -> exists r, shown = String "-" r)
  /\ (tags line = None ->
      shown = "+0.00" \/ shown = "-0.00" \/ shown = "+nan").
Proof.
  cbn [item_of values tags fields nth].
  split; [reflexivity|].
  destruct (change stock) as [|neg|neg m e]; cbn [float_pos float_neg format_f2].
  - repeat split; try discriminate. intros _. right. right. reflexivity.
  - destruct neg; cbn [negb sign_text append]; repeat split;
      try discriminate; intros _; eexists; reflexivity.
  - destruct neg, (N.eqb_spec m 0) as [->|Hm];
      cbn [negb andb sign_text append]; repeat split; try discriminate;
      intros _; try rewrite scaled_cents_zero;
      try (eexists; reflexivity).
    + right. left. reflexivity.
    + left. reflexivity.
Qed.

(** * The refresh interval

    [update_refresh_interval] stores whatever number [int] reads from the
    spinbox; what keeps the interval within the bounds given in [init_ui]
    is the spinbox, which limits the stepped value before it runs the
    command. *)

(** ** What a step of the spinbox leaves in the box *)

Lemma binary64_of_ratio_not_nan (neg : bool) (num den : Z) :
  binary64_of_ratio neg num den <> FNan.
Proof.
  unfold binary64_of_ratio. destruct (num =? 0); [discriminate|]. cbv zeta.
  match goal with |- (if ?b then _ else _) <> _ => destruct b end; discriminate.
Qed.

Lemma scan_f_not_nan (text : string) (x : pyfloat) :
  scan_f text = Some x -> x <> FNan.
Proof.
  unfold scan_f. destruct (take_sign (lstrip_by is_space text)) as [neg body].
  destruct (starts_inf body); [intros [= <-]; discriminate|].
  destruct (span_digits body) as [ip r1].
  set (q := match r1 with
            | String c r =>
                if Ascii.eqb c "."
                then let (fp, r2) := span_digits r in (true, fp, r2)
                else (false, EmptyString, r1)
            | EmptyString => (false, EmptyString, r1)
            end).
  destruct q as [[point fp] r2].
  destruct (ip ++ fp)%string as [|d ds]; [discriminate|].
  destruct (exponent_of r2) as [ex|].
  - intros [= <-]. unfold binary64_of_decimal.
    destruct (0 <=? _); apply binary64_of_ratio_not_nan.
  - destruct (negb point && (N_of_digits (String d ds) =? 0)%N);
      intros [= <-]; [discriminate|].
    unfold binary64_of_decimal.
    destruct (0 <=? _); apply binary64_of_ratio_not_nan.
Qed.

Lemma add_Z_not_nan (x : pyfloat) (k : Z) : x <> FNan -> add_Z x k <> FNan.
Proof.
  destruct x as [|neg|neg m e]; [contradiction | discriminate |].
  intros _. unfold add_Z. destruct (0 <=? e); apply binary64_of_ratio_not_nan.
Qed.

(** Rounding to the nearest integer keeps a value between two integers. *)
Lemma round_half_even_bounds (m d lo hi : Z) :
  0 < d -> lo * d <= m <= hi * d -> lo <= round_half_even m d <= hi.
Proof.
  intros Hd Hm. unfold round_half_even.
  destruct (Z.ltb_spec (2 * (m mod d)) d);
    [|destruct (Z.ltb_spec d (2 * (m mod d))); [|destruct (Z.even (m / d))]];
    Z.div_mod_to_equations; nia.
Qed.

(** A value that is no NaN, limited to the bounds and formatted, is the
    decimal text of an integer within the bounds. *)
Lemma FormatValue_Limit (v : pyfloat) :
  v <> FNan ->
  exists n, spin_from <= n <= spin_to
            /\ FormatValue (Limit v spin_from spin_to)
               = Some (dec_of_N (Z.to_N n)).
Proof.
  assert (Hlo : exists n, spin_from <= n <= spin_to
                          /\ FormatValue (double_of_Z spin_from)
                             = Some (dec_of_N (Z.to_N n))).
  { exists 5. split; [unfold spin_from, spin_to; lia | reflexivity]. }
  assert (Hhi : exists n, spin_from <= n <= spin_to
                          /\ FormatValue (double_of_Z spin_to)
                             = Some (dec_of_N (Z.to_N n))).
  { exists 300. split; [unfold spin_from, spin_to; lia | reflexivity]. }
  intros Hv. destruct v as [|neg|neg m e]; [contradiction | |].
  - unfold Limit, compare_Z. destruct neg; assumption.
  - unfold Limit, compare_Z. cbv zeta.
    set (s := if neg then - Z.of_N m else Z.of_N m).
    assert (Hs : 0 < s -> neg = false).
    { unfold s. destruct neg; [lia | reflexivity]. }
    assert (Hsm : neg = false -> s = Z.of_N m) by (intros ->; reflexivity).
    destruct (0 <=? e) eqn:He.
    + apply Z.leb_le in He.
      assert (Hp : 0 < 2 ^ e) by (apply Z.pow_pos_nonneg; lia).
      destruct (Z.compare_spec (s * 2 ^ e) spin_from) as [H1|H1|H1];
        try exact Hlo;
        (destruct (Z.compare_spec (s * 2 ^ e) spin_to) as [H2|H2|H2];
         try exact Hhi);
        (assert (Hn : neg = false)
           by (apply Hs; unfold spin_from, spin_to in *; nia));
        rewrite (Hsm Hn) in *; subst neg;
        exists (Z.of_N m * 2 ^ e);
        (split; [unfold spin_from, spin_to in *; lia|]);
        unfold FormatValue; apply Z.leb_le in He; rewrite He; reflexivity.
    + apply Z.leb_gt in He.
      assert (Hp : 0 < 2 ^ (- e)) by (apply Z.pow_pos_nonneg; lia).
      destruct (Z.compare_spec s (spin_from * 2 ^ (- e))) as [H1|H1|H1];
        try exact Hlo;
        (destruct (Z.compare_spec s (spin_to * 2 ^ (- e))) as [H2|H2|H2];
         try exact Hhi);
        (assert (Hn : neg = false)
           by (apply Hs; unfold spin_from, spin_to in *; nia));
        rewrite (Hsm Hn) in *; subst neg;
        exists (round_half_even (Z.of_N m) (2 ^ (- e)));
        (split; [apply round_half_even_bounds; [exact Hp | lia]|]);
        unfold FormatValue; apply Z.leb_gt in He; rewrite He; reflexivity.
Qed.

(** Whatever text the box holds, and whichever arrow is used, [Spin] leaves
    in it the decimal text of an integer within the bounds. *)
Lemma Spin_within_bounds (dir : direction) (text : string) :
  exists n, spin_from <= n <= spin_to
            /\ Spin spin_from spin_to dir text = Some (dec_of_N (Z.to_N n)).
Proof.
  unfold Spin. apply FormatValue_Limit.
  destruct (scan_f text) as [x|] eqn:E.
  - apply add_Z_not_nan. eapply scan_f_not_nan. exact E.
  - apply binary64_of_ratio_not_nan.
Qed.

Lemma py_int_dec (n : Z) : 0 <= n -> py_int (dec_of_N (Z.to_N n)) = Some n.
Proof.
  intros Hn. destruct (dec_of_N_head (Z.to_N n)) as (c & r & Hd & _).
  pose proof (py_int_digits false (dec_of_N (Z.to_N n))
                (dec_of_N_digits _)) as H.
  cbn [append] in H. rewrite H by (rewrite Hd; discriminate).
  now rewrite N_of_digits_dec, Z2N.id.
Qed.

(** ** One step of the interval spinbox *)

Lemma spin_interval_spec (dir : direction) (a : app) :
  exists n,
    spin_from <= n <= spin_to
    /\ Spin spin_from spin_to dir (interval_var a)
       = Some (dec_of_N (Z.to_N n))
    /\ spin_interval dir a
       = update_refresh_interval (with_interval_var (dec_of_N (Z.to_N n)) a)
    /\ refresh_interval (spin_interval dir a) = n * 1000
    /\ (auto_refresh_var a = true ->
        timers (spin_interval dir a) = timers a ++ [n * 1000])
    /\ (auto_refresh_var a = false -> timers (spin_interval dir a) = timers a).
Proof.
  destruct (Spin_within_bounds dir (interval_var a)) as (n & Hn & HS).
  exists n. split; [exact Hn|]. split; [exact HS|].
  unfold spin_interval. rewrite HS.
  set (b := with_interval_var (dec_of_N (Z.to_N n)) a).
  assert (Hint : py_int (interval_var b) = Some n)
    by (apply py_int_dec; unfold spin_from in Hn; lia).
  split; [reflexivity|].
  destruct (auto_refresh_var a) eqn:Hvar.
  - destruct (update_refresh_interval_enabled b n Hvar Hint)
      as (_ & Hr & Hm & _).
    split; [exact Hr|]. split; [intros _; exact Hm | discriminate].
  - unfold update_refresh_interval. rewrite Hint.
    cbn [auto_refresh_var with_refresh_interval with_interval_var b].
    rewrite Hvar. cbn [refresh_interval timers with_refresh_interval with_interval_var].
    split; [reflexivity|]. split; [discriminate | reflexivity].
Qed.

(** The policy is to limit.  It is checked here, by running the model, for
    the texts of the integers from -99 to 999. *)
Lemma spin_clamps_checked :
  forallb (fun k => spin_clamps Increment k && spin_clamps Decrement k)
    (Z_range (-99) 1099) = true.
Proof. vm_compute. reflexivity. Qed.

Lemma spin_clamps_spec (dir : direction) (k : Z) :
  -100 < k < 1000 ->
  Spin spin_from spin_to dir (int_text k)
  = Some (int_text (clamp (k + dir_of dir))).
Proof.
  intros Hk. pose proof spin_clamps_checked as H.
  rewrite forallb_forall in H.
  assert (Hin : In k (Z_range (-99) 1099)).
  { unfold Z_range. apply in_map_iff. exists (Z.to_nat (k + 99)).
    split; [lia | apply in_seq; lia]. }
  specialize (H k Hin). apply andb_true_iff in H. destruct H as [Hup Hdown].
  assert (Hd : spin_clamps dir k = true) by (destruct dir; assumption).
  unfold spin_clamps in Hd.
  destruct (Spin spin_from spin_to dir (int_text k)) as [text|]; [|discriminate].
  apply String.eqb_eq in Hd. now rewrite Hd.
Qed.

Lemma int_text_clamp (k : Z) : int_text (clamp k) = dec_of_N (Z.to_N (clamp k)).
Proof.
  assert (H : spin_from <= clamp k) by (unfold clamp; lia).
  unfold spin_from in H. unfold int_text.
  destruct (Z.ltb_spec (clamp k) 0); [lia|]. cbn [append]. f_equal.
  apply N2Z.inj. rewrite N2Z.inj_abs_N, Z2N.id; lia.
Qed.

Lemma dec_of_N_inj (n n' : N) : dec_of_N n = dec_of_N n' -> n = n'.
Proof.
  intros H. rewrite <- (N_of_digits_dec n), <- (N_of_digits_dec n').
  now rewrite H.
Qed.

(** ** The interval and the armed timers stay within the bounds *)

Lemma step_keeps_bounds (ev : event) (a a' : app) :
  step ev a = Some a' ->
  5000 <= refresh_interval a <= 300000
  /\ Forall (fun ms => 5000 <= ms <= 300000) (timers a) ->
  5000 <= refresh_interval a' <= 300000
  /\ Forall (fun ms => 5000 <= ms <= 300000) (timers a').
Proof.
  assert (Hsched : forall b,
             5000 <= refresh_interval b <= 300000
             /\ Forall (fun ms => 5000 <= ms <= 300000) (timers b) ->
             5000 <= refresh_interval (schedule_refresh b) <= 300000
             /\ Forall (fun ms => 5000 <= ms <= 300000)
                  (timers (schedule_refresh b))).
  { intros b [Hr Hm]. destruct (auto_refresh_var b) eqn:Hvar.
    - destruct (schedule_refresh_enabled b Hvar) as (-> & _ & ->).
      split; [exact Hr|]. apply Forall_app. split; [exact Hm|].
      constructor; [exact Hr | constructor].
    - unfold schedule_refresh. rewrite Hvar. auto. }
  destruct ev; simpl; intros Hstep Hinv; try (injection Hstep as <-).
  - exact Hinv.
  - destruct (add_stock_cases a) as [[d ->]|(_ & _ & ->)]; exact Hinv.
  - destruct (refresh_all_stocks_spec a) as (_ & _ & _ & _ & -> & -> & _).
    exact Hinv.
  - unfold toggle_auto_refresh.
    destruct (auto_refresh_var
                (with_auto_refresh_var (negb (auto_refresh_var a)) a));
      [apply Hsched|]; exact Hinv.
  - exact Hinv.
  - destruct (spin_interval_spec dir a) as (n & Hn & _ & _ & Hr & Hon & Hoff).
    unfold spin_from, spin_to in Hn. rewrite Hr. split; [lia|].
    destruct (auto_refresh_var a).
    + rewrite (Hon eq_refl). apply Forall_app. split; [apply Hinv|].
      constructor; [lia | constructor].
    + rewrite (Hoff eq_refl). apply Hinv.
  - unfold delete_selected. destruct selected; [exact Hinv|].
    destruct writable; exact Hinv.
  - unfold clear_all. destruct yes; [|exact Hinv]. destruct writable; exact Hinv.
  - destruct (export_data_frame file_path writable a)
      as (_ & _ & _ & _ & _ & -> & _ & ->). exact Hinv.
  - destruct (take_nth i (timers a)) as [[ms rest]|] eqn:E; [|discriminate].
    injection Hstep as <-. apply Hsched. destruct Hinv as [Hr Hm].
    split; [exact Hr|]. cbn [timers with_timers].
    rewrite Forall_forall in Hm |- *. intros x Hx. apply Hm.
    now apply (take_nth_in _ _ _ _ E).
  - destruct (take_nth i (threads a)) as [[code rest]|]; [|discriminate].
    injection Hstep as <-. unfold fetch_stock.
    destruct (fetch_outcome code r now); try exact Hinv.
    destruct writable; exact Hinv.
Qed.

(** C4. The refresh interval that a timer is armed with always lies in
    [5000, 300000] ms.  The interval is set in one way only, by a step of
    the spinbox, and whatever text the box holds at that moment the spinbox
    first replaces it by an integer within its bounds, 5 and 300, and then
    runs [update_refresh_interval], which stores that integer times 1000
    and, when auto-refresh is on, arms a timer with it.  The policy is to
    limit: from the text of an integer [k] the step gives [k] plus or minus
    one, limited to the bounds, and from text that holds no number it gives
    the lower bound.  So, in every state the application can reach, the
    stored interval and every armed timer lie within [5000, 300000] ms. *)
Theorem C4_interval_stays_within_bounds :
  (forall (a : app) (dir : direction),
      exists n,
        spin_from <= n <= spin_to
        /\ step (SpinInterval dir) a
           = Some (update_refresh_interval
                     (with_interval_var (dec_of_N (Z.to_N n)) a))
        /\ refresh_interval (spin_interval dir a) = n * 1000
        /\ 5000 <= refresh_interval (spin_interval dir a) <= 300000
        /\ (auto_refresh_var a = true ->
            timers (spin_interval dir a) = timers a ++ [n * 1000])
        /\ (auto_refresh_var a = false ->
            timers (spin_interval dir a) = timers a)
        /\ (forall k, -100 < k < 1000 -> interval_var a = int_text k ->
                      n = clamp (k + dir_of dir))
        /\ (scan_f (interval_var a) = None -> n = spin_from))
  /\ (forall a : app,
         reachable a ->
         5000 <= refresh_interval a <= 300000
         /\ Forall (fun ms => 5000 <= ms <= 300000) (timers a)).
Proof.
  split.
  - intros a dir.
    destruct (spin_interval_spec dir a) as (n & Hn & HS & Ha & Hr & Hon & Hoff).
    exists n. split; [exact Hn|].
    split; [cbn [step]; now rewrite Ha|].
    split; [exact Hr|].
    split; [rewrite Hr; unfold spin_from, spin_to in Hn; lia|].
    split; [exact Hon|]. split; [exact Hoff|]. split.
    + intros k Hk Htext. rewrite Htext, (spin_clamps_spec dir k Hk) in HS.
      rewrite int_text_clamp in HS. injection HS as HS.
      apply dec_of_N_inj in HS. apply Z2N.inj in HS;
        unfold clamp, spin_from, spin_to in *; lia.
    + intros Hscan. unfold Spin in HS. rewrite Hscan in HS.
      change (FormatValue (Limit (double_of_Z spin_from) spin_from spin_to))
        with (Some (dec_of_N (Z.to_N spin_from))) in HS.
      injection HS as HS. apply dec_of_N_inj in HS.
      unfold spin_from in *. lia.
  - apply reachable_invariant.
    + intros config a0 H. apply init_state in H.
      destruct H as (_ & _ & _ & -> & _ & -> & _). split; [lia | constructor].
    + intros ev a a' Hinv Hstep. eapply step_keeps_bounds; eauto.
Qed.

Lemma C4_interval_stays_within_bounds_witness :
  exists a',
    run [ClickAutoRefresh; TypeInterval "300"; SpinInterval Increment;
         TypeInterval "2"; SpinInterval Decrement; TypeInterval "soon";
         SpinInterval Increment] Sample.one_tracked = Some a'
    /\ timers a' = [30000; 300000; 5000; 5000]
    /\ Forall (fun ms => 5000 <= ms <= 300000) (timers a').
Proof.
  eexists. split; [vm_compute; reflexivity|]. split; [reflexivity|].
  apply (proj2 C4_interval_stays_within_bounds).
  exists None. eexists.
  exists (Sample.first_fetch
            ++ [ClickAutoRefresh; TypeInterval "300"; SpinInterval Increment;
                TypeInterval "2"; SpinInterval Decrement; TypeInterval "soon";
                SpinInterval Increment]).
  split; [reflexivity | vm_compute; reflexivity].
Defined.
